(** * TaskManagerV2: the task store and the date validator

    A shallow embedding of [TaskManagerV2.py]: the [Task] record, the
    [TaskManager] store (load, save, filter, sort, add, update, delete) and
    [TaskManagerGUI.validate_date], with the properties of the store's
    contract proved about them.

    Conventions of the embedding.
    - Python values are the type [pyval] (the values [json.load] can
      produce); a [Task] holds four of them, as the class does: nothing in
      the source checks that they are strings.
    - A Python [str] is a [string]; the character [ascii] with code [n]
      stands for the code point U+00[n], so the model covers the strings
      over U+0000..U+00FF, on which [str.lower] is length preserving.
    - A method is a function from the state (the object [self] and the file
      system) to a result and a new state; a result is a value or a raised
      exception.
    - [json.dump], [json.load], [list.sort], [int] and [datetime.strptime]
      are library code; they are modelled by their documented behaviour. *)

From Stdlib Require Import ZArith Ascii String List Lia Sorted.
From Stdlib Require OrderedTypeEx.
From stdpp Require Import base gmap strings list sorting.

Set Warnings "-register-all".
Local Open Scope Z_scope.

(** ** Python values and exceptions *)

(** The values of the JSON data model as Python sees them.  A float is kept
    as its IEEE-754 binary64 bit pattern: the program stores floats and
    never computes with them. *)
Inductive pyval : Type :=
  | PNone
  | PBool (b : bool)
  | PInt (z : Z)
  | PFloat (bits : Z)
  | PStr (s : string)
  | PList (l : list pyval)
  | PDict (m : gmap string pyval).

(** The exception classes the modelled code can raise.
    [json.JSONDecodeError] is a subclass of [ValueError]; the only handler
    for [ValueError] in the modelled code ([validate_date]) guards no JSON
    decoding, so the two are kept as separate constructors. *)
Inductive exn : Type :=
  | FileNotFoundError
  | JSONDecodeError
  | KeyError (key : string)
  | TypeError
  | AttributeError
  | ValueError
  | IndexError.

Inductive result (A : Type) : Type :=
  | Ok (a : A)
  | Raise (e : exn).
Arguments Ok {A} a.
Arguments Raise {A} e.

Definition rbind {A B} (r : result A) (k : A -> result B) : result B :=
  match r with
  | Ok a => k a
  | Raise e => Raise e
  end.

Declare Scope py_scope.
Delimit Scope py_scope with py.
Notation "'let?' x := r 'in' k" := (rbind r (fun x => k))
  (at level 10, x name, r at level 100, k at level 200, only parsing) : py_scope.
Local Open Scope py_scope.

(** [[f(x) for x in xs]]: the first exception raised ends the comprehension. *)
Fixpoint comprehension {A B} (f : A -> result B) (xs : list A) : result (list B) :=
  match xs with
  | [] => Ok []
  | x :: xs' =>
      let? y := f x in
      let? ys := comprehension f xs' in
      Ok (y :: ys)
  end.

(** [[x for x in xs if p(x)]] with a condition that may raise. *)
Fixpoint comprehension_if {A} (p : A -> result bool) (xs : list A) : result (list A) :=
  match xs with
  | [] => Ok []
  | x :: xs' =>
      let? b := p x in
      let? ys := comprehension_if p xs' in
      Ok (if b then x :: ys else ys)
  end.

(** ** Strings *)

Definition code (c : ascii) : Z := Z.of_N (N_of_ascii c).

Definition in_range (lo hi : Z) (n : Z) : bool := (lo <=? n) && (n <=? hi).

(** [str.lower] on one code point of U+0000..U+00FF: A-Z and the Latin-1
    capitals U+00C0..U+00DE (but not the multiplication sign U+00D7) move up
    by 32; every other code point is its own lower case. *)
Definition lower_char (c : ascii) : ascii :=
  let n := code c in
  if in_range 65 90 n || (in_range 192 222 n && negb (n =? 215))
  then ascii_of_N (Z.to_N (n + 32))
  else c.

Fixpoint lower (s : string) : string :=
  match s with
  | EmptyString => EmptyString
  | String c r => String (lower_char c) (lower r)
  end.

(** [str.isspace] on one code point of U+0000..U+00FF. *)
Definition isspace (c : ascii) : bool :=
  let n := code c in
  in_range 9 13 n || in_range 28 32 n || (n =? 133) || (n =? 160).

Fixpoint lstrip (s : string) : string :=
  match s with
  | EmptyString => EmptyString
  | String c r => if isspace c then lstrip r else s
  end.

Fixpoint rstrip (s : string) : string :=
  match s with
  | EmptyString => EmptyString
  | String c r =>
      match rstrip r with
      | EmptyString => if isspace c then EmptyString else String c EmptyString
      | r' => String c r'
      end
  end.

(** [s.strip()] *)
Definition strip (s : string) : string := rstrip (lstrip s).

Fixpoint startswith (s p : string) {struct p} : bool :=
  match p, s with
  | EmptyString, _ => true
  | String _ _, EmptyString => false
  | String a p', String b s' => if Ascii.eqb a b then startswith s' p' else false
  end.

(** [a in b] on strings: [a] occurs in [b] as a contiguous substring. *)
Fixpoint str_contains (a b : string) : bool :=
  startswith b a ||
  match b with
  | EmptyString => false
  | String _ b' => str_contains a b'
  end.

(** ** Truth values, attribute calls and iteration on dynamic values *)

(** [bool(v)] *)
Definition truthy (v : pyval) : bool :=
  match v with
  | PNone => false
  | PBool b => b
  | PInt z => negb (z =? 0)
  | PFloat bits => negb ((bits =? 0) || (bits =? 2 ^ 63))
  | PStr s => negb (String.eqb s EmptyString)
  | PList l => match l with [] => false | _ => true end
  | PDict m => negb (bool_decide (m = ∅))
  end.

(** [v.lower()]: only [str] has the method. *)
Definition py_lower (v : pyval) : result string :=
  match v with
  | PStr s => Ok (lower s)
  | _ => Raise AttributeError
  end.

(** [v.strip()] *)
Definition py_strip (v : pyval) : result string :=
  match v with
  | PStr s => Ok (strip s)
  | _ => Raise AttributeError
  end.

(** [v == s] for a string [s]: a value of another type is never equal to
    a string. *)
Definition py_eq_str (v : pyval) (s : string) : bool :=
  match v with
  | PStr a => String.eqb a s
  | _ => false
  end.

Fixpoint chars (s : string) : list pyval :=
  match s with
  | EmptyString => []
  | String c r => PStr (String c EmptyString) :: chars r
  end.

(** [iter(v)]: a list yields its items, a dict its keys, a string its
    characters; the other values are not iterable. *)
Definition py_iter (v : pyval) : result (list pyval) :=
  match v with
  | PList l => Ok l
  | PDict m => Ok (map (fun kv => PStr (fst kv)) (map_to_list m))
  | PStr s => Ok (chars s)
  | _ => Raise TypeError
  end.

(** [v[key]] for a string [key]: a dict looks the key up and raises
    [KeyError] when it is absent; a list or a string takes integer
    indices only; the other values are not subscriptable. *)
Definition py_getitem (v : pyval) (key : string) : result pyval :=
  match v with
  | PDict m => match m !! key with
               | Some x => Ok x
               | None => Raise (KeyError key)
               end
  | _ => Raise TypeError
  end.

(** ** [int(s)] on a string *)

Definition is_digit (c : ascii) : bool := in_range 48 57 (code c).
Definition digit_val (c : ascii) : Z := code c - 48.

(** The white space [int] skips at both ends: the ASCII white space of the
    C locale, and the non-ASCII Unicode spaces (U+0085 and U+00A0 below
    U+0100), which CPython first rewrites to a blank.  U+001C..U+001F are
    white space for [str.isspace] but not here. *)
Definition int_space (c : ascii) : bool :=
  let n := code c in
  in_range 9 13 n || (n =? 32) || (n =? 133) || (n =? 160).

Fixpoint skip_int_space (s : string) : string :=
  match s with
  | EmptyString => EmptyString
  | String c r => if int_space c then skip_int_space r else s
  end.

Fixpoint all_int_space (s : string) : bool :=
  match s with
  | EmptyString => true
  | String c r => int_space c && all_int_space r
  end.

(** The digits of a decimal literal, single underscores allowed between
    digits.  [prev] tells that the previous character was a digit; the
    result is the value read and the text left. *)
Fixpoint int_digits (s : string) (acc : Z) (prev : bool) : option (Z * string) :=
  match s with
  | EmptyString => if prev then Some (acc, EmptyString) else None
  | String c r =>
      if is_digit c then int_digits r (acc * 10 + digit_val c) true
      else if Ascii.eqb c "_" then
        (if prev then
           match r with
           | String d _ => if is_digit d then int_digits r acc false else None
           | EmptyString => None
           end
         else None)
      else if prev then Some (acc, s) else None
  end.

(** [int(s)]: optional white space, an optional sign, the digits, optional
    white space; anything else raises [ValueError]. *)
Definition py_int (s : string) : result Z :=
  let s1 := skip_int_space s in
  let '(sign, s2) :=
    match s1 with
    | String "+" r => (1, r)
    | String "-" r => (-1, r)
    | _ => (1, s1)
    end in
  match int_digits s2 0 false with
  | Some (n, rest) => if all_int_space rest then Ok (sign * n) else Raise ValueError
  | None => Raise ValueError
  end.

(** [s[i]] for [0 <= i]: the character at [i], [IndexError] past the end. *)
Definition str_index (s : string) (i : nat) : result ascii :=
  match String.get i s with
  | Some c => Ok c
  | None => Raise IndexError
  end.

(** [s[i:j]] for [0 <= i <= j]. *)
Definition slice (s : string) (i j : nat) : string := String.substring i (j - i) s.

(** [l[i]] on a list, for any integer [i]: negative indices count from the
    end, and an index outside [-len, len) raises [IndexError]. *)
Definition list_index {A} (l : list A) (i : Z) : result A :=
  let n := Z.of_nat (length l) in
  let j := if i <? 0 then i + n else i in
  if (0 <=? j) && (j <? n) then
    match l !! Z.to_nat j with
    | Some x => Ok x
    | None => Raise IndexError
    end
  else Raise IndexError.

(** ** [datetime.strptime(s, "%Y-%m-%d")] *)

(** A calendar date; [datetime] objects built by this format have time
    00:00:00 and compare as the triple (year, month, day). *)
Definition date : Type := Z * Z * Z.

Definition date_ltb (a b : date) : bool :=
  let '(y1, m1, d1) := a in
  let '(y2, m2, d2) := b in
  (y1 <? y2) || ((y1 =? y2) && ((m1 <? m2) || ((m1 =? m2) && (d1 <? d2)))).

Definition is_leap (y : Z) : bool :=
  (y mod 4 =? 0) && (negb (y mod 100 =? 0) || (y mod 400 =? 0)).

Definition days_in_month (y m : Z) : Z :=
  if m =? 2 then (if is_leap y then 29 else 28)
  else if (m =? 4) || (m =? 6) || (m =? 9) || (m =? 11) then 30
  else 31.

(** The matches of a directive at the head of a text, in the order the
    regular expression of [_strptime] tries its alternatives; each is the
    number read and the text left. *)

(** [%Y]: exactly four digits. *)
Definition match_Y (s : string) : list (Z * string) :=
  match s with
  | String a (String b (String c (String d r))) =>
      if is_digit a && is_digit b && is_digit c && is_digit d
      then [(digit_val a * 1000 + digit_val b * 100 + digit_val c * 10 + digit_val d, r)]
      else []
  | _ => []
  end.

(** [%m]: [1[0-2]], then [0[1-9]], then [[1-9]]. *)
Definition match_m (s : string) : list (Z * string) :=
  (match s with
   | String "1" (String b r) => if in_range 48 50 (code b) then [(10 + digit_val b, r)] else []
   | _ => []
   end) ++
  (match s with
   | String "0" (String b r) => if in_range 49 57 (code b) then [(digit_val b, r)] else []
   | _ => []
   end) ++
  (match s with
   | String a r => if in_range 49 57 (code a) then [(digit_val a, r)] else []
   | _ => []
   end).

(** [%d]: [3[01]], then [[12]\d], then [0[1-9]], then [[1-9]], then a blank
    and [[1-9]]. *)
Definition match_d (s : string) : list (Z * string) :=
  (match s with
   | String "3" (String b r) => if in_range 48 49 (code b) then [(30 + digit_val b, r)] else []
   | _ => []
   end) ++
  (match s with
   | String a (String b r) =>
       if in_range 49 50 (code a) && is_digit b then [(digit_val a * 10 + digit_val b, r)] else []
   | _ => []
   end) ++
  (match s with
   | String "0" (String b r) => if in_range 49 57 (code b) then [(digit_val b, r)] else []
   | _ => []
   end) ++
  (match s with
   | String a r => if in_range 49 57 (code a) then [(digit_val a, r)] else []
   | _ => []
   end) ++
  (match s with
   | String " " (String b r) => if in_range 49 57 (code b) then [(digit_val b, r)] else []
   | _ => []
   end).

Definition match_dash (s : string) : list string :=
  match s with
  | String "-" r => [r]
  | _ => []
  end.

(** The matches of the whole pattern [%Y-%m-%d] at the head of [s], first
    match first, as the backtracking matcher finds them. *)
Definition match_ymd (s : string) : list (date * string) :=
  '(y, s1) ← match_Y s;
  s2 ← match_dash s1;
  '(m, s3) ← match_m s2;
  s4 ← match_dash s3;
  '(d, s5) ← match_d s4;
  [((y, m, d), s5)].

(** [datetime.strptime(s, "%Y-%m-%d")]: the first match of the pattern must
    use up the whole text, and the numbers must make a date of the
    proleptic Gregorian calendar with a year from 1 on. *)
Definition strptime (s : string) : result date :=
  match match_ymd s with
  | [] => Raise ValueError
  | ((y, m, d), rest) :: _ =>
      match rest with
      | String _ _ => Raise ValueError
      | EmptyString =>
          if (1 <=? y) && (d <=? days_in_month y m) then Ok (y, m, d)
          else Raise ValueError
      end
  end.

(** [strptime] takes a [str] only. *)
Definition py_strptime (v : pyval) : result date :=
  match v with
  | PStr s => strptime s
  | _ => Raise TypeError
  end.

(** ** [list.sort(key=..., reverse=...)] *)

Section StableSort.
Context {K A : Type} (ltb : K -> K -> bool).

(** [x] stood before every item of [l] in the input: it goes in front of
    the first item whose key is not smaller than its own. *)
Fixpoint insert_by (x : K * A) (l : list (K * A)) : list (K * A) :=
  match l with
  | [] => [x]
  | y :: l' => if ltb (fst y) (fst x) then y :: insert_by x l' else x :: l
  end.

(** The stable sort of items decorated with their keys.  [list.sort]
    compares keys with [<] only and is stable, which determines its
    result; insertion sort stands for it. *)
Definition stable_sort (l : list (K * A)) : list (K * A) :=
  foldr insert_by [] l.

(** [l.sort(key=key, reverse=reverse)]: the keys are computed first, once
    per item, and an exception there leaves the list as it was; with
    [reverse] the list is reversed before and after the stable sort. *)
Definition list_sort (key : A -> result K) (reverse : bool) (l : list A)
  : result (list A) :=
  let? keys := comprehension key l in
  let kl := zip keys l in
  let kl := if reverse then rev kl else kl in
  let sorted := stable_sort kl in
  Ok (map snd (if reverse then rev sorted else sorted)).
End StableSort.

(** ** The file system *)

(** What a file holds, as far as [json.load] can tell: nothing at all, the
    text of a JSON document (kept as the value the document decodes to), or
    some other text. *)
Inductive content : Type :=
  | Empty
  | Malformed
  | Document (v : pyval).

(** [json.load(file)] *)
Definition json_load (c : content) : result pyval :=
  match c with
  | Document v => Ok v
  | Empty | Malformed => Raise JSONDecodeError
  end.

(** The writes a program makes to the file system: [open(path, "w")]
    creates the file or cuts it to length zero, and [json.dump(v, file)]
    followed by the end of the [with] block leaves the document of [v] in
    it. *)
Inductive fs_op : Type :=
  | OpenTrunc (path : string)
  | WriteDoc (path : string) (v : pyval).

Definition fs_step (d : gmap string content) (op : fs_op) : gmap string content :=
  match op with
  | OpenTrunc path => <[path := Empty]> d
  | WriteDoc path v => <[path := Document v]> d
  end.

(** The file system after all of [ops]. *)
Definition fs_run (d : gmap string content) (ops : list fs_op) : gmap string content :=
  foldl fs_step d ops.

(** The file systems another process can see while [ops] run: the one
    after each write. *)
Fixpoint fs_trace (d : gmap string content) (ops : list fs_op) : list (gmap string content) :=
  match ops with
  | [] => []
  | op :: ops' => fs_step d op :: fs_trace (fs_step d op) ops'
  end.

(** [open(path, "r")] *)
Definition open_r (path : string) (d : gmap string content) : result content :=
  match d !! path with
  | Some c => Ok c
  | None => Raise FileNotFoundError
  end.

(** ** class Task *)

Record Task : Type := mkTask {
  name : pyval;
  description : pyval;
  priority : pyval;
  due_date : pyval
}.

Definition to_dict (task : Task) : pyval :=
  PDict (<["due_date" := due_date task]>
        (<["priority" := priority task]>
        (<["description" := description task]>
        (<["name" := name task]> ∅)))).

Definition from_dict (task_dict : pyval) : result Task :=
  let? n := py_getitem task_dict "name" in
  let? d := py_getitem task_dict "description" in
  let? p := py_getitem task_dict "priority" in
  let? dd := py_getitem task_dict "due_date" in
  Ok (mkTask n d p dd).

(** ** class TaskManager *)

Record TaskManager : Type := mkTaskManager {
  json_file : string;
  tasks : list Task
}.

(** The state a method runs in: the object, the file system, and the log of
    the writes made to the file system so far.  ([print] is not modelled.) *)
Record state : Type := mkState {
  self : TaskManager;
  disk : gmap string content;
  writes : list fs_op
}.

(** A method: a result, or a raised exception, and the state it leaves. *)
Definition method (A : Type) : Type := state -> result A * state.

Definition seq {A B} (m : method A) (k : A -> method B) : method B :=
  fun st =>
    match m st with
    | (Ok a, st') => k a st'
    | (Raise e, st') => (Raise e, st')
    end.

Notation "'do' x <- m ; k" := (seq m (fun x => k))
  (at level 10, x name, m at level 100, k at level 200, only parsing) : py_scope.

(** [self.tasks = ts] *)
Definition set_tasks (ts : list Task) : method unit :=
  fun st => (Ok tt, mkState (mkTaskManager (json_file (self st)) ts) (disk st) (writes st)).

Definition load_tasks_from_json : method unit :=
  fun st =>
    let body : result (list Task) :=
      let? file := open_r (json_file (self st)) (disk st) in
      let? task_dicts := json_load file in
      let? items := py_iter task_dicts in
      comprehension from_dict items in
    match body with
    | Ok ts => set_tasks ts st
    | Raise FileNotFoundError => set_tasks [] st
    | Raise JSONDecodeError => set_tasks [] st
    | Raise e => (Raise e, st)
    end.

(** [TaskManager(json_file)], run on a file system [d]: when the result is
    [Raise], the constructor raised and the caller has no store. *)
Definition __init__ (json_file : string) (d : gmap string content) : result unit * state :=
  load_tasks_from_json (mkState (mkTaskManager json_file []) d []).

(** The writes of one [save_tasks_to_json]: the backing file is opened for
    writing under its own name, and the document is written into it. *)
Definition save_ops (self : TaskManager) : list fs_op :=
  let task_dicts := map to_dict (tasks self) in
  [OpenTrunc (json_file self); WriteDoc (json_file self) (PList task_dicts)].

Definition save_tasks_to_json : method unit :=
  fun st =>
    let ops := save_ops (self st) in
    (Ok tt, mkState (self st) (fs_run (disk st) ops) (writes st ++ ops)).

(** [f and f.strip()] as a condition, for a filter [f]: when it holds [f]
    is a string with a character that is not white space, and that string
    is the result; [None] and the falsy values never reach [.strip()]. *)
Definition supplied (f : pyval) : result (option string) :=
  if truthy f then
    let? stripped := py_strip f in
    if truthy (PStr stripped)
    then match f with
         | PStr s => Ok (Some s)
         | _ => Raise AttributeError
         end
    else Ok None
  else Ok None.

Definition get_filtered_tasks (name_filter priority_filter due_date_filter : pyval)
  : method (list Task) :=
  fun st =>
    let body : result (list Task) :=
      let filtered_tasks := tasks (self st) in
      let? nf := supplied name_filter in
      let? filtered_tasks :=
        match nf with
        | Some f =>
            comprehension_if
              (fun task => let? n := py_lower (name task) in Ok (str_contains (lower f) n))
              filtered_tasks
        | None => Ok filtered_tasks
        end in
      let? pf := supplied priority_filter in
      let? filtered_tasks :=
        match pf with
        | Some f =>
            if negb (String.eqb (lower f) "all") then
              comprehension_if
                (fun task => let? p := py_lower (priority task) in Ok (String.eqb p (lower f)))
                filtered_tasks
            else Ok filtered_tasks
        | None => Ok filtered_tasks
        end in
      let? df := supplied due_date_filter in
      let? filtered_tasks :=
        match df with
        | Some f => Ok (List.filter (fun task => py_eq_str (due_date task) f) filtered_tasks)
        | None => Ok filtered_tasks
        end in
      Ok filtered_tasks in
    (body, st).

Definition priority_order : gmap string Z :=
  <["low" := 2]> (<["medium" := 1]> (<["high" := 0]> ∅)).

(** [priority_order.get(task.priority.lower(), 3)] *)
Definition priority_key (task : Task) : result Z :=
  let? p := py_lower (priority task) in
  Ok (default 3 (priority_order !! p)).

Definition sort_tasks (sort_key : string) (reverse : bool) : method (list Task) :=
  fun st =>
    let ts := tasks (self st) in
    let sorted : result (list Task) :=
      if String.eqb sort_key "name" then
        list_sort String.ltb (fun task => py_lower (name task)) reverse ts
      else if String.eqb sort_key "priority" then
        list_sort Z.ltb priority_key reverse ts
      else if String.eqb sort_key "due_date" then
        list_sort date_ltb (fun task => py_strptime (due_date task)) reverse ts
      else Ok ts in
    match sorted with
    | Ok ts' => (Ok ts', mkState (mkTaskManager (json_file (self st)) ts') (disk st) (writes st))
    | Raise e => (Raise e, st)
    end.

Definition add_task (name description priority due_date : pyval) : method Task :=
  fun st =>
    let task := mkTask name description priority due_date in
    (do _ <- set_tasks (tasks (self st) ++ [task]);
     do _ <- save_tasks_to_json;
     fun st' => (Ok task, st')) st.

Definition in_bounds (index : Z) (st : state) : bool :=
  (0 <=? index) && (index <? Z.of_nat (length (tasks (self st)))).

Definition update_task (index : Z) (name description priority due_date : pyval)
  : method bool :=
  fun st =>
    if in_bounds index st then
      (do _ <- set_tasks (<[Z.to_nat index := mkTask name description priority due_date]>
                           (tasks (self st)));
       do _ <- save_tasks_to_json;
       fun st' => (Ok true, st')) st
    else (Ok false, st).

Definition delete_task (index : Z) : method bool :=
  fun st =>
    if in_bounds index st then
      (do _ <- set_tasks (delete (Z.to_nat index) (tasks (self st)));
       do _ <- save_tasks_to_json;
       fun st' => (Ok true, st')) st
    else (Ok false, st).

(** ** TaskManagerGUI.validate_date *)

Definition validate_date_try (date : string) : result bool :=
  if negb (Z.of_nat (String.length date) =? 10) then Ok false else
  let? c4 := str_index date 4 in
  if negb (Ascii.eqb c4 "-") then Ok false else
  let? c7 := str_index date 7 in
  if negb (Ascii.eqb c7 "-") then Ok false else
  let? year := py_int (slice date 0 4) in
  let? month := py_int (slice date 5 7) in
  let? day := py_int (slice date 8 10) in
  if (year <? 1900) || (year >? 2100) then Ok false else
  if (month <? 1) || (month >? 12) then Ok false else
  let days_in_month := [0; 31; 28; 31; 30; 31; 30; 31; 31; 30; 31; 30; 31] in
  let days_in_month :=
    if (year mod 400 =? 0) || (negb (year mod 100 =? 0) && (year mod 4 =? 0))
    then <[2%nat := 29]> days_in_month
    else days_in_month in
  let? last := list_index days_in_month month in
  if (day <? 1) || (day >? last) then Ok false else
  Ok true.

(** The [try] block with its handler [except (ValueError, IndexError)];
    any other exception would leave the method. *)
Definition validate_date (date : string) : result bool :=
  match validate_date_try date with
  | Ok b => Ok b
  | Raise ValueError | Raise IndexError => Ok false
  | Raise e => Raise e
  end.

(** ** The vocabulary of the contract *)

Definition is_str (v : pyval) : Prop :=
  match v with
  | PStr _ => True
  | _ => False
  end.

(** A task of the data model: its four fields are strings. *)
Definition Task_wf (t : Task) : Prop :=
  is_str (name t) /\ is_str (description t) /\ is_str (priority t) /\ is_str (due_date t).

(** The string in a field of a well-formed task. *)
Definition str_of (v : pyval) : string :=
  match v with
  | PStr s => s
  | _ => EmptyString
  end.

(** What a caller passes for a filter: nothing, or a string. *)
Definition filter_arg (f : option string) : pyval :=
  match f with
  | Some s => PStr s
  | None => PNone
  end.

(** A blank string: every character of it is white space. *)
Fixpoint blank (s : string) : Prop :=
  match s with
  | EmptyString => True
  | String c r => isspace c = true /\ blank r
  end.

(** [a] occurs in [b]. *)
Definition is_substring (a b : string) : Prop :=
  exists p q : string, b = (p ++ a ++ q)%string.

Definition name_matches (f : option string) (t : Task) : Prop :=
  match f with
  | None => True
  | Some s => blank s \/ is_substring (lower s) (lower (str_of (name t)))
  end.

Definition priority_matches (f : option string) (t : Task) : Prop :=
  match f with
  | None => True
  | Some s => blank s \/ lower s = "all"%string \/ lower (str_of (priority t)) = lower s
  end.

Definition due_date_matches (f : option string) (t : Task) : Prop :=
  match f with
  | None => True
  | Some s => blank s \/ due_date t = PStr s
  end.

(** The conjunction of the filters that were given. *)
Definition matches (nf pf df : option string) (t : Task) : Prop :=
  name_matches nf t /\ priority_matches pf t /\ due_date_matches df t.

(** The rank of a task in the priority order: high, medium, low, anything
    else, the priority read without regard to case. *)
Definition priority_rank (t : Task) : Z :=
  let p := lower (str_of (priority t)) in
  if String.eqb p "high" then 0
  else if String.eqb p "medium" then 1
  else if String.eqb p "low" then 2
  else 3.

Definition has_rank (r : Z) (t : Task) : bool := priority_rank t =? r.

(** The backing file holds exactly the tasks in memory, in their order. *)
Definition synced (st : state) : Prop :=
  disk st !! json_file (self st) = Some (Document (PList (map to_dict (tasks (self st))))).

(** Readers never see a partly written file: whatever the file system is
    while the writes of a save run, the backing file holds either what it
    held before the save or the whole new document. *)
Definition save_is_atomic (st : state) : Prop :=
  forall d : gmap string content,
    d ∈ fs_trace (disk st) (save_ops (self st)) ->
    d !! json_file (self st) = disk st !! json_file (self st) \/
    d !! json_file (self st) = Some (Document (PList (map to_dict (tasks (self st))))).

(** A date in the form YYYY-MM-DD: four digits, a dash, two digits, a dash,
    two digits, naming a day of the calendar. *)
Definition iso_date (s : string) : Prop :=
  exists y1 y2 y3 y4 m1 m2 d1 d2 : ascii,
    s = String y1 (String y2 (String y3 (String y4 (String "-"
          (String m1 (String m2 (String "-" (String d1 (String d2 EmptyString))))))))) /\
    forallb is_digit [y1; y2; y3; y4; m1; m2; d1; d2] = true /\
    let y := digit_val y1 * 1000 + digit_val y2 * 100 + digit_val y3 * 10 + digit_val y4 in
    let m := digit_val m1 * 10 + digit_val m2 in
    let d := digit_val d1 * 10 + digit_val d2 in
    1 <= y /\ 1 <= m <= 12 /\ 1 <= d <= days_in_month y m.

(** The sort key of a task by due date; [(0, 0, 0)] where there is none. *)
Definition date_key (t : Task) : date :=
  match py_strptime (due_date t) with
  | Ok d => d
  | Raise _ => (0, 0, 0)
  end.

Definition date_le (a b : date) : Prop := date_ltb b a = false.

(** The calendar of the validator's contract. *)
Definition leap_year (y : Z) : Prop :=
  y mod 400 = 0 \/ (y mod 4 = 0 /\ y mod 100 <> 0).

(** The fixed table of twelve entries, February made 29 in a leap year. *)
Definition month_length (y m : Z) : Z :=
  if (m =? 2) && bool_decide (leap_year y) then 29
  else nth (Z.to_nat (m - 1)) [31; 28; 31; 30; 31; 30; 31; 31; 30; 31; 30; 31] 0.

(** The dates the validator is to accept. *)
Definition valid_date (s : string) : Prop :=
  String.length s = 10%nat /\
  String.get 4 s = Some "-"%char /\
  String.get 7 s = Some "-"%char /\
  exists year month day : Z,
    py_int (slice s 0 4) = Ok year /\
    py_int (slice s 5 7) = Ok month /\
    py_int (slice s 8 10) = Ok day /\
    1900 <= year <= 2100 /\
    1 <= month <= 12 /\
    1 <= day <= month_length year month.

(** ** The stable sort: its order and its bookkeeping *)

(** [x] may stand before [y]: the key of [y] is not the smaller one. *)
Definition ordered {K A} (ltb : K -> K -> bool) (x y : K * A) : Prop :=
  ltb (fst y) (fst x) = false.

(** Every item of a decorated list carries its own key. *)
Definition keyed {K A} (key : A -> result K) (dec : list (K * A)) : Prop :=
  Forall (fun p => key (snd p) = Ok (fst p)) dec.

(** The decorated list that [list_sort] ends with. *)
Definition sorted_decorated {K A} (ltb : K -> K -> bool) (reverse : bool)
    (dec : list (K * A)) : list (K * A) :=
  if reverse then rev (stable_sort ltb (rev dec)) else stable_sort ltb dec.

(** The items of a decorated list whose key is [r]. *)
Definition bucket {A} (r : Z) (dec : list (Z * A)) : list (Z * A) :=
  List.filter (fun p => fst p =? r) dec.

(** ** The filters as tests *)

(** The test each filter argument stands for in [get_filtered_tasks]. *)
Definition name_test (f : option string) (t : Task) : bool :=
  match f with
  | Some s =>
      if String.eqb (strip s) EmptyString then true
      else str_contains (lower s) (lower (str_of (name t)))
  | None => true
  end.

Definition priority_test (f : option string) (t : Task) : bool :=
  match f with
  | Some s =>
      if String.eqb (strip s) EmptyString then true
      else if String.eqb (lower s) "all" then true
      else String.eqb (lower (str_of (priority t))) (lower s)
  | None => true
  end.

Definition due_date_test (f : option string) (t : Task) : bool :=
  match f with
  | Some s =>
      if String.eqb (strip s) EmptyString then true
      else py_eq_str (due_date t) s
  | None => true
  end.

(** ** The orders a sort is to produce *)

(** By priority: the tasks of rank 0, then 1, then 2, then 3, each group
    in the order of the input. *)
Definition by_priority (l : list Task) : list Task :=
  List.filter (has_rank 0) l ++ List.filter (has_rank 1) l ++
  List.filter (has_rank 2) l ++ List.filter (has_rank 3) l.

(** The parser rejects the due date of a task. *)
Definition rejected (t : Task) : Prop := exists e, py_strptime (due_date t) = Raise e.

(** A sort by due date raises exactly when some due date is not in the
    form YYYY-MM-DD. *)
Definition raises_iff_not_iso (reverse : bool) (st : state) : Prop :=
  (exists e, (sort_tasks "due_date" reverse st).1 = Raise e) <->
  Exists (fun t => ~ iso_date (str_of (due_date t))) (tasks (self st)).

Definition digits : list ascii :=
  ["0"; "1"; "2"; "3"; "4"; "5"; "6"; "7"; "8"; "9"]%char.

(** ** Example stores *)

Definition example_task : Task :=
  mkTask (PStr "Report") (PStr "Finish Q1 report") (PStr "high") (PStr "2025-04-30").

Definition other_task : Task :=
  mkTask (PStr "Call") (PStr "") (PStr "low") (PStr "2025-03-01").

(** A store of one task over a backing file that holds that task. *)
Definition example_state : state :=
  mkState (mkTaskManager "tasks.json" [example_task])
          {["tasks.json" := Document (PList [to_dict example_task])]}
          [].

(** A store of five tasks of all ranks, not yet saved. *)
Definition mixed_state : state :=
  mkState (mkTaskManager "tasks.json"
             [mkTask (PStr "walk") (PStr "") (PStr "low") (PStr "2025-03-01");
              mkTask (PStr "Taxes") (PStr "") (PStr "HIGH") (PStr "2025-04-15");
              mkTask (PStr "read") (PStr "") (PStr "someday") (PStr "2024-02-29");
              mkTask (PStr "Mail") (PStr "") (PStr "Medium") (PStr "2025-03-01");
              example_task])
          ∅ [].

(** A store whose one task has a due date with a one-digit month and day. *)
Definition short_date_state : state :=
  mkState (mkTaskManager "tasks.json"
             [mkTask (PStr "Dentist") (PStr "") (PStr "low") (PStr "2024-1-5")])
          ∅ [].

(** A store whose due dates are written in the ways the parser takes: a
    month and a day in one digit, both in two, a day in a blank and a
    digit. *)
Definition lenient_state : state :=
  mkState (mkTaskManager "tasks.json"
             [mkTask (PStr "Dentist") (PStr "") (PStr "low") (PStr "2024-1-5");
              mkTask (PStr "Taxes") (PStr "") (PStr "high") (PStr "2023-12-31");
              mkTask (PStr "Mail") (PStr "") (PStr "medium") (PStr "2024-01- 2")])
          ∅ [].

(** ** Fields that are not strings *)

(** A filter that is given: a string with a character that is not white
    space. *)
Definition given (f : option string) : Prop :=
  match f with
  | Some s => ~ blank s
  | None => False
  end.

(** A priority filter that selects: given, and not "all" in any case. *)
Definition selects (f : option string) : Prop :=
  match f with
  | Some s => ~ blank s /\ lower s <> "all"%string
  | None => False
  end.

(** The filters look at a field that is not a string: a name filter is
    given and the name of some task is not a string, or a priority filter
    selects and, among the tasks the name filter lets through, the priority
    of some task is not a string. *)
Definition consults_non_string (nf pf : option string) (l : list Task) : Prop :=
  (given nf /\ Exists (fun t => ~ is_str (name t)) l) \/
  (selects pf /\ Exists (fun t => name_matches nf t /\ ~ is_str (priority t)) l).

(** The filters work as the contract says, at one store. *)
Definition filters_correctly (nf pf df : option string) (st : state) : Prop :=
  exists keep : Task -> bool,
    (forall t, keep t = true <-> matches nf pf df t) /\
    get_filtered_tasks (filter_arg nf) (filter_arg pf) (filter_arg df) st
    = (Ok (List.filter keep (tasks (self st))), st).

(** The ascending sort by priority works as the contract says, at one
    store: it gives the tasks by rank, each rank in the order it had. *)
Definition sorts_by_priority (st : state) : Prop :=
  (sort_tasks "priority" false st).1 = Ok (by_priority (tasks (self st))).

(** A backing file written by another program: its one record has the four
    keys, with a number for the name and null for the priority. *)
Definition foreign_record : pyval :=
  PDict (<["name" := PInt 7]> (<["description" := PStr ""]>
        (<["priority" := PNone]> (<["due_date" := PStr "2025-04-30"]> ∅)))).

Definition foreign_disk : gmap string content :=
  {["tasks.json" := Document (PList [foreign_record])]}.

(** The store the constructor builds on that file. *)
Definition foreign_state : state := (__init__ "tasks.json" foreign_disk).2.

(** ** Dates as the parser of the sort reads them *)

(** [s] writes the number [n] in one decimal digit, in two, in four. *)
Definition one_digit (s : string) (n : Z) : Prop :=
  exists a : ascii, s = String a EmptyString /\ is_digit a = true /\ n = digit_val a.

Definition two_digits (s : string) (n : Z) : Prop :=
  exists a b : ascii,
    s = String a (String b EmptyString) /\
    is_digit a = true /\ is_digit b = true /\
    n = digit_val a * 10 + digit_val b.

Definition four_digits (s : string) (n : Z) : Prop :=
  exists a b c d : ascii,
    s = String a (String b (String c (String d EmptyString))) /\
    is_digit a = true /\ is_digit b = true /\ is_digit c = true /\ is_digit d = true /\
    n = digit_val a * 1000 + digit_val b * 100 + digit_val c * 10 + digit_val d.

(** The text [s] names the day [dt] of the calendar: a year in four digits,
    a dash, a month in two digits or in one, a dash, and a day in two
    digits, in one, or in a blank and one digit; the year is 1 at least,
    and the day is a day of the month. *)
Definition names_date (s : string) (dt : date) : Prop :=
  let '(y, m, d) := dt in
  exists sy sm sd : string,
    s = (sy ++ "-" ++ sm ++ "-" ++ sd)%string /\
    four_digits sy y /\
    (two_digits sm m \/ one_digit sm m) /\
    (two_digits sd d \/ one_digit sd d \/
     exists sd' : string, sd = String " " sd' /\ one_digit sd' d) /\
    1 <= y /\ 1 <= m <= 12 /\ 1 <= d <= month_length y m.

(** The due date of a task is a text that names the day [dt]. *)
Definition due (t : Task) (dt : date) : Prop :=
  exists s : string, due_date t = PStr s /\ names_date s dt.

(** A task the sort by due date can place: its due date names a day. *)
Definition sortable (t : Task) : Prop := exists dt : date, due t dt.

(** The exception a due date that names no day gives: [strptime] takes no
    value but a string, and no string but a date. *)
Definition parse_error (t : Task) : exn :=
  match due_date t with
  | PStr _ => ValueError
  | _ => TypeError
  end.

(** The order of the calendar: by year, then month, then day. *)
Definition calendar_le (a b : date) : Prop :=
  let '(y1, m1, d1) := a in
  let '(y2, m2, d2) := b in
  y1 < y2 \/ (y1 = y2 /\ (m1 < m2 \/ (m1 = m2 /\ d1 <= d2))).

(** Two tasks stand in the order of the days their due dates name,
    backwards with [reverse]. *)
Definition in_calendar_order (reverse : bool) (a b : Task) : Prop :=
  forall da db : date,
    due a da -> due b db ->
    if reverse then calendar_le db da else calendar_le da db.

(** ** More vocabulary: keys of the sorts *)

(** The key [sort_tasks] computes for a task under each sort key. *)
Definition name_key (task : Task) : result string := py_lower (name task).
Definition due_date_key (task : Task) : result date := py_strptime (due_date task).

Definition date_eqb (a b : date) : bool :=
  let '(y1, m1, d1) := a in
  let '(y2, m2, d2) := b in
  (y1 =? y2) && (m1 =? m2) && (d1 =? d2).

(** The task has a key, and it is [k]. *)
Definition has_key {K} (key : Task -> result K) (eqb : K -> K -> bool) (k : K)
    (t : Task) : bool :=
  match key t with
  | Ok k' => eqb k' k
  | Raise _ => false
  end.

(** The descending order by priority: the groups in the opposite order,
    each still in the order of the input. *)
Definition by_priority_descending (l : list Task) : list Task :=
  List.filter (has_rank 3) l ++ List.filter (has_rank 2) l ++
  List.filter (has_rank 1) l ++ List.filter (has_rank 0) l.

(** The order of names without regard to case. *)
Definition name_le (a b : Task) : Prop :=
  String.leb (lower (str_of (name a))) (lower (str_of (name b))) = true.

(** A filter that is not given: absent, or blank. *)
Definition not_given (f : option string) : Prop :=
  match f with
  | None => True
  | Some s => blank s
  end.

(** ** class TaskManagerGUI *)

(** The part of the window that decides what happens to the tasks: the
    texts of the widgets, the rows of the table, the sort state and the
    store.  What the user does arrives as arguments: the texts typed into a
    dialog, the name in the selected row of the table, the answer to a
    question.  Windows and their layout are not modelled; the message
    boxes a method opens are kept in a log. *)
Module GUI.

Inductive message : Type :=
  | showerror (title text : string)
  | showinfo (title text : string).

(** A row of the table: the [values] of one [tree.insert]. *)
Definition row : Type := pyval * pyval * pyval * pyval.

Definition row_of (task : Task) : row :=
  (name task, description task, priority task, due_date task).

Record t : Type := mk {
  name_filter : string;
  priority_filter : string;
  date_filter : string;
  tree : list row;
  sort_column : string;
  sort_reverse : bool;
  task_manager : state;
  shown : list message
}.

Definition set_tree (rows : list row) (g : t) : t :=
  mk (name_filter g) (priority_filter g) (date_filter g) rows
     (sort_column g) (sort_reverse g) (task_manager g) (shown g).

Definition set_task_manager (tm : state) (g : t) : t :=
  mk (name_filter g) (priority_filter g) (date_filter g) (tree g)
     (sort_column g) (sort_reverse g) tm (shown g).

Definition set_sort (column : string) (reverse : bool) (g : t) : t :=
  mk (name_filter g) (priority_filter g) (date_filter g) (tree g)
     column reverse (task_manager g) (shown g).

Definition set_filters (n p d : string) (g : t) : t :=
  mk n p d (tree g) (sort_column g) (sort_reverse g) (task_manager g) (shown g).

(** [messagebox.showerror(...)] and [messagebox.showinfo(...)] *)
Definition show (m : message) (g : t) : t :=
  mk (name_filter g) (priority_filter g) (date_filter g) (tree g)
     (sort_column g) (sort_reverse g) (task_manager g) (shown g ++ [m]).

(** The table is emptied first; an exception of the store leaves it
    empty. *)
Definition populate_tree (g : t) : result unit * t :=
  let g := set_tree [] g in
  match get_filtered_tasks (PStr (name_filter g)) (PStr (priority_filter g))
          (PStr (date_filter g)) (task_manager g) with
  | (Ok filtered_tasks, tm) =>
      (Ok tt, set_tree (map row_of filtered_tasks) (set_task_manager tm g))
  | (Raise e, tm) => (Raise e, set_task_manager tm g)
  end.

Definition apply_filter (g : t) : result unit * t := populate_tree g.

(** The name and date entries are cleared and the priority box is set to
    the first of its values, "All". *)
Definition reset_filters (g : t) : result unit * t :=
  populate_tree (set_filters "" "All" "" g).

Definition sort_tasks (sort_key : string) (g : t) : result unit * t :=
  let g := set_sort sort_key (sort_reverse g) g in
  match sort_tasks sort_key (sort_reverse g) (task_manager g) with
  | (Ok _, tm) => populate_tree (set_task_manager tm g)
  | (Raise e, tm) => (Raise e, set_task_manager tm g)
  end.

Definition on_column_click (column : string) (g : t) : result unit * t :=
  let g :=
    if String.eqb (sort_column g) column
    then set_sort (sort_column g) (negb (sort_reverse g)) g
    else set_sort column false g in
  sort_tasks column g.

(** [TaskManagerGUI(root)] on a file system: the store is built on
    "tasks.json", the widgets are made with empty filters and "All", the
    table is filled, and the sort state is set. *)
Definition __init__ (d : gmap string content) : result t :=
  match __init__ "tasks.json" d with
  | (Raise e, _) => Raise e
  | (Ok _, tm) =>
      match populate_tree (mk "" "All" "" [] "" false tm []) with
      | (Raise e, _) => Raise e
      | (Ok _, g) => Ok (set_sort "name" false g)
      end
  end.

(** The function [add_task] of [add_task_dialog], run by the button Add
    Task on the texts of the four fields of the dialog. *)
Definition add_task (name_entry desc_entry priority_combo date_entry : string) (g : t)
  : result unit * t :=
  let name := strip name_entry in
  let description := strip desc_entry in
  let priority := priority_combo in
  let due_date := strip date_entry in
  if negb (truthy (PStr name)) then
    (Ok tt, show (showerror "Error" "Task name cannot be empty") g)
  else
    match validate_date due_date with
    | Raise e => (Raise e, g)
    | Ok false => (Ok tt, show (showerror "Error" "Invalid date format. Use YYYY-MM-DD") g)
    | Ok true =>
        match add_task (PStr name) (PStr description) (PStr (lower priority)) (PStr due_date)
                (task_manager g) with
        | (Ok _, tm) => populate_tree (set_task_manager tm g)
        | (Raise e, tm) => (Raise e, set_task_manager tm g)
        end
    end.

(** The loop of [edit_task_dialog] and of [delete_task] that looks for the
    task of the selected row by its name: the index of the first task
    whose name equals [item_name], counted from [i]; [-1] when there is
    none. *)
Fixpoint task_index_from (i : Z) (item_name : string) (tasks : list Task) : Z :=
  match tasks with
  | [] => -1
  | task :: tasks' =>
      if py_eq_str (name task) item_name then i
      else task_index_from (i + 1) item_name tasks'
  end.

Definition task_index_of (item_name : string) (tasks : list Task) : Z :=
  task_index_from 0 item_name tasks.

(** [edit_task_dialog] up to the opening of the dialog; [selected] is the
    name in the selected row, if a row is selected.  The result is the
    index the dialog is opened for, if it is opened. *)
Definition edit_task_dialog (selected : option string) (g : t) : result (option Z) * t :=
  match selected with
  | None => (Ok None, show (showinfo "Selection Required" "Please select a task to edit") g)
  | Some item_name =>
      let task_index := task_index_of item_name (tasks (self (task_manager g))) in
      if task_index =? -1 then (Ok None, show (showerror "Error" "Task not found") g)
      else (Ok (Some task_index), g)
  end.

(** The function [update_task] of [edit_task_dialog], run by the button
    Update Task for the index the dialog was opened with. *)
Definition update_task (task_index : Z)
    (name_entry desc_entry priority_combo date_entry : string) (g : t) : result unit * t :=
  let name := strip name_entry in
  let description := strip desc_entry in
  let priority := priority_combo in
  let due_date := strip date_entry in
  if negb (truthy (PStr name)) then
    (Ok tt, show (showerror "Error" "Task name cannot be empty") g)
  else
    match validate_date due_date with
    | Raise e => (Raise e, g)
    | Ok false => (Ok tt, show (showerror "Error" "Invalid date format. Use YYYY-MM-DD") g)
    | Ok true =>
        match update_task task_index (PStr name) (PStr description) (PStr (lower priority))
                (PStr due_date) (task_manager g) with
        | (Ok success, tm) =>
            if success then populate_tree (set_task_manager tm g)
            else (Ok tt, show (showerror "Error" "Failed to update task") (set_task_manager tm g))
        | (Raise e, tm) => (Raise e, set_task_manager tm g)
        end
    end.

(** [selected] is the name in the selected row, if a row is selected;
    [confirm] is the answer to the question "Are you sure ...". *)
Definition delete_task (selected : option string) (confirm : bool) (g : t)
  : result unit * t :=
  match selected with
  | None => (Ok tt, show (showinfo "Selection Required" "Please select a task to delete") g)
  | Some item_name =>
      let task_index := task_index_of item_name (tasks (self (task_manager g))) in
      if task_index =? -1 then (Ok tt, show (showerror "Error" "Task not found") g)
      else if confirm then
        match delete_task task_index (task_manager g) with
        | (Ok success, tm) =>
            if success then populate_tree (set_task_manager tm g)
            else (Ok tt, show (showerror "Error" "Failed to delete task") (set_task_manager tm g))
        | (Raise e, tm) => (Raise e, set_task_manager tm g)
        end
      else (Ok tt, g)
  end.

End GUI.

(** A task as the dialogs of the window let it into the store: four
    strings, a name that is not empty, and a due date the validator
    accepts. *)
Definition entered (t : Task) : Prop :=
  Task_wf t /\ str_of (name t) <> EmptyString /\
  validate_date (str_of (due_date t)) = Ok true.

(** A second task with the name of [example_task]. *)
Definition twin_task : Task :=
  mkTask (PStr "Report") (PStr "Second report") (PStr "low") (PStr "2025-05-31").

(** A window over a store of three tasks, two of them with one name. *)
Definition example_window : GUI.t :=
  GUI.mk "" "All" "" [] "name" false
    (mkState (mkTaskManager "tasks.json" [other_task; example_task; twin_task]) ∅ [])
    [].

(** * Properties *)

(** ** Results and comprehensions *)

Lemma comprehension_map {A B} (f : A -> result B) (g : B -> A) (l : list B) :
  (forall x, f (g x) = Ok x) -> comprehension f (map g l) = Ok l.
Proof.
  intros Hfg. induction l as [|x l IH]; simpl; [done|].
  by rewrite Hfg, IH.
Qed.

Lemma comprehension_pure {A B} (f : A -> result B) (g : A -> B) (l : list A) :
  Forall (fun x => f x = Ok (g x)) l -> comprehension f l = Ok (map g l).
Proof.
  induction 1 as [|x l Hx _ IH]; simpl; [done|].
  by rewrite Hx, IH.
Qed.

Lemma comprehension_if_pure {A} (p : A -> result bool) (b : A -> bool) (l : list A) :
  Forall (fun x => p x = Ok (b x)) l -> comprehension_if p l = Ok (List.filter b l).
Proof.
  induction 1 as [|x l Hx _ IH]; simpl; [done|].
  by rewrite Hx, IH.
Qed.

Lemma comprehension_raises {A B} (f : A -> result B) (l : list A) :
  (exists e, comprehension f l = Raise e) <-> Exists (fun x => exists e, f x = Raise e) l.
Proof.
  induction l as [|x l IH]; simpl.
  - split; [by intros [e ?]|by intros ?%Exists_nil].
  - rewrite Exists_cons, <- IH. destruct (f x) as [y|e]; simpl.
    + destruct (comprehension f l) as [ys|e]; simpl.
      * split; [by intros [e ?]|]. intros [[e ?]|[e ?]]; done.
      * split; [intros _; right; by exists e|intros _; by exists e].
    + split; [intros _; left; by exists e|intros _; by exists e].
Qed.

Lemma comprehension_raised_by {A B} (f : A -> result B) (l : list A) (e : exn) :
  comprehension f l = Raise e -> exists x, x ∈ l /\ f x = Raise e.
Proof.
  induction l as [|x l IH]; simpl; [done|].
  destruct (f x) as [y|e'] eqn:Hx; simpl.
  - destruct (comprehension f l) as [ys|e'']; simpl; [done|].
    intros [= ->]. destruct (IH eq_refl) as (x' & Hin & Hx').
    exists x'. split; [by right|done].
  - intros [= ->]. exists x. split; [by left|done].
Qed.

(** ** Task: the dictionary form *)

Lemma from_dict_to_dict (t : Task) : from_dict (to_dict t) = Ok t.
Proof.
  destruct t as [n d p dd]. unfold from_dict, to_dict, py_getitem; simpl.
  by simplify_map_eq.
Qed.

(** ** Load *)

Lemma load_absent_file (st : state) :
  disk st !! json_file (self st) = None ->
  load_tasks_from_json st
  = (Ok tt, mkState (mkTaskManager (json_file (self st)) []) (disk st) (writes st)).
Proof.
  intros H. unfold load_tasks_from_json, open_r. by rewrite H.
Qed.

Lemma load_undecodable (st : state) (c : content) :
  disk st !! json_file (self st) = Some c ->
  json_load c = Raise JSONDecodeError ->
  load_tasks_from_json st
  = (Ok tt, mkState (mkTaskManager (json_file (self st)) []) (disk st) (writes st)).
Proof.
  intros H Hc. unfold load_tasks_from_json, open_r. rewrite H; simpl. by rewrite Hc.
Qed.

Lemma load_well_formed (st : state) (ts : list Task) :
  disk st !! json_file (self st) = Some (Document (PList (map to_dict ts))) ->
  load_tasks_from_json st
  = (Ok tt, mkState (mkTaskManager (json_file (self st)) ts) (disk st) (writes st)).
Proof.
  intros H. unfold load_tasks_from_json, open_r. rewrite H; simpl.
  by rewrite (comprehension_map from_dict to_dict ts from_dict_to_dict).
Qed.

(** ** Save *)

Lemma save_disk (st : state) :
  disk (save_tasks_to_json st).2
  = <[json_file (self st) := Document (PList (map to_dict (tasks (self st))))]> (disk st).
Proof.
  unfold save_tasks_to_json, save_ops, fs_run; simpl.
  by rewrite insert_insert_eq.
Qed.

Lemma save_synced (st : state) : synced (save_tasks_to_json st).2.
Proof.
  unfold synced. rewrite save_disk. simpl. by rewrite lookup_insert_eq.
Qed.

(** C1 (defect in the code).  A backing file that holds a JSON document
    which is no sequence of four-key records makes the constructor raise:
    with the one record [{"name": "x"}] in the file, [Task.from_dict] raises
    [KeyError('description')], [load_tasks_from_json] has no handler for
    it, and it leaves [TaskManager(...)]; the store is not left empty, it is
    never built. *)
Theorem load_raises_on_missing_key :
  (__init__ "tasks.json" {["tasks.json" := Document (PList [PDict {["name" := PStr "x"]}])]}).1
  = Raise (KeyError "description").
Proof. vm_compute. reflexivity. Qed.

(** The same happens for a document that is not a sequence at all. *)
Lemma load_raises_on_scalar :
  (__init__ "tasks.json" {["tasks.json" := Document (PInt 5)]}).1 = Raise TypeError.
Proof. vm_compute. reflexivity. Qed.

(** The states the handlers of [load_tasks_from_json] do cover. *)
Lemma init_fails_open (path : string) (d : gmap string content) :
  d !! path = None \/ d !! path = Some Empty \/ d !! path = Some Malformed ->
  __init__ path d = (Ok tt, mkState (mkTaskManager path []) d []).
Proof.
  intros [H|[H|H]]; unfold __init__.
  - by rewrite load_absent_file.
  - by erewrite load_undecodable.
  - by erewrite load_undecodable.
Qed.

Lemma init_loads_in_order (path : string) (d : gmap string content) (ts : list Task) :
  d !! path = Some (Document (PList (map to_dict ts))) ->
  __init__ path d = (Ok tt, mkState (mkTaskManager path ts) d []).
Proof. intros H. unfold __init__. by rewrite (load_well_formed _ ts). Qed.

(** C2, refuted as stated.  A save of the example store passes through a
    file system in which the backing file is empty: neither what it held
    before nor the new document. *)
Lemma save_not_atomic : ~ save_is_atomic example_state.
Proof.
  intros H.
  destruct (H (<["tasks.json" := Empty]> (disk example_state))) as [E|E].
  - simpl. left.
  - vm_compute in E. discriminate.
  - vm_compute in E. discriminate.
Qed.

(** C2 (as amended).  A save writes to the backing file under its own name
    and in two steps: opening it for writing leaves it empty, then the
    document of the whole task sequence is written into it.  Between the
    two a reader sees the empty file; after the save the file holds the
    document, the other files are as before, and the store is unchanged. *)
Theorem save_overwrites_in_place (st : state) :
  let path := json_file (self st) in
  let doc := PList (map to_dict (tasks (self st))) in
  save_ops (self st) = [OpenTrunc path; WriteDoc path doc] /\
  fs_trace (disk st) (save_ops (self st))
  = [<[path := Empty]> (disk st); <[path := Document doc]> (disk st)] /\
  (save_tasks_to_json st).1 = Ok tt /\
  self (save_tasks_to_json st).2 = self st /\
  disk (save_tasks_to_json st).2 = <[path := Document doc]> (disk st) /\
  writes (save_tasks_to_json st).2 = writes st ++ save_ops (self st).
Proof.
  simpl. repeat split; try done.
  - unfold save_ops; simpl. by rewrite insert_insert_eq.
  - apply save_disk.
Qed.

(** ** Update and delete *)

(** C6.  With an index outside [0, length) (negative, or the length or
    more) [update_task] and [delete_task] return [False] without raising
    and leave the tasks, the file system and the log of writes as they
    were.  With an index inside they return [True], replace (remove)
    exactly the task at that index, and save at once: the backing file
    holds the new sequence. *)
Theorem update_delete_bounds (st : state) (index : Z) (n d p dd : pyval) :
  let len := Z.of_nat (length (tasks (self st))) in
  (index < 0 \/ len <= index ->
     update_task index n d p dd st = (Ok false, st) /\
     delete_task index st = (Ok false, st)) /\
  (0 <= index < len ->
     (exists st', update_task index n d p dd st = (Ok true, st') /\
        tasks (self st') = <[Z.to_nat index := mkTask n d p dd]> (tasks (self st)) /\
        tasks (self st') !! Z.to_nat index = Some (mkTask n d p dd) /\
        (forall j, j <> Z.to_nat index -> tasks (self st') !! j = tasks (self st) !! j) /\
        length (tasks (self st')) = length (tasks (self st)) /\
        synced st' /\ writes st' = writes st ++ save_ops (self st')) /\
     (exists st', delete_task index st = (Ok true, st') /\
        tasks (self st') = delete (Z.to_nat index) (tasks (self st)) /\
        tasks (self st')
        = take (Z.to_nat index) (tasks (self st)) ++ drop (S (Z.to_nat index)) (tasks (self st)) /\
        S (length (tasks (self st'))) = length (tasks (self st)) /\
        synced st' /\ writes st' = writes st ++ save_ops (self st'))).
Proof.
  intros len. subst len. split.
  - intros Hout. unfold update_task, delete_task.
    assert (in_bounds index st = false) as ->; [|done].
    apply andb_false_iff. destruct Hout; [left|right]; lia.
  - intros Hin. unfold update_task, delete_task.
    assert (in_bounds index st = true) as ->.
    { apply andb_true_iff. split; lia. }
    assert (Z.to_nat index < length (tasks (self st)))%nat as Hlt by lia.
    split.
    + eexists. split; [reflexivity|]. simpl.
      split_and!; try done.
      * by apply list_lookup_insert_eq.
      * intros j Hj. by apply list_lookup_insert_ne.
      * apply length_insert.
      * unfold synced; simpl. by rewrite lookup_insert_eq.
    + eexists. split; [reflexivity|]. simpl.
      split_and!; try done.
      * apply delete_take_drop.
      * rewrite length_delete; [lia|]. by apply lookup_lt_is_Some_2.
      * unfold synced; simpl. by rewrite lookup_insert_eq.
Qed.

(** C6 at the example store: the indices -1 and 1 (the length) fail and
    change nothing; the index 0 succeeds and leaves the store empty. *)
Lemma update_delete_bounds_witness :
  (update_task (-1) (PStr "a") (PStr "") (PStr "low") (PStr "2025-01-01") example_state
   = (Ok false, example_state) /\
   delete_task (-1) example_state = (Ok false, example_state)) /\
  (update_task 1 (PStr "a") (PStr "") (PStr "low") (PStr "2025-01-01") example_state
   = (Ok false, example_state) /\
   delete_task 1 example_state = (Ok false, example_state)) /\
  (exists st', delete_task 0 example_state = (Ok true, st') /\ tasks (self st') = []).
Proof.
  pose proof (update_delete_bounds example_state (-1)
                (PStr "a") (PStr "") (PStr "low") (PStr "2025-01-01")) as Hneg.
  pose proof (update_delete_bounds example_state 1
                (PStr "a") (PStr "") (PStr "low") (PStr "2025-01-01")) as Hlen.
  pose proof (update_delete_bounds example_state 0
                (PStr "a") (PStr "") (PStr "low") (PStr "2025-01-01")) as Hin.
  simpl in Hneg, Hlen, Hin.
  split; [apply Hneg; left; lia|].
  split; [apply Hlen; right; lia|].
  destruct Hin as [_ Hin]. destruct Hin as [_ (st' & Hd & Ht & _)]; [lia|].
  exists st'. split; [exact Hd|exact Ht].
Defined.

(** ** Round trip *)

(** C7.  For tasks whose four fields are strings, a save followed by a load
    gives back the same tasks in the same order: a store built anew on the
    file system the save leaves, and a reload in the saving store, both
    hold the sequence that was saved. *)
Theorem save_load_round_trip (st : state) :
  Forall Task_wf (tasks (self st)) ->
  let st1 := (save_tasks_to_json st).2 in
  (save_tasks_to_json st).1 = Ok tt /\
  __init__ (json_file (self st)) (disk st1)
  = (Ok tt, mkState (mkTaskManager (json_file (self st)) (tasks (self st))) (disk st1) []) /\
  (forall ts, (load_tasks_from_json
                 (mkState (mkTaskManager (json_file (self st)) ts) (disk st1) (writes st1))).2
              = st1).
Proof.
  intros _ st1. split; [done|]. split.
  - apply init_loads_in_order. apply save_synced.
  - intros ts. rewrite (load_well_formed _ (tasks (self st))).
    + simpl. by destruct st as [[f l] dk w].
    + apply (save_synced st).
Qed.

(** C7 at the example store. *)
Lemma save_load_round_trip_witness :
  (load_tasks_from_json
     (mkState (mkTaskManager "tasks.json" [])
              (disk (save_tasks_to_json example_state).2)
              (writes (save_tasks_to_json example_state).2))).2
  = (save_tasks_to_json example_state).2.
Proof.
  refine (proj2 (proj2 (save_load_round_trip example_state _)) []).
  repeat constructor.
Defined.

(** ** What writes the backing file *)

Lemma sort_tasks_frame (sort_key : string) (reverse : bool) (st : state) :
  disk (sort_tasks sort_key reverse st).2 = disk st /\
  writes (sort_tasks sort_key reverse st).2 = writes st /\
  json_file (self (sort_tasks sort_key reverse st).2) = json_file (self st).
Proof.
  unfold sort_tasks.
  by destruct (if String.eqb sort_key "name" then _ else _).
Qed.

(** C10.  [sort_tasks] reorders the tasks in memory only: for every key and
    direction the file system and the log of writes are as before.  Nor do
    [get_filtered_tasks] and [load_tasks_from_json] write.  [add_task]
    always saves, [update_task] and [delete_task] save when the index is in
    bounds, and a save leaves the file equal to the memory.  So a sort can
    leave the order in the file different from the order in memory, until
    the next add, update or delete: the last part shows it on a store of
    two tasks. *)
Theorem sort_never_persists :
  (forall sort_key reverse st,
     disk (sort_tasks sort_key reverse st).2 = disk st /\
     writes (sort_tasks sort_key reverse st).2 = writes st) /\
  (forall nf pf df st, (get_filtered_tasks nf pf df st).2 = st) /\
  (forall st,
     disk (load_tasks_from_json st).2 = disk st /\
     writes (load_tasks_from_json st).2 = writes st) /\
  (forall n d p dd st,
     let st' := (add_task n d p dd st).2 in
     writes st' = writes st ++ save_ops (self st') /\ synced st') /\
  (forall index n d p dd st,
     let st' := (update_task index n d p dd st).2 in
     if in_bounds index st
     then writes st' = writes st ++ save_ops (self st') /\ synced st'
     else st' = st) /\
  (forall index st,
     let st' := (delete_task index st).2 in
     if in_bounds index st
     then writes st' = writes st ++ save_ops (self st') /\ synced st'
     else st' = st) /\
  (let st0 := (add_task (PStr "Call") (PStr "") (PStr "low") (PStr "2025-03-01")
                 example_state).2 in
   let st1 := (sort_tasks "name" false st0).2 in
   let st2 := (delete_task 1 st1).2 in
   synced st0 /\
   tasks (self st1) = [other_task; example_task] /\
   disk st1 !! "tasks.json" = Some (Document (PList [to_dict example_task; to_dict other_task])) /\
   ~ synced st1 /\
   synced st2).
Proof.
  split_and!.
  - intros. split; apply sort_tasks_frame.
  - done.
  - intros st. unfold load_tasks_from_json.
    by destruct (rbind _ _) as [?|[]].
  - intros n d p dd st. cbv zeta. split; [done|].
    unfold synced; simpl. by rewrite lookup_insert_eq.
  - intros index n d p dd st. cbv zeta. unfold update_task.
    destruct (in_bounds index st); [|done].
    split; [done|]. unfold synced; simpl. by rewrite lookup_insert_eq.
  - intros index st. cbv zeta. unfold delete_task.
    destruct (in_bounds index st); [|done].
    split; [done|]. unfold synced; simpl. by rewrite lookup_insert_eq.
  - split_and!.
    + vm_compute. reflexivity.
    + vm_compute. reflexivity.
    + vm_compute. reflexivity.
    + intros H. vm_compute in H. discriminate.
    + vm_compute. reflexivity.
Qed.

(** ** Strings: white space and substrings *)

Lemma lstrip_blank (s : string) : lstrip s = EmptyString <-> blank s.
Proof.
  induction s as [|c r IH]; simpl; [done|].
  destruct (isspace c); [|split; [done|by intros [? _]]].
  rewrite IH. tauto.
Qed.

Lemma lstrip_head (s : string) :
  match lstrip s with
  | EmptyString => True
  | String c _ => isspace c = false
  end.
Proof.
  induction s as [|c r IH]; simpl; [done|].
  by destruct (isspace c) eqn:E; [|rewrite E].
Qed.

Lemma rstrip_head (c : ascii) (r : string) :
  isspace c = false -> rstrip (String c r) <> EmptyString.
Proof. intros H. simpl. destruct (rstrip r); [by rewrite H|done]. Qed.

Lemma strip_blank (s : string) : strip s = EmptyString <-> blank s.
Proof.
  rewrite <- lstrip_blank. unfold strip.
  pose proof (lstrip_head s) as Hh.
  destruct (lstrip s) as [|c r]; [done|].
  split; [|done]. intros H. by apply rstrip_head in H.
Qed.

Lemma append_cons (c : ascii) (p q : string) :
  (String c p ++ q)%string = String c (p ++ q)%string.
Proof. reflexivity. Qed.

Lemma startswith_spec (s p : string) :
  startswith s p = true <-> exists q, s = (p ++ q)%string.
Proof.
  revert s. induction p as [|a p IH]; intros s; simpl.
  - split; [intros _; by exists s|done].
  - destruct s as [|b s]; simpl.
    + split; [done|by intros [q ?]].
    + destruct (Ascii.eqb_spec a b) as [->|Hne].
      * rewrite IH. split; intros [q Hq]; exists q; rewrite append_cons in *; congruence.
      * split; [done|]. intros [q Hq]. rewrite append_cons in Hq. congruence.
Qed.

Lemma str_contains_spec (a b : string) :
  str_contains a b = true <-> is_substring a b.
Proof.
  unfold is_substring. induction b as [|c b IH].
  - simpl. rewrite orb_false_r, startswith_spec. split.
    + intros [q Hq]. by exists EmptyString, q.
    + intros (p & q & H). destruct p; [by exists q|done].
  - cbn [str_contains]. rewrite orb_true_iff, IH, startswith_spec. split.
    + intros [[q Hq]|(p & q & Hq)].
      * by exists EmptyString, q.
      * exists (String c p), q. rewrite append_cons. by rewrite Hq.
    + intros (p & q & H). destruct p as [|c' p].
      * left. by exists q.
      * right. exists p, q. rewrite append_cons in H. congruence.
Qed.

(** ** Filtering *)

Lemma filter_all {A} (l : list A) : List.filter (fun _ => true) l = l.
Proof. induction l; simpl; congruence. Qed.

Lemma filter_filter {A} (b c : A -> bool) (l : list A) :
  List.filter c (List.filter b l) = List.filter (fun x => b x && c x) l.
Proof.
  induction l as [|x l IH]; simpl; [done|].
  destruct (b x); simpl; [|done]. destruct (c x); congruence.
Qed.

Lemma Forall_filter {A} (P : A -> Prop) (b : A -> bool) (l : list A) :
  Forall P l -> Forall P (List.filter b l).
Proof.
  induction 1 as [|x l Hx _ IH]; simpl; [constructor|].
  destruct (b x); [by constructor|done].
Qed.

Lemma supplied_filter_arg (f : option string) :
  supplied (filter_arg f)
  = Ok (match f with
        | Some s => if String.eqb (strip s) EmptyString then None else Some s
        | None => None
        end).
Proof.
  destruct f as [s|]; [|done]. unfold supplied; simpl.
  destruct s as [|c r]; [done|]. simpl negb. cbv iota.
  by destruct (String.eqb (strip (String c r)) EmptyString).
Qed.

Lemma py_lower_wf (v : pyval) : is_str v -> py_lower v = Ok (lower (str_of v)).
Proof. by destruct v. Qed.

Lemma strip_eqb_blank (s : string) :
  String.eqb (strip s) EmptyString = true <-> blank s.
Proof. by rewrite String.eqb_eq, strip_blank. Qed.

Lemma name_test_spec f t : name_test f t = true <-> name_matches f t.
Proof.
  destruct f as [s|]; simpl; [|done].
  pose proof (strip_eqb_blank s) as Hb.
  destruct (String.eqb (strip s) EmptyString).
  - split; [left; by apply Hb|done].
  - rewrite str_contains_spec. split; [by right|].
    intros [H|H]; [|done]. by apply Hb in H.
Qed.

Lemma priority_test_spec f t : priority_test f t = true <-> priority_matches f t.
Proof.
  destruct f as [s|]; simpl; [|done].
  pose proof (strip_eqb_blank s) as Hb.
  destruct (String.eqb (strip s) EmptyString).
  - split; [left; by apply Hb|done].
  - destruct (String.eqb_spec (lower s) "all") as [E|E].
    + split; [by right; left|done].
    + rewrite String.eqb_eq. split; [by right; right|].
      intros [H|[H|H]]; [by apply Hb in H|done..].
Qed.

Lemma due_date_test_spec f t : due_date_test f t = true <-> due_date_matches f t.
Proof.
  destruct f as [s|]; simpl; [|done].
  pose proof (strip_eqb_blank s) as Hb.
  destruct (String.eqb (strip s) EmptyString).
  - split; [left; by apply Hb|done].
  - unfold py_eq_str. split.
    + destruct (due_date t); try done. rewrite String.eqb_eq. intros ->. by right.
    + intros [H|H]; [by apply Hb in H|]. rewrite H. apply String.eqb_refl.
Qed.

(** A comprehension whose condition lowers a field: it filters when the
    field is a string in every item, and raises otherwise. *)
Lemma comprehension_if_lower (f : Task -> pyval) (test : string -> bool) (l : list Task) :
  (Forall (fun t => is_str (f t)) l /\
   comprehension_if (fun task => let? n := py_lower (f task) in Ok (test n)) l
   = Ok (List.filter (fun t => test (lower (str_of (f t)))) l)) \/
  (Exists (fun t => ~ is_str (f t)) l /\
   comprehension_if (fun task => let? n := py_lower (f task) in Ok (test n)) l
   = Raise AttributeError).
Proof.
  set (p := fun task => let? n := py_lower (f task) in Ok (test n)).
  induction l as [|x l IH]; [left; by split|].
  cbn [comprehension_if List.filter].
  destruct (f x) as [| | | |s| |] eqn:Hx;
    try (right; split; [left; rewrite Hx; exact id|unfold p; rewrite Hx; reflexivity]).
  assert (p x = Ok (test (lower s))) as -> by (unfold p; by rewrite Hx).
  cbn [rbind str_of].
  destruct IH as [[Hl ->]|[Hl ->]].
  - left. split; [constructor; [by rewrite Hx|done]|]. cbn [rbind].
    by destruct (test (lower s)).
  - right. split; [by right|done].
Qed.

Lemma Exists_filter {A} (P : A -> Prop) (b : A -> bool) (l : list A) :
  Exists P (List.filter b l) <-> Exists (fun x => b x = true /\ P x) l.
Proof.
  induction l as [|x l IH]; simpl.
  - split; intros H; by apply Exists_nil in H.
  - destruct (b x) eqn:Hb; rewrite ?Exists_cons, IH, ?Exists_cons; [tauto|].
    split; [tauto|]. intros [[? _]|?]; [congruence|done].
Qed.

Lemma Forall_not_Exists {A} (P : A -> Prop) (l : list A) :
  Forall P l -> ~ Exists (fun x => ~ P x) l.
Proof.
  intros HF (x & Hx & Hn)%Exists_exists. rewrite Forall_forall in HF. by apply Hn, HF.
Qed.

(** The name filter of [get_filtered_tasks]. *)
Lemma name_filter_cases (nf : option string) (l : list Task) :
  let stage :=
    match (match nf with
           | Some s => if String.eqb (strip s) EmptyString then None else Some s
           | None => None end) with
    | Some f =>
        comprehension_if
          (fun task => let? n := py_lower (name task) in Ok (str_contains (lower f) n)) l
    | None => Ok l
    end in
  (given nf /\ Exists (fun t => ~ is_str (name t)) l /\ stage = Raise AttributeError) \/
  (~ (given nf /\ Exists (fun t => ~ is_str (name t)) l) /\
   stage = Ok (List.filter (name_test nf) l)).
Proof.
  unfold name_test. destruct nf as [s|]; simpl.
  - pose proof (strip_eqb_blank s) as Hb.
    destruct (String.eqb (strip s) EmptyString).
    + right. split; [|exact (eq_sym (f_equal Ok (filter_all l)))].
      intros [Hg _]. by apply Hg, Hb.
    + destruct (comprehension_if_lower name (str_contains (lower s)) l) as [[Hl ->]|[Hl ->]].
      * right. split; [|done]. intros [_ Hex]. by apply (Forall_not_Exists _ _ Hl).
      * left. split; [intros H; by apply Hb in H|by split].
  - right. split; [by intros [[] _]|exact (eq_sym (f_equal Ok (filter_all l)))].
Qed.

(** The priority filter of [get_filtered_tasks]. *)
Lemma priority_filter_cases (pf : option string) (l : list Task) :
  let stage :=
    match (match pf with
           | Some s => if String.eqb (strip s) EmptyString then None else Some s
           | None => None end) with
    | Some f =>
        if negb (String.eqb (lower f) "all") then
          comprehension_if
            (fun task => let? p := py_lower (priority task) in Ok (String.eqb p (lower f))) l
        else Ok l
    | None => Ok l
    end in
  (selects pf /\ Exists (fun t => ~ is_str (priority t)) l /\ stage = Raise AttributeError) \/
  (~ (selects pf /\ Exists (fun t => ~ is_str (priority t)) l) /\
   stage = Ok (List.filter (priority_test pf) l)).
Proof.
  unfold priority_test. destruct pf as [s|]; simpl.
  - pose proof (strip_eqb_blank s) as Hb.
    destruct (String.eqb (strip s) EmptyString).
    + right. split; [|exact (eq_sym (f_equal Ok (filter_all l)))].
      intros [[Hg _] _]. by apply Hg, Hb.
    + destruct (String.eqb_spec (lower s) "all") as [E|E]; simpl.
      * right. split; [|exact (eq_sym (f_equal Ok (filter_all l)))].
        by intros [[_ Hs] _].
      * destruct (comprehension_if_lower priority (fun p => String.eqb p (lower s)) l)
          as [[Hl ->]|[Hl ->]].
        -- right. split; [|done]. intros [_ Hex]. by apply (Forall_not_Exists _ _ Hl).
        -- left. split; [split; [intros H; by apply Hb in H|done]|by split].
  - right. split; [by intros [[] _]|exact (eq_sym (f_equal Ok (filter_all l)))].
Qed.

(** C3 (as amended).  For every store and every choice of the three filters
    (each absent or a string), [get_filtered_tasks] leaves the store as it
    was, and it either raises [AttributeError] or returns.  It raises
    exactly when the filters look at a field that is not a string: a name
    filter is given and some name is not a string, or a priority filter
    other than "all" is given and some task that the name filter lets
    through has a priority that is not a string.  Otherwise, and so
    whenever the tasks are tasks of the data model, it returns the tasks
    that satisfy all the filters given, in the order of the store and as
    often as they occur in it.  A name filter holds when its lower case
    occurs in the lower case of the name; a priority filter when the lower
    cases are equal or the filter is "all" in any case; a due-date filter
    when the strings are equal; an absent or blank filter always holds. *)
Theorem get_filtered_tasks_correct (nf pf df : option string) (st : state) :
  let l := tasks (self st) in
  let r := get_filtered_tasks (filter_arg nf) (filter_arg pf) (filter_arg df) st in
  r.2 = st /\
  (consults_non_string nf pf l /\ r.1 = Raise AttributeError
   \/
   ~ consults_non_string nf pf l /\
   exists keep : Task -> bool,
     (forall t, keep t = true <-> matches nf pf df t) /\
     r.1 = Ok (List.filter keep l)) /\
  (Forall Task_wf l -> filters_correctly nf pf df st).
Proof.
  intros l r.
  assert (r.2 = st) as Hst by done.
  assert (forall keep : Task -> bool, r.1 = Ok (List.filter keep l) ->
            r = (Ok (List.filter keep l), st)) as Hpair.
  { intros keep H. destruct r as [r1 r2]. simpl in *. congruence. }
  assert (consults_non_string nf pf l /\ r.1 = Raise AttributeError \/
          ~ consults_non_string nf pf l /\
          r.1 = Ok (List.filter
                      (fun t => name_test nf t && priority_test pf t && due_date_test df t) l))
    as Hcases.
  { subst r. unfold get_filtered_tasks. cbn [fst].
    rewrite !supplied_filter_arg. cbn [rbind]. fold l.
    destruct (name_filter_cases nf l) as [(Hg & Hex & ->)|(Hn & ->)].
    { left. split; [by left|done]. }
    cbn [rbind].
    destruct (priority_filter_cases pf (List.filter (name_test nf) l))
      as [(Hg & Hex & ->)|(Hp & ->)].
    { left. split; [|done]. right. split; [done|].
      apply Exists_filter in Hex. eapply Exists_impl; [exact Hex|].
      intros t [Ht Hs]. split; [by apply name_test_spec|done]. }
    cbn [rbind].
    assert (match (match df with
                   | Some s => if String.eqb (strip s) EmptyString then None else Some s
                   | None => None end) with
            | Some f => Ok (List.filter (fun task => py_eq_str (due_date task) f)
                              (List.filter (priority_test pf) (List.filter (name_test nf) l)))
            | None => Ok (List.filter (priority_test pf) (List.filter (name_test nf) l))
            end = Ok (List.filter (due_date_test df)
                        (List.filter (priority_test pf) (List.filter (name_test nf) l)))) as ->.
    { unfold due_date_test.
      destruct df as [s|]; [|exact (eq_sym (f_equal Ok (filter_all _)))].
      destruct (String.eqb (strip s) EmptyString);
        [exact (eq_sym (f_equal Ok (filter_all _)))|done]. }
    cbn [rbind]. right. split.
    - intros [[Hg Hex]|[Hg Hex]]; [by apply Hn|]. apply Hp. split; [done|].
      apply Exists_filter. eapply Exists_impl; [exact Hex|].
      intros t [Ht Hs]. split; [by apply name_test_spec|done].
    - by rewrite (filter_filter (name_test nf) (priority_test pf)), filter_filter. }
  assert (forall t, name_test nf t && priority_test pf t && due_date_test df t = true
                    <-> matches nf pf df t) as Hkeep.
  { intros t. unfold matches.
    rewrite !andb_true_iff, name_test_spec, priority_test_spec, due_date_test_spec. tauto. }
  split_and!; [done| |].
  - destruct Hcases as [H|[Hn Hr]]; [by left|]. right. split; [done|].
    eexists. split; [exact Hkeep|exact Hr].
  - intros Hwf. destruct Hcases as [[Hc _]|[_ Hr]].
    + exfalso. destruct Hc as [[_ Hex]|[_ Hex]];
        apply Exists_exists in Hex as (t & Ht & Hs); rewrite Forall_forall in Hwf;
        destruct (Hwf t Ht) as (Hname & _ & Hprio & _); tauto.
    + eexists. split; [exact Hkeep|]. by apply Hpair.
Qed.

(** ** The stable sort *)

Section StableSortFacts.
Context {K A : Type} (ltb : K -> K -> bool).

Lemma insert_by_app (x : K * A) (l1 l2 : list (K * A)) :
  Forall (fun y => ltb (fst y) (fst x) = true) l1 ->
  Forall (fun y => ltb (fst y) (fst x) = false) l2 ->
  insert_by ltb x (l1 ++ l2) = l1 ++ x :: l2.
Proof.
  intros H1 H2. induction H1 as [|y l1 Hy _ IH]; simpl.
  - destruct H2 as [|y l2 Hy _]; simpl; [done|]. by rewrite Hy.
  - by rewrite Hy, IH.
Qed.

Lemma insert_by_perm (x : K * A) (l : list (K * A)) :
  insert_by ltb x l ≡ₚ x :: l.
Proof.
  induction l as [|y l IH]; simpl; [done|].
  destruct (ltb (fst y) (fst x)); [|done].
  rewrite IH. apply Permutation_swap.
Qed.

Lemma stable_sort_perm (l : list (K * A)) : stable_sort ltb l ≡ₚ l.
Proof.
  induction l as [|x l IH]; simpl; [done|].
  by rewrite insert_by_perm, IH.
Qed.

Lemma stable_sort_id (l : list (K * A)) :
  Sorted (ordered ltb) l -> stable_sort ltb l = l.
Proof.
  induction 1 as [|x l _ IH Hhd]; simpl; [done|].
  rewrite IH. destruct Hhd as [|y l Hxy]; simpl; [done|].
  unfold ordered in Hxy. by rewrite Hxy.
Qed.

Hypothesis ltb_asym : forall a b, ltb a b = true -> ltb b a = false.

Lemma insert_by_sorted (x : K * A) (l : list (K * A)) :
  Sorted (ordered ltb) l -> Sorted (ordered ltb) (insert_by ltb x l).
Proof.
  induction 1 as [|y l Hl IH Hhd]; simpl.
  - by repeat constructor.
  - destruct (ltb (fst y) (fst x)) eqn:E.
    + constructor; [done|].
      destruct Hhd as [|z l Hyz]; simpl.
      * constructor. by apply ltb_asym.
      * destruct (ltb (fst z) (fst x)); constructor; [done|by apply ltb_asym].
    + constructor; [by constructor|]. by constructor.
Qed.

Lemma stable_sort_sorted (l : list (K * A)) : Sorted (ordered ltb) (stable_sort ltb l).
Proof.
  induction l as [|x l IH]; simpl; [constructor|]. by apply insert_by_sorted.
Qed.

Lemma stable_sort_idem (l : list (K * A)) :
  stable_sort ltb (stable_sort ltb l) = stable_sort ltb l.
Proof. apply stable_sort_id, stable_sort_sorted. Qed.
End StableSortFacts.

(** ** Items and their keys *)

Section Decorated.
Context {K A : Type} (key : A -> result K).

Lemma comprehension_keyed (l : list A) (keys : list K) :
  comprehension key l = Ok keys ->
  keyed key (zip keys l) /\ map snd (zip keys l) = l.
Proof.
  revert keys. induction l as [|x l IH]; intros keys; simpl.
  - intros [= <-]. by split; [constructor|].
  - destruct (key x) as [k|] eqn:Hk; simpl; [|done].
    destruct (comprehension key l) as [ks|] eqn:Hks; simpl; [|done].
    intros [= <-]. destruct (IH ks eq_refl) as [IH1 IH2]. simpl.
    split; [by constructor|by rewrite IH2].
Qed.

Lemma keyed_comprehension (dec : list (K * A)) :
  keyed key dec ->
  comprehension key (map snd dec) = Ok (map fst dec) /\
  zip (map fst dec) (map snd dec) = dec.
Proof.
  induction 1 as [|[k x] dec Hk _ [IH1 IH2]]; simpl; [done|].
  simpl in Hk. rewrite Hk, IH1; simpl. by rewrite IH2.
Qed.

Lemma keyed_perm (dec dec' : list (K * A)) : dec ≡ₚ dec' -> keyed key dec -> keyed key dec'.
Proof. intros Hp. unfold keyed. by rewrite Hp. Qed.

Context (ltb : K -> K -> bool).

Lemma list_sort_decorated (reverse : bool) (l : list A) (keys : list K) :
  comprehension key l = Ok keys ->
  list_sort ltb key reverse l = Ok (map snd (sorted_decorated ltb reverse (zip keys l))).
Proof. unfold list_sort, sorted_decorated. intros ->. simpl. by destruct reverse. Qed.

Lemma list_sort_raises (reverse : bool) (l : list A) (e : exn) :
  comprehension key l = Raise e -> list_sort ltb key reverse l = Raise e.
Proof. unfold list_sort. by intros ->. Qed.

Lemma sorted_decorated_perm (reverse : bool) (dec : list (K * A)) :
  sorted_decorated ltb reverse dec ≡ₚ dec.
Proof.
  unfold sorted_decorated. destruct reverse.
  - by rewrite <- Permutation_rev, stable_sort_perm, <- Permutation_rev.
  - apply stable_sort_perm.
Qed.

Hypothesis ltb_asym : forall a b, ltb a b = true -> ltb b a = false.

Lemma sorted_decorated_idem (reverse : bool) (dec : list (K * A)) :
  sorted_decorated ltb reverse (sorted_decorated ltb reverse dec) = sorted_decorated ltb reverse dec.
Proof.
  unfold sorted_decorated. destruct reverse.
  - by rewrite rev_involutive, stable_sort_idem.
  - by apply stable_sort_idem.
Qed.

(** Sorting what a sort returned changes nothing. *)
Lemma list_sort_idem (reverse : bool) (l l1 : list A) :
  list_sort ltb key reverse l = Ok l1 ->
  list_sort ltb key reverse l1 = Ok l1.
Proof.
  intros H.
  destruct (comprehension key l) as [keys|e] eqn:Hk;
    [|by rewrite (list_sort_raises _ _ _ Hk) in H].
  rewrite (list_sort_decorated _ _ _ Hk) in H. injection H as <-.
  destruct (comprehension_keyed _ _ Hk) as [Hkeyed _].
  assert (keyed key (sorted_decorated ltb reverse (zip keys l))) as Hkeyed'.
  { eapply keyed_perm; [|exact Hkeyed]. symmetry. apply sorted_decorated_perm. }
  destruct (keyed_comprehension _ Hkeyed') as [Hk' Hzip].
  rewrite (list_sort_decorated _ _ _ Hk'), Hzip.
  by rewrite sorted_decorated_idem.
Qed.
End Decorated.

Lemma string_ltb_asym (a b : string) : String.ltb a b = true -> String.ltb b a = false.
Proof.
  unfold String.ltb. rewrite (String.compare_antisym a b).
  by destruct (String.compare b a).
Qed.

Lemma Z_ltb_asym (a b : Z) : (a <? b) = true -> (b <? a) = false.
Proof. lia. Qed.

Lemma date_ltb_spec (a b : date) :
  date_ltb a b = true <->
  a.1.1 < b.1.1 \/ (a.1.1 = b.1.1 /\ (a.1.2 < b.1.2 \/ (a.1.2 = b.1.2 /\ a.2 < b.2))).
Proof. destruct a as [[y1 m1] d1], b as [[y2 m2] d2]. unfold date_ltb. simpl. lia. Qed.

Lemma date_ltb_asym (a b : date) : date_ltb a b = true -> date_ltb b a = false.
Proof.
  intros H. apply not_true_is_false. revert H. rewrite !date_ltb_spec. lia.
Qed.

(** C9.  When a sort succeeds, the same sort again (same key, same
    direction) succeeds and changes nothing: it returns the same sequence
    and leaves the same store.  This holds for the keys name, priority and
    due_date, and for any other key, for which a sort does nothing. *)
Theorem sort_tasks_idempotent (sort_key : string) (reverse : bool)
    (st st1 : state) (l1 : list Task) :
  sort_tasks sort_key reverse st = (Ok l1, st1) ->
  sort_tasks sort_key reverse st1 = (Ok l1, st1).
Proof.
  unfold sort_tasks. intros H.
  set (sorted := if String.eqb sort_key "name" then _ else _) in H.
  destruct sorted as [ts'|e] eqn:Hs; [|done].
  injection H as <- <-. simpl.
  assert ((if String.eqb sort_key "name" then
             list_sort String.ltb (fun task => py_lower (name task)) reverse ts'
           else if String.eqb sort_key "priority" then
             list_sort Z.ltb priority_key reverse ts'
           else if String.eqb sort_key "due_date" then
             list_sort date_ltb (fun task => py_strptime (due_date task)) reverse ts'
           else Ok ts') = Ok ts') as ->; [|done].
  subst sorted.
  destruct (String.eqb sort_key "name");
    [by eapply list_sort_idem; [apply string_ltb_asym|]|].
  destruct (String.eqb sort_key "priority");
    [by eapply list_sort_idem; [apply Z_ltb_asym|]|].
  destruct (String.eqb sort_key "due_date");
    [by eapply list_sort_idem; [apply date_ltb_asym|]|].
  done.
Qed.

(** ** Sorting by priority *)

Lemma priority_order_get (p : string) :
  default 3 (priority_order !! p)
  = if String.eqb p "high" then 0
    else if String.eqb p "medium" then 1
    else if String.eqb p "low" then 2
    else 3.
Proof.
  unfold priority_order.
  destruct (String.eqb_spec p "high") as [->|H1]; [done|].
  destruct (String.eqb_spec p "medium") as [->|H2]; [done|].
  destruct (String.eqb_spec p "low") as [->|H3]; [done|].
  by rewrite !lookup_insert_ne, lookup_empty.
Qed.

Lemma priority_key_wf (t : Task) : Task_wf t -> priority_key t = Ok (priority_rank t).
Proof.
  intros (_ & _ & Hp & _). unfold priority_key, priority_rank.
  rewrite (py_lower_wf _ Hp). simpl. by rewrite priority_order_get.
Qed.

Lemma priority_rank_range (t : Task) : 0 <= priority_rank t <= 3.
Proof. unfold priority_rank. repeat case_match; lia. Qed.

Lemma bucket_keys {A} (r : Z) (dec : list (Z * A)) :
  Forall (fun p => fst p = r) (bucket r dec).
Proof.
  unfold bucket. induction dec as [|p dec IH]; simpl; [constructor|].
  destruct (Z.eqb_spec (fst p) r); [by constructor|done].
Qed.

Lemma bucket_cons {A} (r : Z) (p : Z * A) (dec : list (Z * A)) :
  bucket r (p :: dec) = if fst p =? r then p :: bucket r dec else bucket r dec.
Proof. done. Qed.

(** With keys from 0 to 3 the stable sort puts the four buckets one after
    the other, each in the order of the input. *)
Lemma stable_sort_buckets {A} (dec : list (Z * A)) :
  Forall (fun p => 0 <= fst p <= 3) dec ->
  stable_sort Z.ltb dec = bucket 0 dec ++ bucket 1 dec ++ bucket 2 dec ++ bucket 3 dec.
Proof.
  induction 1 as [|x dec Hx _ IH]; [done|].
  change (stable_sort Z.ltb (x :: dec)) with (insert_by Z.ltb x (stable_sort Z.ltb dec)).
  rewrite IH, !bucket_cons.
  pose proof (bucket_keys 0 dec) as B0. pose proof (bucket_keys 1 dec) as B1.
  pose proof (bucket_keys 2 dec) as B2. pose proof (bucket_keys 3 dec) as B3.
  assert (forall r l, Forall (fun p : Z * A => fst p = r) l -> r < fst x ->
            Forall (fun y => (fst y <? fst x) = true) l) as Hlt.
  { intros r l Hl Hr. eapply Forall_impl; [exact Hl|]. simpl. intros; lia. }
  assert (forall r l, Forall (fun p : Z * A => fst p = r) l -> fst x <= r ->
            Forall (fun y => (fst y <? fst x) = false) l) as Hge.
  { intros r l Hl Hr. eapply Forall_impl; [exact Hl|]. simpl. intros; lia. }
  assert (fst x = 0 \/ fst x = 1 \/ fst x = 2 \/ fst x = 3) as [E|[E|[E|E]]] by lia;
    rewrite E in *; simpl.
  - apply (insert_by_app Z.ltb x []); [constructor|].
    rewrite E. rewrite !Forall_app. split_and!; eauto with lia.
  - apply (insert_by_app Z.ltb x (bucket 0 dec)); rewrite E.
    + eauto with lia.
    + rewrite !Forall_app. split_and!; eauto with lia.
  - rewrite !(app_assoc (bucket 0 dec)).
    apply (insert_by_app Z.ltb x (bucket 0 dec ++ bucket 1 dec)); rewrite E.
    + rewrite !Forall_app. split_and!; eauto with lia.
    + rewrite !Forall_app. split_and!; eauto with lia.
  - rewrite !(app_assoc (bucket 0 dec)), !(app_assoc (bucket 0 dec ++ bucket 1 dec)).
    apply (insert_by_app Z.ltb x ((bucket 0 dec ++ bucket 1 dec) ++ bucket 2 dec)); rewrite E.
    + rewrite !Forall_app. split_and!; eauto with lia.
    + eauto with lia.
Qed.

Lemma bucket_decorate (r : Z) (l : list Task) :
  map snd (bucket r (map (fun t => (priority_rank t, t)) l)) = List.filter (has_rank r) l.
Proof.
  unfold bucket, has_rank. induction l as [|t l IH]; simpl; [done|].
  destruct (priority_rank t =? r); simpl; congruence.
Qed.

Lemma zip_decorate {K A} (k : A -> K) (l : list A) :
  zip (map k l) l = map (fun x => (k x, x)) l.
Proof. induction l; simpl; congruence. Qed.

Lemma filter_has_rank_other (r r' : Z) (l : list Task) :
  r <> r' -> List.filter (has_rank r) (List.filter (has_rank r') l) = [].
Proof.
  intros Hne. rewrite filter_filter. induction l as [|t l IH]; simpl; [done|].
  unfold has_rank at 1 2.
  destruct (Z.eqb_spec (priority_rank t) r'), (Z.eqb_spec (priority_rank t) r);
    simpl; try done; lia.
Qed.

Lemma filter_has_rank_same (r : Z) (l : list Task) :
  List.filter (has_rank r) (List.filter (has_rank r) l) = List.filter (has_rank r) l.
Proof.
  rewrite filter_filter. induction l as [|t l IH]; simpl; [done|].
  destruct (has_rank r t); simpl; congruence.
Qed.

Lemma by_priority_stable (r : Z) (l : list Task) :
  0 <= r <= 3 ->
  List.filter (has_rank r) (by_priority l) = List.filter (has_rank r) l.
Proof.
  intros Hr. unfold by_priority. rewrite !List.filter_app.
  assert (r = 0 \/ r = 1 \/ r = 2 \/ r = 3) as [-> | [-> | [-> | ->]]] by lia;
    rewrite filter_has_rank_same, !filter_has_rank_other by lia;
    by rewrite ?app_nil_r.
Qed.

Lemma by_priority_ranked (l : list Task) :
  StronglySorted (fun a b => priority_rank a <= priority_rank b) (by_priority l).
Proof.
  assert (forall r, Forall (fun t => priority_rank t = r) (List.filter (has_rank r) l)) as Hb.
  { intros r. induction l as [|t l IH]; simpl; [constructor|].
    unfold has_rank at 1. destruct (Z.eqb_spec (priority_rank t) r); [by constructor|done]. }
  assert (forall r l', Forall (fun t => priority_rank t = r) l' ->
            StronglySorted (fun a b => priority_rank a <= priority_rank b) l') as Hs.
  { intros r l'. induction 1 as [|t l' Ht Hl' IH]; constructor; [done|].
    eapply Forall_impl; [exact Hl'|]. simpl. lia. }
  assert (forall r r' l1 l2 x1 x2, r <= r' ->
            Forall (fun t => priority_rank t = r) l1 ->
            Forall (fun t => r' <= priority_rank t) l2 ->
            x1 ∈ l1 -> x2 ∈ l2 -> priority_rank x1 <= priority_rank x2) as Hx.
  { intros r r' l1 l2 x1 x2 Hr H1 H2 Hx1 Hx2.
    rewrite Forall_forall in H1, H2. specialize (H1 _ Hx1). specialize (H2 _ Hx2). lia. }
  assert (forall r r', r' <= r -> Forall (fun t => r' <= priority_rank t)
                                    (List.filter (has_rank r) l)) as Hge.
  { intros r r' Hr. eapply Forall_impl; [apply Hb|]. simpl. lia. }
  unfold by_priority.
  apply StronglySorted_app_2; [|by eapply Hs|].
  { intros x1 x2. apply (Hx 0 1); [lia|apply Hb|].
    rewrite !Forall_app. split_and!; apply Hge; lia. }
  apply StronglySorted_app_2; [|by eapply Hs|].
  { intros x1 x2. apply (Hx 1 2); [lia|apply Hb|].
    rewrite !Forall_app. split_and!; apply Hge; lia. }
  apply StronglySorted_app_2; [|by eapply Hs|by eapply Hs].
  intros x1 x2. apply (Hx 2 3); [lia|apply Hb|]. apply Hge; lia.
Qed.

Lemma by_priority_sort (l : list Task) :
  map snd (stable_sort Z.ltb (map (fun t => (priority_rank t, t)) l)) = by_priority l.
Proof.
  rewrite stable_sort_buckets.
  - by rewrite !map_app, !bucket_decorate.
  - apply Forall_map. apply Forall_forall. intros t _. apply priority_rank_range.
Qed.

Lemma by_priority_perm (l : list Task) : by_priority l ≡ₚ l.
Proof.
  rewrite <- by_priority_sort, stable_sort_perm, map_map. simpl. by rewrite map_id.
Qed.

(** C4 (as amended).  For every store, an ascending sort by priority either
    succeeds or raises [AttributeError].  When the priority of every task
    is a string, it succeeds and leaves and returns the sequence made of
    the tasks of priority high, then those of priority medium, then low,
    then all the others (priorities read without regard to case), each
    group in the order it had before the sort.  When the priority of some
    task is not a string, it raises and the store is as it was.  The
    sequence by rank has the same tasks, a task of lower rank never stands
    behind one of higher rank in it, and the tasks of one rank keep their
    order. *)
Theorem sort_by_priority (st : state) :
  let l := tasks (self st) in
  (Forall (fun t => is_str (priority t)) l /\
   sort_tasks "priority" false st
   = (Ok (by_priority l),
      mkState (mkTaskManager (json_file (self st)) (by_priority l)) (disk st) (writes st))
   \/
   Exists (fun t => ~ is_str (priority t)) l /\
   sort_tasks "priority" false st = (Raise AttributeError, st)) /\
  by_priority l
  = List.filter (has_rank 0) l ++ List.filter (has_rank 1) l ++
    List.filter (has_rank 2) l ++ List.filter (has_rank 3) l /\
  by_priority l ≡ₚ l /\
  StronglySorted (fun a b => priority_rank a <= priority_rank b) (by_priority l) /\
  (forall r, 0 <= r <= 3 ->
     List.filter (has_rank r) (by_priority l) = List.filter (has_rank r) l).
Proof.
  intros l. split_and!.
  - unfold sort_tasks. simpl String.eqb. cbv iota. fold l.
    destruct (comprehension priority_key l) as [keys|e] eqn:Hk.
    + left.
      assert (Forall (fun t => is_str (priority t)) l) as Hstr.
      { apply Forall_forall. intros t Ht.
        destruct (priority t) as [| | | |s| |] eqn:Hp; try done; exfalso;
          (assert (exists e, comprehension priority_key l = Raise e) as [e He];
             [|congruence]);
          apply comprehension_raises, Exists_exists; exists t; (split; [done|]);
          exists AttributeError; unfold priority_key; by rewrite Hp. }
      split; [done|].
      assert (comprehension priority_key l = Ok (map priority_rank l)) as Hk'.
      { apply comprehension_pure. eapply Forall_impl; [exact Hstr|].
        intros t Ht. unfold priority_key, priority_rank.
        rewrite (py_lower_wf _ Ht). simpl. by rewrite priority_order_get. }
      rewrite Hk' in Hk. injection Hk as <-.
      rewrite (list_sort_decorated _ _ _ _ _ Hk').
      unfold sorted_decorated. by rewrite zip_decorate, by_priority_sort.
    + right. rewrite (list_sort_raises _ _ _ _ _ Hk).
      apply comprehension_raised_by in Hk as (t & Ht & Hraise).
      unfold priority_key in Hraise.
      assert (~ is_str (priority t) /\ e = AttributeError) as [Hn ->].
      { destruct (priority t); simpl in Hraise; try discriminate Hraise;
          injection Hraise as <-; (split; [exact id|reflexivity]). }
      split; [|done]. apply Exists_exists. by exists t.
  - done.
  - apply by_priority_perm.
  - apply by_priority_ranked.
  - intros r Hr. by apply by_priority_stable.
Qed.

(** ** Parsing dates *)

Lemma is_digit_cases (c : ascii) : is_digit c = true -> In c digits.
Proof.
  intros H.
  destruct c as [[] [] [] [] [] [] [] []]; vm_compute in H; try discriminate H;
    simpl; tauto.
Qed.

(** Evaluate the closed arithmetic on characters in the goal. *)
Ltac eval_chars :=
  repeat match goal with
    | |- context [match_m ?s] =>
        let v := eval vm_compute in (match_m s) in change (match_m s) with v
    | |- context [match_d ?s] =>
        let v := eval vm_compute in (match_d s) in change (match_d s) with v
    | |- context [digit_val ?a * 10 + digit_val ?b] =>
        let v := eval vm_compute in (digit_val a * 10 + digit_val b) in
        change (digit_val a * 10 + digit_val b) with v
    end.

Lemma match_month (a b : ascii) (rest : string) {X} (k : Z -> string -> list X) :
  is_digit a = true -> is_digit b = true ->
  1 <= digit_val a * 10 + digit_val b <= 12 ->
  ('(m, s3) ← match_m (String a (String b (String "-" rest)));
   s4 ← match_dash s3; k m s4)
  = k (digit_val a * 10 + digit_val b) rest.
Proof.
  intros Ha Hb Hr. apply is_digit_cases in Ha, Hb.
  simpl in Ha, Hb.
  repeat (destruct Ha as [<-|Ha]; [|]); try done;
  repeat (destruct Hb as [<-|Hb]; [|]); try done;
  vm_compute in Hr; try (exfalso; destruct Hr; congruence);
  eval_chars; cbn; by rewrite ?app_nil_r.
Qed.

Lemma match_day (a b : ascii) :
  is_digit a = true -> is_digit b = true ->
  1 <= digit_val a * 10 + digit_val b <= 31 ->
  exists tl, match_d (String a (String b EmptyString))
             = ((digit_val a * 10 + digit_val b, EmptyString) :: tl).
Proof.
  intros Ha Hb Hr. apply is_digit_cases in Ha, Hb.
  simpl in Ha, Hb.
  repeat (destruct Ha as [<-|Ha]; [|]); try done;
  repeat (destruct Hb as [<-|Hb]; [|]); try done;
  vm_compute in Hr; try (exfalso; destruct Hr; congruence);
  eval_chars; by eexists.
Qed.

Lemma days_in_month_le (y m : Z) : days_in_month y m <= 31.
Proof. unfold days_in_month. repeat case_match; lia. Qed.

Lemma bind_one {X Y} (x : X) (f : X -> list Y) : ([x] ≫= f) = f x.
Proof. simpl. apply app_nil_r. Qed.

Lemma match_Y_digits (a b c d : ascii) (r : string) :
  is_digit a = true -> is_digit b = true -> is_digit c = true -> is_digit d = true ->
  match_Y (String a (String b (String c (String d r))))
  = [(digit_val a * 1000 + digit_val b * 100 + digit_val c * 10 + digit_val d, r)].
Proof. intros Ha Hb Hc Hd. unfold match_Y. by rewrite Ha, Hb, Hc, Hd. Qed.

(** A date in the form YYYY-MM-DD parses, to the date it names. *)
Lemma strptime_iso_date (s : string) :
  iso_date s -> exists d, strptime s = Ok d.
Proof.
  intros (y1 & y2 & y3 & y4 & m1 & m2 & d1 & d2 & -> & Hd & Hy & Hm & Hdd).
  simpl in Hd. rewrite !andb_true_iff in Hd.
  destruct Hd as (Hy1 & Hy2 & Hy3 & Hy4 & Hm1 & Hm2 & Hd1 & Hd2 & _).
  set (y := digit_val y1 * 1000 + digit_val y2 * 100 + digit_val y3 * 10 + digit_val y4) in *.
  set (m := digit_val m1 * 10 + digit_val m2) in *.
  set (d := digit_val d1 * 10 + digit_val d2) in *.
  pose proof (days_in_month_le y m) as Hle.
  destruct (match_day d1 d2 Hd1 Hd2) as [tl Htl]; [lia|]. fold d in Htl.
  exists (y, m, d). unfold strptime, match_ymd.
  rewrite (match_Y_digits _ _ _ _ _ Hy1 Hy2 Hy3 Hy4), bind_one. fold y.
  cbv beta iota. change (match_dash (String "-" ?r)) with [r]. rewrite bind_one.
  rewrite (match_month m1 m2 (String d1 (String d2 EmptyString))
             (fun m s4 => '(d, s5) ← match_d s4; [((y, m, d), s5)]) Hm1 Hm2 Hm).
  fold m. rewrite Htl. cbn [mbind list_bind app].
  assert ((1 <=? y) && (d <=? days_in_month y m) = true) as ->; [|reflexivity].
  apply andb_true_iff. split; lia.
Qed.

Lemma strptime_raises (s : string) (e : exn) : strptime s = Raise e -> e = ValueError.
Proof.
  unfold strptime. intros H.
  repeat case_match; congruence.
Qed.

(** *** What the parser takes *)

Ltac each_ascii c := destruct c as [[] [] [] [] [] [] [] []].

Lemma match_dash_cases (s : string) :
  match_dash s = [] \/ exists r, s = String "-" r /\ match_dash s = [r].
Proof.
  destruct s as [|a r]; [by left|].
  each_ascii a; try (left; reflexivity). right. by exists r.
Qed.

Lemma match_Y_cases (s : string) :
  match_Y s = [] \/
  exists sy y r, s = (sy ++ r)%string /\ four_digits sy y /\ match_Y s = [(y, r)].
Proof.
  destruct s as [|a [|b [|c [|d r]]]]; try (by left).
  unfold match_Y.
  destruct (is_digit a) eqn:Ha; [|by left].
  destruct (is_digit b) eqn:Hb; [|by left].
  destruct (is_digit c) eqn:Hc; [|by left].
  destruct (is_digit d) eqn:Hd; [|by left].
  right. exists (String a (String b (String c (String d EmptyString)))).
  eexists _, r.
  split; [reflexivity|]. split; [|reflexivity].
  exists a, b, c, d. by split_and!.
Qed.

(** The month and the dash after it: the text is read in one way at most. *)
Ltac month_value :=
  match goal with
  | |- context [match_m ?s] =>
      let v := eval vm_compute in (match_m s) in
      change (match_m s) with v; cbn; by rewrite ?app_nil_r
  end.

Ltac month_found :=
  right;
  match goal with
  | |- context [match_m (String ?a (String "-" ?r))] =>
      let v := eval vm_compute in (digit_val a) in
      exists (String a EmptyString), v, r;
      split_and!; [reflexivity | right; exists a; by split_and! | lia | lia | month_value]
  | |- context [match_m (String ?a (String ?b (String "-" ?r)))] =>
      let v := eval vm_compute in (digit_val a * 10 + digit_val b) in
      exists (String a (String b EmptyString)), v, r;
      split_and!; [reflexivity | left; exists a, b; by split_and! | lia | lia | month_value]
  end.

Ltac month_step := first [ left; reflexivity | solve [month_found] ].

Lemma match_m_dash_cases {X} (s : string) (k : Z -> string -> list X) :
  (match_m s ≫= (λ '(m, s3), match_dash s3 ≫= k m)) = [] \/
  exists sm m r,
    s = (sm ++ String "-" r)%string /\
    (two_digits sm m \/ one_digit sm m) /\ 1 <= m <= 12 /\
    (match_m s ≫= (λ '(m, s3), match_dash s3 ≫= k m)) = k m r.
Proof.
  destruct s as [|a s1]; [by left|].
  each_ascii a; try month_step;
    (destruct s1 as [|b s2]; [left; reflexivity|]);
    each_ascii b; try month_step;
    (destruct s2 as [|c s3]; [left; reflexivity|]);
    each_ascii c; month_step.
Qed.

(** The day: the first reading of the text, and what it leaves. *)
Ltac day_form :=
  match goal with
  | |- _ (String ?a EmptyString) _ \/ _ =>
      first [ right; left; exists a; by split_and!
            | left; fail ]
  | |- _ (String ?a (String ?b EmptyString)) _ \/ _ =>
      first [ left; exists a, b; by split_and!
            | right; right; exists (String b EmptyString); split; [reflexivity|];
              exists b; by split_and! ]
  end.

Ltac day_found :=
  right; right; eexists _, _; split; [reflexivity|];
  split; [day_form|]; split; by vm_compute.

Ltac day_step :=
  first [ left; reflexivity
        | right; left; eexists _, _, _, _; reflexivity
        | solve [day_found] ].

Lemma match_d_cases (s : string) :
  match_d s = [] \/
  (exists d c r tl, match_d s = (d, String c r) :: tl) \/
  (exists d tl, match_d s = (d, EmptyString) :: tl /\
     (two_digits s d \/ one_digit s d \/
      exists s', s = String " " s' /\ one_digit s' d) /\
     1 <= d <= 31).
Proof.
  destruct s as [|a s1]; [by left|].
  each_ascii a; try (left; reflexivity);
    (destruct s1 as [|b s2]; [day_step|]); try day_step;
    each_ascii b; try day_step;
    (destruct s2 as [|c s3]; day_step).
Qed.

Lemma match_m_dash_text {X} (sm : string) (m : Z) (r : string) (k : Z -> string -> list X) :
  two_digits sm m \/ one_digit sm m -> 1 <= m <= 12 ->
  (match_m (sm ++ String "-" r) ≫= (λ '(m, s3), match_dash s3 ≫= k m)) = k m r.
Proof.
  intros [(a & b & -> & Ha & Hb & ->)|(a & -> & Ha & ->)] Hm.
  - apply is_digit_cases in Ha, Hb. simpl in Ha, Hb.
    repeat (destruct Ha as [<-|Ha]; [|]); try done;
    repeat (destruct Hb as [<-|Hb]; [|]); try done;
    vm_compute in Hm; try (exfalso; destruct Hm; congruence);
    month_value.
  - apply is_digit_cases in Ha. simpl in Ha.
    repeat (destruct Ha as [<-|Ha]; [|]); try done;
    vm_compute in Hm; try (exfalso; destruct Hm; congruence);
    month_value.
Qed.

Lemma match_d_text (sd : string) (d : Z) :
  two_digits sd d \/ one_digit sd d \/
    (exists sd', sd = String " " sd' /\ one_digit sd' d) ->
  1 <= d <= 31 ->
  exists tl, match_d sd = (d, EmptyString) :: tl.
Proof.
  intros [(a & b & -> & Ha & Hb & ->)|[(a & -> & Ha & ->)|(s' & -> & a & -> & Ha & ->)]] Hd.
  - apply is_digit_cases in Ha, Hb. simpl in Ha, Hb.
    repeat (destruct Ha as [<-|Ha]; [|]); try done;
    repeat (destruct Hb as [<-|Hb]; [|]); try done;
    vm_compute in Hd; try (exfalso; destruct Hd; congruence);
    eexists; reflexivity.
  - apply is_digit_cases in Ha. simpl in Ha.
    repeat (destruct Ha as [<-|Ha]; [|]); try done;
    vm_compute in Hd; try (exfalso; destruct Hd; congruence);
    eexists; reflexivity.
  - apply is_digit_cases in Ha. simpl in Ha.
    repeat (destruct Ha as [<-|Ha]; [|]); try done;
    vm_compute in Hd; try (exfalso; destruct Hd; congruence);
    eexists; reflexivity.
Qed.

Lemma leap_year_is_leap (y : Z) : is_leap y = bool_decide (leap_year y).
Proof.
  unfold is_leap, leap_year.
  destruct (bool_decide_reflect (y mod 400 = 0 \/ (y mod 4 = 0 /\ y mod 100 <> 0))) as [H|H];
    [apply andb_true_iff|apply andb_false_iff];
    rewrite ?orb_true_iff, ?orb_false_iff, ?negb_true_iff, ?negb_false_iff,
            ?Z.eqb_eq, ?Z.eqb_neq;
    Z.div_mod_to_equations; lia.
Qed.

Lemma month_length_calendar (y m : Z) :
  1 <= m <= 12 -> month_length y m = days_in_month y m.
Proof.
  intros Hm. unfold month_length, days_in_month. rewrite leap_year_is_leap.
  assert (m = 1 \/ m = 2 \/ m = 3 \/ m = 4 \/ m = 5 \/ m = 6 \/ m = 7 \/ m = 8 \/
          m = 9 \/ m = 10 \/ m = 11 \/ m = 12) as Hc by lia.
  repeat (destruct Hc as [->|Hc]; [by destruct (bool_decide (leap_year y))|]).
  subst. by destruct (bool_decide (leap_year y)).
Qed.

(** The parser reads a text as a date exactly when the text names it. *)
Lemma strptime_names_date (s : string) (dt : date) :
  strptime s = Ok dt <-> names_date s dt.
Proof.
  destruct dt as [[y m] d]. unfold strptime, match_ymd, names_date. split.
  - destruct (match_Y_cases s) as [->|(sy & y' & r & -> & Hy & ->)]; [done|].
    rewrite bind_one. cbv beta iota.
    destruct (match_dash_cases r) as [->|(r1 & -> & ->)]; [done|].
    rewrite bind_one.
    destruct (match_m_dash_cases r1
                (fun m s4 => '(d, s5) ← match_d s4; [((y', m, d), s5)]))
      as [->|(sm & m' & r2 & -> & Hm & Hmr & ->)]; [done|].
    destruct (match_d_cases r2)
      as [->|[(d' & c & r3 & tl & ->)|(d' & tl & -> & Hd & Hdr)]]; [done|done|].
    cbn [mbind list_bind app].
    destruct (Z.leb_spec 1 y'); [|done]. simpl andb.
    destruct (Z.leb_spec d' (days_in_month y' m')); [|done].
    intros [= <- <- <-].
    exists sy, sm, r2. split_and!; try done; try lia.
    rewrite month_length_calendar; lia.
  - intros (sy & sm & sd & -> & (a & b & c & e & -> & Ha & Hb & Hc & He & ->) & Hm & Hd &
            Hy & Hmr & Hdr).
    change (String a (String b (String c (String e EmptyString))) ++ ?r)%string
      with (String a (String b (String c (String e r)))).
    rewrite (match_Y_digits _ _ _ _ _ Ha Hb Hc He), bind_one. cbv beta iota.
    change ("-" ++ ?r)%string with (String "-" r).
    change (match_dash (String "-" ?r)) with [r]. rewrite bind_one.
    rewrite (match_m_dash_text sm m sd
               (fun m s4 => '(d, s5) ← match_d s4; [((_, m, d), s5)]) Hm Hmr).
    rewrite month_length_calendar in Hdr by done.
    pose proof (days_in_month_le
      (digit_val a * 1000 + digit_val b * 100 + digit_val c * 10 + digit_val e) m) as Hle.
    destruct (match_d_text sd d Hd) as [tl ->]; [lia|].
    cbn [mbind list_bind app].
    destruct (Z.leb_spec 1 (digit_val a * 1000 + digit_val b * 100 + digit_val c * 10
                            + digit_val e)); [|lia].
    destruct (Z.leb_spec d (days_in_month
      (digit_val a * 1000 + digit_val b * 100 + digit_val c * 10 + digit_val e) m)); [|lia].
    reflexivity.
Qed.

(** ** Sorting by due date *)

Lemma date_le_trans : Transitive date_le.
Proof.
  intros a b c. unfold date_le. rewrite <- !not_true_iff_false, !date_ltb_spec. lia.
Qed.

Lemma StronglySorted_rev {A} (R : A -> A -> Prop) (l : list A) :
  StronglySorted R l -> StronglySorted (fun a b => R b a) (rev l).
Proof.
  induction 1 as [|x l _ IH Hx]; simpl; [constructor|].
  apply StronglySorted_app_2; [|done|by repeat constructor].
  intros x1 x2 H1 ->%list_elem_of_singleton.
  rewrite Forall_forall in Hx. apply Hx.
  by apply list_elem_of_In, in_rev, list_elem_of_In in H1.
Qed.

Lemma date_sorted_decorated {A} (reverse : bool) (dec : list (date * A)) :
  StronglySorted
    (fun p q => if reverse then date_le (fst q) (fst p) else date_le (fst p) (fst q))
    (sorted_decorated date_ltb reverse dec).
Proof.
  assert (forall l : list (date * A),
            StronglySorted (fun p q => date_le (fst p) (fst q)) (stable_sort date_ltb l)) as Hs.
  { intros l. apply Sorted_StronglySorted.
    - intros p q r. apply date_le_trans.
    - apply (stable_sort_sorted date_ltb date_ltb_asym). }
  unfold sorted_decorated. destruct reverse; [|apply Hs].
  apply (StronglySorted_rev (fun p q => date_le (fst p) (fst q))), Hs.
Qed.

Lemma StronglySorted_undecorate {K A} (key : A -> result K) (k : A -> K)
    (R : K -> K -> Prop) (dec : list (K * A)) :
  (forall x y, key x = Ok y -> k x = y) ->
  keyed key dec ->
  StronglySorted (fun p q => R (fst p) (fst q)) dec ->
  StronglySorted (fun a b => R (k a) (k b)) (map snd dec).
Proof.
  intros Hk Hkeyed. induction 1 as [|p dec _ IH Hp]; simpl; [constructor|].
  apply Forall_cons in Hkeyed as [Hp1 Hdec].
  constructor; [by apply IH|].
  apply Forall_map. rewrite Forall_forall in *. intros q Hq. simpl.
  rewrite (Hk _ _ Hp1), (Hk _ _ (Hdec _ Hq)). by apply Hp.
Qed.

Lemma date_key_ok (t : Task) (d : date) : py_strptime (due_date t) = Ok d -> date_key t = d.
Proof. unfold date_key. by intros ->. Qed.

Lemma due_parsed (t : Task) (dt : date) :
  due t dt <-> py_strptime (due_date t) = Ok dt.
Proof.
  unfold due, py_strptime. split.
  - intros (s & -> & Hs). by apply strptime_names_date.
  - destruct (due_date t) as [| | | |s| |]; try done.
    intros Hs. exists s. split; [done|]. by apply strptime_names_date.
Qed.

Lemma sortable_cases (t : Task) :
  (sortable t /\ exists dt, py_strptime (due_date t) = Ok dt) \/
  (~ sortable t /\ py_strptime (due_date t) = Raise (parse_error t)).
Proof.
  destruct (py_strptime (due_date t)) as [dt|e] eqn:E.
  - left. split; [|by exists dt]. exists dt. by apply due_parsed.
  - right. split.
    + intros [dt Hdt%due_parsed]. congruence.
    + unfold parse_error, py_strptime in *.
      destruct (due_date t); try congruence.
      by apply strptime_raises in E as ->.
Qed.

Lemma comprehension_first_raise {A B} (f : A -> result B) (l : list A) (e : exn) :
  comprehension f l = Raise e ->
  exists l1 x l2,
    l = l1 ++ x :: l2 /\ Forall (fun y => exists v, f y = Ok v) l1 /\ f x = Raise e.
Proof.
  induction l as [|x l IH]; simpl; [done|].
  destruct (f x) as [y|e'] eqn:Hx; simpl.
  - destruct (comprehension f l) as [ys|e'']; simpl; [done|].
    intros [= ->]. destruct (IH eq_refl) as (l1 & x' & l2 & -> & Hl1 & Hx').
    exists (x :: l1), x', l2. split_and!; [done| |done].
    constructor; [by exists y|done].
  - intros [= ->]. exists [], x, l. by split_and!.
Qed.

Lemma calendar_le_date_le (a b : date) : calendar_le a b <-> date_le a b.
Proof.
  unfold date_le. rewrite <- not_true_iff_false, date_ltb_spec.
  destruct a as [[y1 m1] d1], b as [[y2 m2] d2]. simpl. lia.
Qed.

Lemma StronglySorted_weaken {A} (R R' : A -> A -> Prop) (l : list A) :
  (forall x y, R x y -> R' x y) -> StronglySorted R l -> StronglySorted R' l.
Proof.
  intros HR. induction 1 as [|x l _ IH Hx]; constructor; [done|].
  eapply Forall_impl; [exact Hx|]. intros y. apply HR.
Qed.

(** C5 (as amended).  A sort by due date raises exactly when the due date
    of some task names no day: it is not a string, or it is a string other
    than a year in four digits from 0001, a dash, a month in one or two
    digits, a dash, and a day in one or two digits (or a blank and one
    digit) that name a day of the calendar.  The exception is that of the
    first such task in the order of the store, [TypeError] when its due
    date is not a string and [ValueError] when it is; it leaves
    [sort_tasks], and the store is as it was.  Every date in the form
    YYYY-MM-DD names a day, and a text names one day at most.  When every
    due date names a day, the sort succeeds, keeps the tasks, and leaves
    them in the order of the calendar by the days named, ascending or,
    with [reverse], descending. *)
Theorem sort_by_due_date (reverse : bool) (st : state) :
  let l := tasks (self st) in
  let r := sort_tasks "due_date" reverse st in
  ((exists e, r.1 = Raise e) <-> Exists (fun t => ~ sortable t) l) /\
  (forall e, r.1 = Raise e ->
     r.2 = st /\
     exists l1 t l2,
       l = l1 ++ t :: l2 /\ Forall sortable l1 /\ ~ sortable t /\ e = parse_error t) /\
  (forall t s, due_date t = PStr s -> iso_date s -> sortable t) /\
  (forall t da db, due t da -> due t db -> da = db) /\
  (Forall sortable l ->
     exists l',
       r = (Ok l', mkState (mkTaskManager (json_file (self st)) l') (disk st) (writes st)) /\
       l' ≡ₚ l /\
       StronglySorted (in_calendar_order reverse) l').
Proof.
  intros l r. subst r. unfold sort_tasks. simpl String.eqb. cbv iota. fold l.
  set (key := fun task => py_strptime (due_date task)).
  assert (forall e, comprehension key l = Raise e ->
            exists l1 t l2, l = l1 ++ t :: l2 /\ Forall sortable l1 /\
                            ~ sortable t /\ e = parse_error t) as Hfirst.
  { intros e (l1 & t & l2 & Hl & Hl1 & Ht)%comprehension_first_raise.
    exists l1, t, l2. split; [done|]. split.
    - eapply Forall_impl; [exact Hl1|]. intros x [dt Hdt]. exists dt. by apply due_parsed.
    - unfold key in Ht. destruct (sortable_cases t) as [[_ [dt Hdt]]|[Hn He]]; [congruence|].
      split; [done|congruence]. }
  split_and!.
  - destruct (comprehension key l) as [keys|e] eqn:Hk.
    + rewrite (list_sort_decorated _ _ _ _ _ Hk). simpl.
      split; [by intros [e ?]|]. intros (t & Ht & Hn)%Exists_exists. exfalso.
      assert (exists e, comprehension key l = Raise e) as [e He]; [|congruence].
      apply comprehension_raises, Exists_exists. exists t. split; [done|].
      destruct (sortable_cases t) as [[Hs _]|[_ He]]; [done|]. by eexists.
    + rewrite (list_sort_raises _ _ _ _ _ Hk). simpl.
      split; [|by exists e]. intros _.
      destruct (Hfirst e eq_refl) as (l1 & t & l2 & -> & _ & Hn & _).
      apply Exists_app. right. by left.
  - intros e. destruct (comprehension key l) as [keys|e'] eqn:Hk.
    + by rewrite (list_sort_decorated _ _ _ _ _ Hk).
    + rewrite (list_sort_raises _ _ _ _ _ Hk). simpl. intros [= <-].
      split; [done|]. by apply Hfirst.
  - intros t s Hs [d Hd]%strptime_iso_date. exists d. apply due_parsed.
    by rewrite Hs.
  - intros t da db Ha%due_parsed Hb%due_parsed. congruence.
  - intros Hok.
    destruct (comprehension key l) as [keys|e] eqn:Hk.
    + rewrite (list_sort_decorated _ _ _ _ _ Hk).
      destruct (comprehension_keyed _ _ _ Hk) as [Hkeyed Hsnd].
      eexists. split; [reflexivity|]. split.
      * rewrite sorted_decorated_perm. by rewrite Hsnd.
      * apply (StronglySorted_weaken
                 (fun a b => if reverse then date_le (date_key b) (date_key a)
                             else date_le (date_key a) (date_key b))).
        { intros a b Hab da db Ha%due_parsed Hb%due_parsed.
          rewrite (date_key_ok _ _ Ha), (date_key_ok _ _ Hb) in Hab.
          destruct reverse; by apply calendar_le_date_le. }
        apply (StronglySorted_undecorate key date_key
                 (fun a b => if reverse then date_le b a else date_le a b)).
        -- intros x y. apply date_key_ok.
        -- eapply keyed_perm; [|exact Hkeyed]. symmetry. apply sorted_decorated_perm.
        -- destruct reverse;
             [exact (date_sorted_decorated true (zip keys l))
             |exact (date_sorted_decorated false (zip keys l))].
    + exfalso. destruct (Hfirst e eq_refl) as (l1 & t & l2 & Hl & _ & Hn & _).
      apply Hn. rewrite Forall_forall in Hok. apply Hok. rewrite Hl.
      apply elem_of_app. right. by left.
Qed.

(** ** The date validator *)

Lemma py_int_raises (s : string) (e : exn) : py_int s = Raise e -> e = ValueError.
Proof. unfold py_int. intros H. repeat case_match; congruence. Qed.

Lemma str_index_raises (s : string) (i : nat) (e : exn) :
  str_index s i = Raise e -> e = IndexError.
Proof. unfold str_index. intros H. repeat case_match; congruence. Qed.

Lemma list_index_raises {A} (l : list A) (i : Z) (e : exn) :
  list_index l i = Raise e -> e = IndexError.
Proof. unfold list_index. intros H. repeat case_match; congruence. Qed.

Lemma validate_date_try_raises (s : string) (e : exn) :
  validate_date_try s = Raise e -> e = ValueError \/ e = IndexError.
Proof.
  unfold validate_date_try.
  destruct (negb _); [done|].
  destruct (str_index s 4) as [c4|e4] eqn:E4; simpl;
    [|intros [= <-]; right; by eapply str_index_raises].
  destruct (negb _); [done|].
  destruct (str_index s 7) as [c7|e7] eqn:E7; simpl;
    [|intros [= <-]; right; by eapply str_index_raises].
  destruct (negb _); [done|].
  destruct (py_int (slice s 0 4)) as [y|ey] eqn:Ey; simpl;
    [|intros [= <-]; left; by eapply py_int_raises].
  destruct (py_int (slice s 5 7)) as [m|em] eqn:Em; simpl;
    [|intros [= <-]; left; by eapply py_int_raises].
  destruct (py_int (slice s 8 10)) as [d|ed] eqn:Ed; simpl;
    [|intros [= <-]; left; by eapply py_int_raises].
  destruct (_ || _); [done|]. destruct (_ || _); [done|].
  destruct (list_index _ m) as [last|el] eqn:El; simpl;
    [|intros [= <-]; right; by eapply list_index_raises].
  by destruct ((d <? 1) || (d >? last)).
Qed.

Lemma validate_date_total (s : string) : exists b, validate_date s = Ok b.
Proof.
  unfold validate_date. destruct (validate_date_try s) as [b|e] eqn:E; [by exists b|].
  apply validate_date_try_raises in E as [->| ->]; by exists false.
Qed.

Lemma validate_date_try_true (s : string) :
  validate_date s = Ok true <-> validate_date_try s = Ok true.
Proof.
  unfold validate_date. destruct (validate_date_try s) as [b|e] eqn:E; [done|].
  apply validate_date_try_raises in E as [->| ->]; done.
Qed.

Lemma leap_year_test (y : Z) :
  (y mod 400 =? 0) || (negb (y mod 100 =? 0) && (y mod 4 =? 0)) = bool_decide (leap_year y).
Proof.
  unfold leap_year. destruct (bool_decide_reflect
    (y mod 400 = 0 \/ (y mod 4 = 0 /\ y mod 100 <> 0))) as [H|H]; lia.
Qed.

Lemma table_lookup (y m : Z) :
  1 <= m <= 12 ->
  list_index
    (if bool_decide (leap_year y)
     then <[2%nat := 29]> [0; 31; 28; 31; 30; 31; 30; 31; 31; 30; 31; 30; 31]
     else [0; 31; 28; 31; 30; 31; 30; 31; 31; 30; 31; 30; 31]) m
  = Ok (month_length y m).
Proof.
  intros Hm. unfold month_length.
  assert (m = 1 \/ m = 2 \/ m = 3 \/ m = 4 \/ m = 5 \/ m = 6 \/ m = 7 \/ m = 8 \/
          m = 9 \/ m = 10 \/ m = 11 \/ m = 12) as Hc by lia.
  destruct (bool_decide (leap_year y));
    repeat (destruct Hc as [->|Hc]; [reflexivity|]); by subst.
Qed.

Lemma get_length (s : string) (i : nat) :
  (i < String.length s)%nat -> exists c, String.get i s = Some c.
Proof.
  revert i. induction s as [|a s IH]; intros i; simpl; [lia|].
  destruct i as [|i]; [by exists a|]. intros H. apply IH. lia.
Qed.

(** C8.  [validate_date] never raises, and it answers [True] exactly for
    the strings of ten characters with "-" at positions 4 and 7 whose
    year, month and day fields are read as integers by [int], with the
    year from 1900 to 2100, the month from 1 to 12, and the day from 1 to
    the length of the month, February having 29 days exactly in the years
    divisible by 400, or by 4 and not by 100.  So 2024-02-29 is accepted,
    and 2023-02-29, 1899-12-31, 2024-13-01 and 2024-04-31 are rejected. *)
Theorem validate_date_correct :
  (forall s, exists b, validate_date s = Ok b) /\
  (forall s, validate_date s = Ok true <-> valid_date s) /\
  validate_date "2024-02-29" = Ok true /\
  validate_date "2023-02-29" = Ok false /\
  validate_date "1899-12-31" = Ok false /\
  validate_date "2024-13-01" = Ok false /\
  validate_date "2024-04-31" = Ok false.
Proof.
  split; [apply validate_date_total|].
  split; [|by vm_compute].
  intros s. rewrite validate_date_try_true. unfold validate_date_try, valid_date.
  destruct (Z.eqb_spec (Z.of_nat (String.length s)) 10) as [Hlen|Hlen]; cbn [rbind negb];
    [|split; [done|intros [? _]; lia]].
  assert (String.length s = 10%nat) as Hlen' by lia.
  destruct (get_length s 4) as [c4 H4]; [lia|].
  destruct (get_length s 7) as [c7 H7]; [lia|].
  unfold str_index. rewrite H4, H7. cbn [rbind negb].
  destruct (Ascii.eqb_spec c4 "-") as [->|Hc4]; cbn [rbind negb];
    [|split; [done|intros (_ & [= ?] & _); done]].
  destruct (Ascii.eqb_spec c7 "-") as [->|Hc7]; cbn [rbind negb];
    [|split; [done|intros (_ & _ & [= ?] & _); done]].
  destruct (py_int (slice s 0 4)) as [y|] eqn:Ey; cbn [rbind negb];
    [|split; [done|by intros (_ & _ & _ & ? & ? & ? & ? & _)]].
  destruct (py_int (slice s 5 7)) as [m|] eqn:Em; cbn [rbind negb];
    [|split; [done|by intros (_ & _ & _ & ? & ? & ? & _ & ? & _)]].
  destruct (py_int (slice s 8 10)) as [d|] eqn:Ed; cbn [rbind negb];
    [|split; [done|by intros (_ & _ & _ & ? & ? & ? & _ & _ & ? & _)]].
  destruct ((y <? 1900) || (y >? 2100)) eqn:Hy.
  { split; [done|]. intros (_ & _ & _ & y' & m' & d' & [= <-] & _ & _ & ? & _). lia. }
  destruct ((m <? 1) || (m >? 12)) eqn:Hm.
  { split; [done|]. intros (_ & _ & _ & y' & m' & d' & _ & [= <-] & _ & _ & ? & _). lia. }
  rewrite leap_year_test, table_lookup by lia. cbn [rbind].
  destruct ((d <? 1) || (d >? month_length y m)) eqn:Hd.
  { split; [done|].
    intros (_ & _ & _ & y' & m' & d' & [= <-] & [= <-] & [= <-] & _ & _ & ?). lia. }
  split; [|done]. intros _. split_and!; try done.
  exists y, m, d. split_and!; try done; lia.
Qed.

(** ** The theorems at concrete stores *)

(** C3 (as amended) at the example store, with a name filter and a priority
    filter. *)
Lemma get_filtered_tasks_correct_witness :
  filters_correctly (Some "rep") (Some "High") None example_state.
Proof.
  apply (get_filtered_tasks_correct (Some "rep") (Some "High") None example_state).
  repeat constructor.
Defined.

(** C4 (as amended) at a store of five tasks of all ranks. *)
Lemma sort_by_priority_witness :
  (sort_tasks "priority" false mixed_state).1
  = Ok [mkTask (PStr "Taxes") (PStr "") (PStr "HIGH") (PStr "2025-04-15");
        example_task;
        mkTask (PStr "Mail") (PStr "") (PStr "Medium") (PStr "2025-03-01");
        mkTask (PStr "walk") (PStr "") (PStr "low") (PStr "2025-03-01");
        mkTask (PStr "read") (PStr "") (PStr "someday") (PStr "2024-02-29")].
Proof.
  destruct (sort_by_priority mixed_state) as [[[_ ->]|[Hex _]] _]; [reflexivity|].
  exfalso. apply Exists_exists in Hex as (t & Ht & Hn). apply Hn.
  repeat (apply elem_of_cons in Ht as [->|Ht]; [exact I|]).
  by apply elem_of_nil in Ht.
Defined.

(** C5 (as amended) at a store whose due dates all name a day, one of
    them in the form YYYY-MM-DD and two of them not, sorted in ascending
    order. *)
Lemma sort_by_due_date_witness :
  exists l',
    sort_tasks "due_date" false lenient_state
    = (Ok l', mkState (mkTaskManager "tasks.json" l') ∅ []) /\
    l' ≡ₚ tasks (self lenient_state) /\
    StronglySorted (in_calendar_order false) l'.
Proof.
  apply (sort_by_due_date false lenient_state).
  repeat constructor; eexists; apply due_parsed; vm_compute; reflexivity.
Defined.

(** C9 at a store of five tasks, sorted by name in descending order. *)
Lemma sort_tasks_idempotent_witness :
  let r := sort_tasks "name" true mixed_state in
  sort_tasks "name" true r.2 = (Ok (tasks (self r.2)), r.2).
Proof.
  apply (sort_tasks_idempotent "name" true mixed_state).
  vm_compute. reflexivity.
Defined.

(** C5, refuted as stated.  The due date 2024-1-5 is not in the form
    YYYY-MM-DD, yet the parser reads it as the fifth of January 2024, and a
    sort by due date of a store that holds it does not raise. *)
Lemma sort_accepts_short_date : ~ raises_iff_not_iso false short_date_state.
Proof.
  intros [_ H]. destruct H as [e He].
  - apply Exists_cons. left.
    intros (y1 & y2 & y3 & y4 & m1 & m2 & d1 & d2 & Heq & _). simpl in Heq.
    discriminate Heq.
  - vm_compute in He. discriminate He.
Qed.

(** C3, refuted as stated.  The constructor builds a store on a file whose
    record has a number for its name; with a name filter given, the filter
    lowers that name and raises [AttributeError]. *)
Lemma filter_raises_on_number_name :
  ~ filters_correctly (Some "a") None None foreign_state.
Proof. intros (keep & _ & H). vm_compute in H. discriminate H. Qed.

(** C4, refuted as stated.  The constructor builds a store on a file whose
    record has null for its priority; the sort by priority lowers that
    priority and raises [AttributeError], where a priority that is none of
    high, medium and low was to sort last. *)
Lemma sort_raises_on_null_priority : ~ sorts_by_priority foreign_state.
Proof. intros H. vm_compute in H. discriminate H. Qed.

(** ** Remarks *)

(** The constructor builds a store on the foreign file without an error,
    and keeps the number and the null of the record as they are. *)
Lemma foreign_state_loaded :
  __init__ "tasks.json" foreign_disk = (Ok tt, foreign_state) /\
  tasks (self foreign_state)
  = [mkTask (PInt 7) (PStr "") PNone (PStr "2025-04-30")].
Proof. by vm_compute. Qed.

(** The validator and the parser of the sort disagree on some strings:
    [int] takes a sign, so the validator accepts 2024-+1-+1, which the
    parser rejects; the parser takes one-digit fields, so it accepts
    2024-1-5, which the validator rejects for its length. *)
Lemma validator_and_parser_disagree :
  validate_date "2024-+1-+1" = Ok true /\
  strptime "2024-+1-+1" = Raise ValueError /\
  validate_date "2024-1-5" = Ok false /\
  strptime "2024-1-5" = Ok (2024, 1, 5).
Proof. by vm_compute. Qed.

(** The scenario of the contract: an empty store over no file; a task is
    added, found by its priority, left in place by a sort, and deleted; a
    store built on the file afterwards is empty. *)
Lemma scenario :
  let st0 := (__init__ "tasks.json" ∅).2 in
  let st1 := (add_task (PStr "Report") (PStr "Finish Q1 report") (PStr "high")
                (PStr "2025-04-30") st0).2 in
  let st2 := (sort_tasks "priority" false st1).2 in
  let st3 := (delete_task 0 st2).2 in
  tasks (self st0) = [] /\
  tasks (self st1) = [example_task] /\
  (get_filtered_tasks PNone (PStr "high") PNone st1).1 = Ok [example_task] /\
  tasks (self st2) = [example_task] /\
  (delete_task 0 st2).1 = Ok true /\
  tasks (self st3) = [] /\
  __init__ "tasks.json" (disk st3) = (Ok tt, mkState (mkTaskManager "tasks.json" []) (disk st3) []).
Proof. by vm_compute. Qed.

(** * Further properties of the store *)

(** ** Task.from_dict *)

(** X1.  [Task.from_dict] succeeds exactly on a mapping that has the four keys,
    and the task it returns holds the values at those keys, whatever other
    keys the mapping has; on anything else it raises.  It inverts
    [to_dict]. *)
Theorem from_dict_spec (v : pyval) (t : Task) :
  (from_dict v = Ok t <->
   exists m, v = PDict m /\
     m !! "name" = Some (name t) /\ m !! "description" = Some (description t) /\
     m !! "priority" = Some (priority t) /\ m !! "due_date" = Some (due_date t)) /\
  from_dict (to_dict t) = Ok t /\
  (forall m k x, to_dict t = PDict m ->
     k ∉ ["name"; "description"; "priority"; "due_date"] ->
     from_dict (PDict (<[k := x]> m)) = Ok t).
Proof.
  split_and!.
  - unfold from_dict, py_getitem. split.
    + destruct v as [| | | | | |m]; try done.
      destruct (m !! "name") as [n|] eqn:En; simpl; [|done].
      destruct (m !! "description") as [d|] eqn:Ed; simpl; [|done].
      destruct (m !! "priority") as [p|] eqn:Ep; simpl; [|done].
      destruct (m !! "due_date") as [dd|] eqn:Edd; simpl; [|done].
      intros [= <-]. by exists m.
    + intros (m & -> & -> & -> & -> & ->). simpl. by destruct t.
  - apply from_dict_to_dict.
  - intros m k x [= <-] Hk. destruct t as [n d p dd]. unfold from_dict, py_getitem; simpl.
    rewrite !not_elem_of_cons in Hk. destruct Hk as (? & ? & ? & ? & _).
    by simplify_map_eq.
Qed.

(** X2.  A mapping that lacks one of the four keys makes [Task.from_dict] raise
    [KeyError] for the first key it lacks, in the order name, description,
    priority, due_date; a value that is no mapping makes it raise
    [TypeError]. *)
Theorem from_dict_errors (v : pyval) :
  match v with
  | PDict m =>
      match List.find (fun k => bool_decide (m !! k = None))
                      ["name"; "description"; "priority"; "due_date"]%string with
      | Some k => from_dict v = Raise (KeyError k)
      | None => exists t, from_dict v = Ok t
      end
  | _ => from_dict v = Raise TypeError
  end.
Proof.
  destruct v as [| | | | | |m]; try done.
  unfold from_dict, py_getitem. simpl.
  destruct (m !! "name") as [n|]; simpl; [|done].
  destruct (m !! "description") as [d|]; simpl; [|done].
  destruct (m !! "priority") as [p|]; simpl; [|done].
  destruct (m !! "due_date") as [dd|]; simpl; [|done].
  by eexists.
Qed.

(** ** Loading *)

Lemma from_dict_raises (v : pyval) (e : exn) :
  from_dict v = Raise e -> e = TypeError \/ exists k, e = KeyError k.
Proof.
  unfold from_dict, py_getitem. destruct v as [| | | | | |m]; simpl;
    try (intros [= <-]; by left).
  destruct (m !! "name"); simpl; [|intros [= <-]; right; by eexists].
  destruct (m !! "description"); simpl; [|intros [= <-]; right; by eexists].
  destruct (m !! "priority"); simpl; [|intros [= <-]; right; by eexists].
  destruct (m !! "due_date"); simpl; [done|intros [= <-]; right; by eexists].
Qed.

Lemma comprehension_ok {A B} (f : A -> result B) (l : list A) (ys : list B) :
  comprehension f l = Ok ys <-> Forall2 (fun x y => f x = Ok y) l ys.
Proof.
  revert ys. induction l as [|x l IH]; intros ys; simpl.
  - split; [intros [= <-]; constructor|by intros ->%Forall2_nil_inv_l].
  - destruct (f x) as [y|e] eqn:Hx; simpl.
    + destruct (comprehension f l) as [ys'|e] eqn:Hl; simpl.
      * split.
        -- intros [= <-]. constructor; [done|]. by apply IH.
        -- intros (y' & ys'' & Hy & Hys & ->)%Forall2_cons_inv_l.
           apply IH in Hys. congruence.
      * split; [done|].
        intros (y' & ys'' & Hy & Hys & ->)%Forall2_cons_inv_l.
        apply IH in Hys. done.
    + split; [done|].
      intros (y' & ys'' & Hy & Hys & ->)%Forall2_cons_inv_l. congruence.
Qed.

(** X3.  Loading a file that holds a sequence.  When every item is a mapping
    with the four keys the store takes the tasks of the items, in their
    order.  When some item is not, the load raises what [Task.from_dict]
    raises on such an item, a [KeyError] or a [TypeError]; no handler
    catches it, and the store is left as it was before the load. *)
Theorem load_sequence_document (st : state) (l : list pyval) :
  disk st !! json_file (self st) = Some (Document (PList l)) ->
  (forall ts, Forall2 (fun v t => from_dict v = Ok t) l ts ->
     load_tasks_from_json st
     = (Ok tt, mkState (mkTaskManager (json_file (self st)) ts) (disk st) (writes st))) /\
  (Exists (fun v => exists e, from_dict v = Raise e) l ->
     exists e, load_tasks_from_json st = (Raise e, st) /\
               (e = TypeError \/ exists k, e = KeyError k)).
Proof.
  intros Hf. unfold load_tasks_from_json, open_r. rewrite Hf. simpl. split.
  - intros ts Hts. apply comprehension_ok in Hts. by rewrite Hts.
  - intros Hex. apply comprehension_raises in Hex as [e He].
    rewrite He. exists e.
    apply comprehension_raised_by in He as (v & _ & Hv).
    apply from_dict_raises in Hv. split; [|done].
    by destruct Hv as [->|[k ->]].
Qed.

(** X3 at a concrete input. *)
Lemma load_sequence_document_witness :
  load_tasks_from_json example_state = (Ok tt, example_state) /\
  exists e,
    load_tasks_from_json
      (mkState (mkTaskManager "tasks.json" [example_task])
               {["tasks.json" := Document (PList [to_dict example_task; PInt 7])]} [])
    = (Raise e,
       mkState (mkTaskManager "tasks.json" [example_task])
               {["tasks.json" := Document (PList [to_dict example_task; PInt 7])]} []) /\
    (e = TypeError \/ exists k, e = KeyError k).
Proof.
  split.
  - refine (proj1 (load_sequence_document example_state [to_dict example_task] _)
              [example_task] _); [reflexivity|].
    repeat constructor.
  - refine (proj2 (load_sequence_document
                     (mkState (mkTaskManager "tasks.json" [example_task])
                        {["tasks.json" := Document (PList [to_dict example_task; PInt 7])]} [])
                     [to_dict example_task; PInt 7] _) _); [reflexivity|].
    right. left. by exists TypeError.
Defined.

(** X4.  Loading a file that holds a document which is no sequence.  The empty
    mapping and the empty string are iterated as nothing, and the store
    becomes empty without an error; every other such document raises
    [TypeError] out of the load and the store is left as it was. *)
Theorem load_non_sequence_document (st : state) (v : pyval) :
  disk st !! json_file (self st) = Some (Document v) ->
  (forall l, v <> PList l) ->
  (v = PDict ∅ \/ v = PStr EmptyString ->
     load_tasks_from_json st
     = (Ok tt, mkState (mkTaskManager (json_file (self st)) []) (disk st) (writes st))) /\
  (v <> PDict ∅ -> v <> PStr EmptyString ->
     load_tasks_from_json st = (Raise TypeError, st)).
Proof.
  intros Hf Hl. unfold load_tasks_from_json, open_r. rewrite Hf. simpl. split.
  - intros [-> | ->]; simpl; [|done]. by rewrite map_to_list_empty.
  - intros Hd Hs. destruct v as [|b|z|bits|s|l|m]; simpl; try done.
    + by destruct s.
    + by destruct (Hl l).
    + destruct (map_to_list m) as [|[k x] kxs] eqn:Hm; simpl; [|done].
      by apply map_to_list_empty_iff in Hm as ->.
Qed.

(** X4 at a concrete input. *)
Lemma load_non_sequence_document_witness :
  load_tasks_from_json
    (mkState (mkTaskManager "tasks.json" [example_task]) {["tasks.json" := Document (PDict ∅)]} [])
  = (Ok tt, mkState (mkTaskManager "tasks.json" []) {["tasks.json" := Document (PDict ∅)]} []) /\
  load_tasks_from_json
    (mkState (mkTaskManager "tasks.json" [example_task]) {["tasks.json" := Document PNone]} [])
  = (Raise TypeError,
     mkState (mkTaskManager "tasks.json" [example_task]) {["tasks.json" := Document PNone]} []).
Proof.
  split.
  - refine (proj1 (load_non_sequence_document
                     (mkState (mkTaskManager "tasks.json" [example_task])
                        {["tasks.json" := Document (PDict ∅)]} [])
                     (PDict ∅) _ _) _); [reflexivity|done|by left].
  - refine (proj2 (load_non_sequence_document
                     (mkState (mkTaskManager "tasks.json" [example_task])
                        {["tasks.json" := Document PNone]} [])
                     PNone _ _) _ _); [reflexivity|done|done|done].
Defined.

Lemma load_other_tasks (st : state) (ts : list Task) :
  load_tasks_from_json (mkState (mkTaskManager (json_file (self st)) ts) (disk st) (writes st))
  = match (load_tasks_from_json st).1 with
    | Ok _ => load_tasks_from_json st
    | Raise e =>
        (Raise e, mkState (mkTaskManager (json_file (self st)) ts) (disk st) (writes st))
    end.
Proof.
  unfold load_tasks_from_json; simpl.
  destruct (rbind (open_r _ _) _) as [ts'|e]; simpl; [done|].
  by destruct e.
Qed.

Lemma load_raise_unchanged (st : state) (e : exn) :
  (load_tasks_from_json st).1 = Raise e -> (load_tasks_from_json st).2 = st.
Proof.
  unfold load_tasks_from_json.
  destruct (rbind (open_r _ _) _) as [ts'|e']; simpl; [done|].
  by destruct e'.
Qed.

Lemma load_ok_state (st : state) :
  (load_tasks_from_json st).1 = Ok tt ->
  exists ts, (load_tasks_from_json st).2
             = mkState (mkTaskManager (json_file (self st)) ts) (disk st) (writes st).
Proof.
  unfold load_tasks_from_json.
  destruct (rbind (open_r _ _) _) as [ts'|e']; simpl; [by eexists|].
  destruct e'; simpl; intros H; try done; by eexists.
Qed.

(** X5.  A load reads the file and nothing else: its outcome and the tasks it
    leaves do not depend on the tasks the store held, and a second load in
    a row gives the same outcome and the same store. *)
Theorem load_depends_on_file_only (st : state) (ts : list Task) :
  let st' := mkState (mkTaskManager (json_file (self st)) ts) (disk st) (writes st) in
  (load_tasks_from_json st').1 = (load_tasks_from_json st).1 /\
  ((load_tasks_from_json st).1 = Ok tt ->
     (load_tasks_from_json st').2 = (load_tasks_from_json st).2) /\
  load_tasks_from_json (load_tasks_from_json st).2 = load_tasks_from_json st.
Proof.
  cbv zeta. rewrite load_other_tasks.
  destruct (load_tasks_from_json st) as [r st1] eqn:E. simpl.
  destruct r as [[]|e]; simpl.
  - split_and!; try done.
    destruct (load_ok_state st) as [ts' Hts']; [by rewrite E|].
    rewrite E in Hts'. simpl in Hts'. subst st1.
    rewrite load_other_tasks. by rewrite E.
  - split_and!; try done.
    pose proof (load_raise_unchanged st e) as Hu. rewrite E in Hu.
    simpl in Hu. specialize (Hu eq_refl). subst st1. exact E.
Qed.

(** ** Mutations reach the file *)

Lemma init_after_save (st : state) :
  __init__ (json_file (self st)) (disk (save_tasks_to_json st).2)
  = (Ok tt, mkState (self st) (disk (save_tasks_to_json st).2) []).
Proof.
  rewrite (init_loads_in_order _ _ (tasks (self st))) by apply save_synced.
  by destruct st as [[f l] dk w].
Qed.

(** X6.  After [add_task], and after an [update_task] or a [delete_task] that
    returned [True], a store built anew on the backing file holds exactly
    the tasks the mutated store holds in memory, in the same order (tasks
    of the data model, as in the round trip). *)
Theorem mutations_persist (st : state) (index : Z) (n d p dd : pyval) :
  Forall Task_wf (tasks (self st)) -> Task_wf (mkTask n d p dd) ->
  let reload (st' : state) :=
    __init__ (json_file (self st')) (disk st') = (Ok tt, mkState (self st') (disk st') []) in
  reload (add_task n d p dd st).2 /\
  ((update_task index n d p dd st).1 = Ok true -> reload (update_task index n d p dd st).2) /\
  ((delete_task index st).1 = Ok true -> reload (delete_task index st).2).
Proof.
  intros _ _ reload. subst reload. cbv beta. split_and!.
  - exact (init_after_save
             (mkState (mkTaskManager (json_file (self st)) (tasks (self st) ++ [mkTask n d p dd]))
                      (disk st) (writes st))).
  - unfold update_task. destruct (in_bounds index st); [intros _|done].
    exact (init_after_save
             (mkState (mkTaskManager (json_file (self st))
                         (<[Z.to_nat index := mkTask n d p dd]> (tasks (self st))))
                      (disk st) (writes st))).
  - unfold delete_task. destruct (in_bounds index st); [intros _|done].
    exact (init_after_save
             (mkState (mkTaskManager (json_file (self st))
                         (delete (Z.to_nat index) (tasks (self st))))
                      (disk st) (writes st))).
Qed.

(** X6 at a concrete input. *)
Lemma mutations_persist_witness :
  let st' := (add_task (PStr "Call") (PStr "") (PStr "low") (PStr "2025-03-01")
                example_state).2 in
  __init__ "tasks.json" (disk st')
  = (Ok tt, mkState (mkTaskManager "tasks.json" [example_task; other_task]) (disk st') []).
Proof.
  refine (proj1 (mutations_persist example_state 0
                   (PStr "Call") (PStr "") (PStr "low") (PStr "2025-03-01") _ _));
    repeat constructor.
Defined.

(** ** How the mutations compose *)

Lemma delete_last {A} (l : list A) (x : A) : delete (length l) (l ++ [x]) = l.
Proof.
  induction l as [|y l IH]; simpl; [done|]. by rewrite IH.
Qed.

(** X7.  Deleting the task that [add_task] has just appended (it stands at the
    index that was the length) succeeds and gives back the sequence there
    was before the add; updating a task and then deleting it is the same
    for the sequence as deleting it; and of two updates of one index the
    second one stays. *)
Theorem mutations_compose (st : state) (index : Z) (n d p dd n' d' p' dd' : pyval) :
  let tasks_after (r : result bool * state) := tasks (self r.2) in
  (delete_task (Z.of_nat (length (tasks (self st)))) (add_task n d p dd st).2).1 = Ok true /\
  tasks_after (delete_task (Z.of_nat (length (tasks (self st)))) (add_task n d p dd st).2)
  = tasks (self st) /\
  tasks_after (delete_task index (update_task index n d p dd st).2)
  = tasks_after (delete_task index st) /\
  tasks_after (update_task index n' d' p' dd' (update_task index n d p dd st).2)
  = tasks_after (update_task index n' d' p' dd' st).
Proof.
  cbv zeta beta. split_and!.
  - unfold delete_task, add_task, in_bounds; simpl.
    rewrite length_app; simpl.
    assert ((0 <=? Z.of_nat (length (tasks (self st)))) &&
            (Z.of_nat (length (tasks (self st))) <?
             Z.of_nat (length (tasks (self st)) + 1)) = true) as ->; [|done].
    apply andb_true_iff. split; [apply Z.leb_le|apply Z.ltb_lt]; lia.
  - unfold delete_task, add_task, in_bounds; simpl.
    rewrite length_app; simpl.
    assert ((0 <=? Z.of_nat (length (tasks (self st)))) &&
            (Z.of_nat (length (tasks (self st))) <?
             Z.of_nat (length (tasks (self st)) + 1)) = true) as ->.
    { apply andb_true_iff. split; [apply Z.leb_le|apply Z.ltb_lt]; lia. }
    simpl. by rewrite Nat2Z.id, delete_last.
  - unfold delete_task, update_task, in_bounds.
    destruct ((0 <=? index) && (index <? Z.of_nat (length (tasks (self st))))) eqn:E; simpl;
      [|by rewrite E].
    rewrite length_insert, E. simpl.
    apply andb_true_iff in E as [? ?].
    apply list_eq. intros j.
    destruct (decide (j < Z.to_nat index)%nat).
    + by rewrite !list_lookup_delete_lt, list_lookup_insert_ne by lia.
    + by rewrite !list_lookup_delete_ge, list_lookup_insert_ne by lia.
  - unfold update_task, in_bounds.
    destruct ((0 <=? index) && (index <? Z.of_nat (length (tasks (self st))))) eqn:E; simpl;
      [|by rewrite E].
    rewrite length_insert, E. simpl. by rewrite list_insert_insert_eq.
Qed.

(** ** Sorting: what every sort keeps *)

Lemma list_sort_perm {K A} (ltb : K -> K -> bool) (key : A -> result K)
    (reverse : bool) (l l1 : list A) :
  list_sort ltb key reverse l = Ok l1 -> l1 ≡ₚ l.
Proof.
  intros H.
  destruct (comprehension key l) as [keys|e] eqn:Hk;
    [|by rewrite (list_sort_raises _ _ _ _ _ Hk) in H].
  rewrite (list_sort_decorated _ _ _ _ _ Hk) in H. injection H as <-.
  destruct (comprehension_keyed _ _ _ Hk) as [_ Hsnd].
  by rewrite sorted_decorated_perm, Hsnd.
Qed.

(** X8.  A sort, whatever the key and the direction, neither drops nor adds a
    task: when it succeeds the store holds a rearrangement of the tasks it
    held, which is also what is returned; when it raises the store is
    exactly as it was. *)
Theorem sort_tasks_keeps_tasks (sort_key : string) (reverse : bool) (st : state) :
  match sort_tasks sort_key reverse st with
  | (Ok l1, st1) =>
      l1 ≡ₚ tasks (self st) /\ length l1 = length (tasks (self st)) /\
      st1 = mkState (mkTaskManager (json_file (self st)) l1) (disk st) (writes st)
  | (Raise _, st1) => st1 = st
  end.
Proof.
  unfold sort_tasks.
  destruct (if String.eqb sort_key "name" then _ else _) as [l1|e] eqn:E; [|done].
  assert (l1 ≡ₚ tasks (self st)) as Hp.
  { destruct (String.eqb sort_key "name"); [by eapply list_sort_perm|].
    destruct (String.eqb sort_key "priority"); [by eapply list_sort_perm|].
    destruct (String.eqb sort_key "due_date"); [by eapply list_sort_perm|].
    by injection E as <-. }
  split_and!; [done|by rewrite Hp|done].
Qed.

(** ** Sorting: stability *)

Section Stability.
Context {K A : Type} (ltb : K -> K -> bool) (p : K -> bool).
Hypothesis below_class : forall a b, p b = true -> ltb a b = true -> p a = false.

Lemma insert_by_filter (x : K * A) (l : list (K * A)) :
  List.filter (fun y => p (fst y)) (insert_by ltb x l)
  = List.filter (fun y => p (fst y)) (x :: l).
Proof.
  induction l as [|y l IH]; [done|].
  cbn [insert_by]. destruct (ltb (fst y) (fst x)) eqn:Hlt; [|done].
  cbn [List.filter] in *. rewrite IH.
  destruct (p (fst x)) eqn:Hx; [|done].
  by rewrite (below_class _ _ Hx Hlt).
Qed.

Lemma stable_sort_filter (l : list (K * A)) :
  List.filter (fun y => p (fst y)) (stable_sort ltb l) = List.filter (fun y => p (fst y)) l.
Proof.
  induction l as [|x l IH]; [done|].
  change (stable_sort ltb (x :: l)) with (insert_by ltb x (stable_sort ltb l)).
  rewrite insert_by_filter. cbn [List.filter]. by rewrite IH.
Qed.

Lemma sorted_decorated_filter (reverse : bool) (l : list (K * A)) :
  List.filter (fun y => p (fst y)) (sorted_decorated ltb reverse l)
  = List.filter (fun y => p (fst y)) l.
Proof.
  unfold sorted_decorated. destruct reverse; [|apply stable_sort_filter].
  by rewrite filter_rev, stable_sort_filter, filter_rev, rev_involutive.
Qed.
End Stability.

Lemma filter_undecorate {K} (key : Task -> result K) (eqb : K -> K -> bool) (k : K)
    (dec : list (K * Task)) :
  keyed key dec ->
  List.filter (has_key key eqb k) (map snd dec)
  = map snd (List.filter (fun y => eqb (fst y) k) dec).
Proof.
  induction 1 as [|[k' t] dec Hk _ IH]; [done|].
  cbn [map List.filter]. unfold has_key at 1. simpl in *. rewrite Hk.
  destruct (eqb k' k); simpl; by rewrite IH.
Qed.

(** A successful [list_sort] keeps the items of one key in their order. *)
Lemma list_sort_stable {K} (ltb eqb : K -> K -> bool) (key : Task -> result K)
    (reverse : bool) (l l1 : list Task) (k : K) :
  (forall a b, eqb a b = true <-> a = b) ->
  (forall a, ltb a a = false) ->
  list_sort ltb key reverse l = Ok l1 ->
  List.filter (has_key key eqb k) l1 = List.filter (has_key key eqb k) l.
Proof.
  intros Heq Hirr H.
  destruct (comprehension key l) as [keys|e] eqn:Hk;
    [|by rewrite (list_sort_raises _ _ _ _ _ Hk) in H].
  rewrite (list_sort_decorated _ _ _ _ _ Hk) in H. injection H as <-.
  destruct (comprehension_keyed _ _ _ Hk) as [Hkeyed Hsnd].
  rewrite filter_undecorate.
  - rewrite (sorted_decorated_filter ltb (fun k' => eqb k' k)).
    + rewrite <- (filter_undecorate key eqb k) by done. by rewrite Hsnd.
    + intros a b ->%Heq Hlt. apply not_true_is_false. intros ->%Heq.
      by rewrite Hirr in Hlt.
  - eapply keyed_perm; [|exact Hkeyed]. symmetry. apply sorted_decorated_perm.
Qed.

Lemma string_ltb_irrefl (a : string) : String.ltb a a = false.
Proof.
  destruct (String.ltb a a) eqn:E; [|done]. by rewrite (string_ltb_asym _ _ E) in E.
Qed.

Lemma date_eqb_eq (a b : date) : date_eqb a b = true <-> a = b.
Proof.
  destruct a as [[y1 m1] d1], b as [[y2 m2] d2]. unfold date_eqb.
  rewrite !andb_true_iff, !Z.eqb_eq. split; [by intros [[-> ->] ->]|by intros [= -> -> ->]].
Qed.

Lemma date_ltb_irrefl (a : date) : date_ltb a a = false.
Proof.
  destruct (date_ltb a a) eqn:E; [|done]. by rewrite (date_ltb_asym _ _ E) in E.
Qed.

(** X9.  The sorts are stable, in both directions: after a successful sort by
    name, the tasks of any one lower-case name stand in the order they had
    before, and so do the tasks of any one priority rank after a sort by
    priority and the tasks of any one date after a sort by due date. *)
Theorem sort_tasks_stable (reverse : bool) (st st1 : state) (l1 : list Task) :
  (sort_tasks "name" reverse st = (Ok l1, st1) ->
     forall k, List.filter (has_key name_key String.eqb k) l1
               = List.filter (has_key name_key String.eqb k) (tasks (self st))) /\
  (sort_tasks "priority" reverse st = (Ok l1, st1) ->
     forall k, List.filter (has_key priority_key Z.eqb k) l1
               = List.filter (has_key priority_key Z.eqb k) (tasks (self st))) /\
  (sort_tasks "due_date" reverse st = (Ok l1, st1) ->
     forall k, List.filter (has_key due_date_key date_eqb k) l1
               = List.filter (has_key due_date_key date_eqb k) (tasks (self st))).
Proof.
  unfold sort_tasks. simpl String.eqb. cbv iota. split_and!.
  - destruct (list_sort String.ltb _ reverse _) as [l|e] eqn:E; [|done].
    intros [= <- _] k.
    apply (list_sort_stable String.ltb String.eqb name_key reverse _ _ k);
      [apply String.eqb_eq|apply string_ltb_irrefl|exact E].
  - destruct (list_sort Z.ltb _ reverse _) as [l|e] eqn:E; [|done].
    intros [= <- _] k.
    apply (list_sort_stable Z.ltb Z.eqb priority_key reverse _ _ k);
      [apply Z.eqb_eq|apply Z.ltb_irrefl|exact E].
  - destruct (list_sort date_ltb _ reverse _) as [l|e] eqn:E; [|done].
    intros [= <- _] k.
    apply (list_sort_stable date_ltb date_eqb due_date_key reverse _ _ k);
      [apply date_eqb_eq|apply date_ltb_irrefl|exact E].
Qed.

(** X9 at a concrete input. *)
Lemma sort_tasks_stable_witness :
  List.filter (has_key due_date_key date_eqb (2025, 3, 1))
    (tasks (self (sort_tasks "due_date" true mixed_state).2))
  = [mkTask (PStr "walk") (PStr "") (PStr "low") (PStr "2025-03-01");
     mkTask (PStr "Mail") (PStr "") (PStr "Medium") (PStr "2025-03-01")].
Proof.
  pose proof (sort_tasks_stable true mixed_state
                (sort_tasks "due_date" true mixed_state).2
                (tasks (self (sort_tasks "due_date" true mixed_state).2))) as (_ & _ & H).
  rewrite H; [reflexivity|]. vm_compute. reflexivity.
Defined.

(** ** Sorting by priority, descending *)

Lemma bucket_rev {A} (r : Z) (dec : list (Z * A)) : bucket r (rev dec) = rev (bucket r dec).
Proof. apply filter_rev. Qed.

Lemma by_priority_descending_sort (l : list Task) :
  map snd (sorted_decorated Z.ltb true (map (fun t => (priority_rank t, t)) l))
  = by_priority_descending l.
Proof.
  unfold sorted_decorated, by_priority_descending. rewrite stable_sort_buckets.
  - rewrite !bucket_rev, !rev_app_distr, !rev_involutive, <- !app_assoc.
    by rewrite !map_app, !bucket_decorate.
  - apply Forall_rev, Forall_map, Forall_forall. intros t _. apply priority_rank_range.
Qed.

(** X10.  On a store of tasks of the data model a sort by priority in descending
    order leaves and returns the tasks of no known priority first, then
    low, then medium, then high; within each group the tasks keep the order
    they had before the sort: the groups are reversed, the tasks in them
    are not. *)
Theorem sort_by_priority_descending (st : state) :
  Forall Task_wf (tasks (self st)) ->
  let l := tasks (self st) in
  sort_tasks "priority" true st
  = (Ok (by_priority_descending l),
     mkState (mkTaskManager (json_file (self st)) (by_priority_descending l))
             (disk st) (writes st)).
Proof.
  intros Hwf l. unfold sort_tasks. simpl String.eqb. cbv iota.
  assert (comprehension priority_key l = Ok (map priority_rank l)) as Hk.
  { apply comprehension_pure. eapply Forall_impl; [exact Hwf|]. apply priority_key_wf. }
  fold l. rewrite (list_sort_decorated _ _ _ _ _ Hk).
  by rewrite zip_decorate, by_priority_descending_sort.
Qed.

(** X10 at a concrete input. *)
Lemma sort_by_priority_descending_witness :
  (sort_tasks "priority" true mixed_state).1
  = Ok [mkTask (PStr "read") (PStr "") (PStr "someday") (PStr "2024-02-29");
        mkTask (PStr "walk") (PStr "") (PStr "low") (PStr "2025-03-01");
        mkTask (PStr "Mail") (PStr "") (PStr "Medium") (PStr "2025-03-01");
        mkTask (PStr "Taxes") (PStr "") (PStr "HIGH") (PStr "2025-04-15");
        example_task].
Proof.
  assert (Forall Task_wf (tasks (self mixed_state))) as Hwf by repeat constructor.
  rewrite (sort_by_priority_descending mixed_state Hwf). reflexivity.
Defined.

(** ** Sorting by name *)

Lemma string_leb_trans (a b c : string) :
  String.leb a b = true -> String.leb b c = true -> String.leb a c = true.
Proof.
  unfold String.leb. intros Hab Hbc.
  destruct (String.compare a b) eqn:Eab; [| |done].
  - by apply String.compare_eq_iff in Eab as ->.
  - destruct (String.compare b c) eqn:Ebc; [| |done].
    + apply String.compare_eq_iff in Ebc as <-. by rewrite Eab.
    + apply OrderedTypeEx.String_as_OT.cmp_lt in Eab, Ebc.
      pose proof (OrderedTypeEx.String_as_OT.lt_trans _ _ _ Eab Ebc) as Hac.
      apply OrderedTypeEx.String_as_OT.cmp_lt in Hac.
      unfold OrderedTypeEx.String_as_OT.cmp in Hac. by rewrite Hac.
Qed.

Lemma string_ordered_leb (a b : string) : String.ltb b a = false <-> String.leb a b = true.
Proof.
  unfold String.ltb, String.leb. rewrite (String.compare_antisym b a).
  by destruct (String.compare a b).
Qed.

Lemma Sorted_weaken {A} (R R' : A -> A -> Prop) (l : list A) :
  (forall a b, R a b -> R' a b) -> Sorted R l -> Sorted R' l.
Proof.
  intros HR. induction 1 as [|x l _ IH Hhd]; constructor; [done|].
  destruct Hhd; constructor. by apply HR.
Qed.

Lemma name_sorted_decorated {A} (reverse : bool) (dec : list (string * A)) :
  StronglySorted
    (fun p q => if reverse then String.leb (fst q) (fst p) = true
                else String.leb (fst p) (fst q) = true)
    (sorted_decorated String.ltb reverse dec).
Proof.
  assert (forall l : list (string * A),
            StronglySorted (fun p q => String.leb (fst p) (fst q) = true)
                           (stable_sort String.ltb l)) as Hs.
  { intros l. apply Sorted_StronglySorted.
    - intros p q r. apply string_leb_trans.
    - eapply Sorted_weaken; [|apply (stable_sort_sorted String.ltb string_ltb_asym)].
      intros p q. apply string_ordered_leb. }
  unfold sorted_decorated. destruct reverse; [|apply Hs].
  apply (StronglySorted_rev (fun p q => String.leb (fst p) (fst q) = true)), Hs.
Qed.

Lemma name_key_wf (t : Task) : Task_wf t -> name_key t = Ok (lower (str_of (name t))).
Proof. intros (Hn & _). by apply py_lower_wf. Qed.

(** X11.  On a store of tasks of the data model a sort by name succeeds, keeps
    the tasks, and leaves them ordered by their names without regard to
    case, code point by code point: ascending, or descending with
    [reverse]. *)
Theorem sort_by_name (reverse : bool) (st : state) :
  Forall Task_wf (tasks (self st)) ->
  exists l',
    sort_tasks "name" reverse st
    = (Ok l', mkState (mkTaskManager (json_file (self st)) l') (disk st) (writes st)) /\
    l' ≡ₚ tasks (self st) /\
    StronglySorted (fun a b => if reverse then name_le b a else name_le a b) l'.
Proof.
  intros Hwf. unfold sort_tasks. simpl String.eqb. cbv iota.
  set (l := tasks (self st)) in *.
  assert (comprehension name_key l = Ok (map (fun t => lower (str_of (name t))) l)) as Hk.
  { apply comprehension_pure. eapply Forall_impl; [exact Hwf|]. apply name_key_wf. }
  change (fun task => py_lower (name task)) with name_key.
  rewrite (list_sort_decorated _ _ _ _ _ Hk).
  destruct (comprehension_keyed _ _ _ Hk) as [Hkeyed Hsnd].
  eexists. split; [reflexivity|]. split.
  - by rewrite sorted_decorated_perm, Hsnd.
  - apply (StronglySorted_undecorate name_key (fun t => lower (str_of (name t)))
             (fun a b => if reverse then String.leb b a = true else String.leb a b = true)).
    + intros t k Ht. unfold name_key, py_lower in Ht. by destruct (name t); simplify_eq.
    + eapply keyed_perm; [|exact Hkeyed]. symmetry. apply sorted_decorated_perm.
    + destruct reverse;
        [exact (name_sorted_decorated true _)|exact (name_sorted_decorated false _)].
Qed.

(** X11 at a concrete input. *)
Lemma sort_by_name_witness :
  exists l',
    sort_tasks "name" false mixed_state
    = (Ok l', mkState (mkTaskManager "tasks.json" l') ∅ []) /\
    l' ≡ₚ tasks (self mixed_state) /\
    StronglySorted (fun a b => name_le a b) l'.
Proof.
  apply (sort_by_name false mixed_state). repeat constructor.
Defined.

(** ** Sorting: when it raises *)

Lemma py_lower_raises (v : pyval) (e : exn) :
  py_lower v = Raise e -> e = AttributeError /\ ~ is_str v.
Proof. destruct v; simpl; try done; intros [= <-]; (split; [done|tauto]). Qed.

Lemma py_lower_raises_iff (v : pyval) : (exists e, py_lower v = Raise e) <-> ~ is_str v.
Proof.
  destruct v; simpl; split; try (intros [e He]; discriminate He); try tauto;
    intros _; by eexists.
Qed.

(** X12.  A sort by name raises exactly when the name of some task is not a
    string, and a sort by priority exactly when some priority is not a
    string; what is raised is [AttributeError], and the store is left as it
    was.  So neither raises on a store of tasks of the data model. *)
Theorem sort_by_name_or_priority_raises (reverse : bool) (st : state) :
  let l := tasks (self st) in
  ((exists e, (sort_tasks "name" reverse st).1 = Raise e) <->
     Exists (fun t => ~ is_str (name t)) l) /\
  ((exists e, (sort_tasks "priority" reverse st).1 = Raise e) <->
     Exists (fun t => ~ is_str (priority t)) l) /\
  (forall sort_key e, sort_key = "name"%string \/ sort_key = "priority"%string ->
     (sort_tasks sort_key reverse st).1 = Raise e ->
     e = AttributeError /\ (sort_tasks sort_key reverse st).2 = st).
Proof.
  intros l.
  assert (forall (K : Type) (ltb : K -> K -> bool) (key : Task -> result K)
                 (field : Task -> pyval),
            (forall t, (exists e, key t = Raise e) <-> ~ is_str (field t)) ->
            (exists e, list_sort ltb key reverse l = Raise e) <->
            Exists (fun t => ~ is_str (field t)) l) as Hiff.
  { intros K ltb key field Hkey.
    transitivity (Exists (fun t => exists e, key t = Raise e) l).
    - rewrite <- comprehension_raises.
      destruct (comprehension key l) as [keys|e] eqn:Hk.
      + rewrite (list_sort_decorated _ _ _ _ _ Hk). split; by intros [e ?].
      + rewrite (list_sort_raises _ _ _ _ _ Hk). split; intros _; by exists e.
    - rewrite !Exists_exists.
      split; intros (t & Ht & H); exists t; (split; [done|by apply Hkey]). }
  assert (forall (K : Type) (ltb : K -> K -> bool) (key : Task -> result K) e,
            (forall t e, key t = Raise e -> e = AttributeError) ->
            list_sort ltb key reverse l = Raise e -> e = AttributeError) as Hattr.
  { intros K ltb key e Hkey Hs.
    destruct (comprehension key l) as [keys|e'] eqn:Hk;
      [by rewrite (list_sort_decorated _ _ _ _ _ Hk) in Hs|].
    rewrite (list_sort_raises _ _ _ _ _ Hk) in Hs. injection Hs as <-.
    apply comprehension_raised_by in Hk as (t & _ & Ht). by eapply Hkey. }
  unfold sort_tasks. split_and!.
  - simpl String.eqb. cbv iota. fold l.
    rewrite <- (Hiff string String.ltb (fun task => py_lower (name task)) name).
    + destruct (list_sort _ _ _ _); simpl; split; intros [e' H]; exists e'; congruence.
    + intros t. apply py_lower_raises_iff.
  - simpl String.eqb. cbv iota. fold l.
    rewrite <- (Hiff Z Z.ltb priority_key priority).
    + destruct (list_sort _ _ _ _); simpl; split; intros [e' H]; exists e'; congruence.
    + intros t. rewrite <- py_lower_raises_iff. unfold priority_key.
      destruct (py_lower (priority t)); simpl; split; intros [e' H];
        try discriminate H; eauto.
  - intros sort_key e [-> | ->]; simpl String.eqb; cbv iota; fold l.
    + destruct (list_sort _ _ _ _) as [l1|e1] eqn:E; simpl; [done|].
      intros [= ->]. split; [|done].
      apply (Hattr _ _ _ _ (fun t e H => proj1 (py_lower_raises _ _ H)) E).
    + destruct (list_sort _ _ _ _) as [l1|e1] eqn:E; simpl; [done|].
      intros [= ->]. split; [|done].
      apply (Hattr _ _ priority_key _) in E; [done|].
      intros t e' Ht. unfold priority_key in Ht.
      destruct (py_lower (priority t)) eqn:Hp; [done|].
      simpl in Ht. injection Ht as <-. by apply py_lower_raises in Hp as [-> _].
Qed.

Lemma sort_by_name_or_priority_raises_witness :
  let st := mkState (mkTaskManager "tasks.json"
                       [example_task; mkTask (PInt 7) (PStr "") (PStr "low") (PStr "2025-01-01")])
                    ∅ [] in
  (sort_tasks "name" false st).1 = Raise AttributeError /\
  (sort_tasks "name" false st).2 = st.
Proof.
  intros st.
  pose proof (sort_by_name_or_priority_raises false st) as (_ & _ & H).
  destruct (H "name"%string AttributeError) as [_ Hst]; [by left|by vm_compute|].
  split; [by vm_compute|exact Hst].
Defined.

(** ** Filtering: any store, any arguments *)

Lemma supplied_not_given (f : option string) :
  not_given f -> supplied (filter_arg f) = Ok None.
Proof.
  intros H. rewrite supplied_filter_arg. destruct f as [s|]; [|done].
  simpl in H. apply strip_eqb_blank in H. by rewrite H.
Qed.

(** X13.  With no filter given (each absent or blank, or "all" in any case for
    the priority) [get_filtered_tasks] returns the whole sequence of the
    store, whatever the tasks hold: no field of a task is looked at, so
    nothing can raise. *)
Theorem get_filtered_tasks_no_filter (nf pf df : option string) (st : state) :
  not_given nf ->
  not_given pf \/ (exists s, pf = Some s /\ lower s = "all"%string) ->
  not_given df ->
  get_filtered_tasks (filter_arg nf) (filter_arg pf) (filter_arg df) st
  = (Ok (tasks (self st)), st).
Proof.
  intros Hn Hp Hd. unfold get_filtered_tasks. f_equal.
  rewrite (supplied_not_given nf Hn), (supplied_not_given df Hd). cbn [rbind].
  destruct Hp as [Hp|(s & -> & Hs)].
  - by rewrite (supplied_not_given pf Hp).
  - rewrite supplied_filter_arg.
    destruct (String.eqb (strip s) EmptyString); [done|].
    cbn [rbind]. by rewrite Hs.
Qed.

(** X13 at a concrete input. *)
Lemma get_filtered_tasks_no_filter_witness :
  let st := mkState (mkTaskManager "tasks.json"
                       [example_task; mkTask (PInt 7) PNone (PList []) (PStr "2025-01-01")])
                    ∅ [] in
  get_filtered_tasks (PStr "  ") (PStr "All") PNone st = (Ok (tasks (self st)), st).
Proof.
  intros st.
  apply (get_filtered_tasks_no_filter (Some "  "%string) (Some "All"%string) None st).
  - by vm_compute.
  - right. by exists "All"%string.
  - done.
Defined.

Lemma comprehension_if_sublist {A} (p : A -> result bool) (l l1 : list A) :
  comprehension_if p l = Ok l1 -> l1 `sublist_of` l.
Proof.
  revert l1. induction l as [|x l IH]; intros l1; simpl.
  - by intros [= <-].
  - destruct (p x) as [b|]; simpl; [|done].
    destruct (comprehension_if p l) as [ys|]; simpl; [|done].
    intros [= <-]. destruct b; [by apply sublist_skip, IH|by apply sublist_cons, IH].
Qed.

Lemma filter_sublist {A} (b : A -> bool) (l : list A) : List.filter b l `sublist_of` l.
Proof.
  induction l as [|x l IH]; simpl; [done|].
  destruct (b x); [by apply sublist_skip|by apply sublist_cons].
Qed.

(** X14.  Whatever the arguments and whatever the store holds,
    [get_filtered_tasks] leaves the store as it was, also when it raises;
    and what it returns is a subsequence of the store's sequence: tasks of
    the store, in the order of the store, none added and none repeated. *)
Theorem get_filtered_tasks_subsequence (nf pf df : pyval) (st : state) :
  (get_filtered_tasks nf pf df st).2 = st /\
  (forall l, (get_filtered_tasks nf pf df st).1 = Ok l -> l `sublist_of` tasks (self st)).
Proof.
  split; [done|]. unfold get_filtered_tasks. simpl. intros l.
  destruct (supplied nf) as [n|]; simpl; [|done].
  destruct (match n with Some f => _ | None => _ end) as [l1|] eqn:E1; simpl; [|done].
  assert (l1 `sublist_of` tasks (self st)) as H1.
  { destruct n; [by eapply comprehension_if_sublist|by injection E1 as <-]. }
  destruct (supplied pf) as [p|]; simpl; [|done].
  destruct (match p with Some f => _ | None => _ end) as [l2|] eqn:E2; simpl; [|done].
  assert (l2 `sublist_of` l1) as H2.
  { destruct p as [f|]; [|by injection E2 as <-].
    destruct (negb _); [by eapply comprehension_if_sublist|by injection E2 as <-]. }
  destruct (supplied df) as [d|]; simpl; [|done].
  destruct d as [f|]; simpl; intros [= <-].
  - etrans; [apply filter_sublist|]. by etrans.
  - by etrans.
Qed.

Lemma comprehension_if_raises {A} (p : A -> result bool) (l : list A) (e0 : exn) :
  (forall x e, p x = Raise e -> e = e0) ->
  Exists (fun x => exists e, p x = Raise e) l ->
  comprehension_if p l = Raise e0.
Proof.
  intros Hp. induction 1 as [x l [e Hx]|x l _ IH]; simpl.
  - rewrite Hx. simpl. by rewrite (Hp x e Hx).
  - destruct (p x) as [b|e] eqn:Hx; simpl; [by rewrite IH|].
    by rewrite (Hp x e Hx).
Qed.

Lemma supplied_given (s : string) :
  ~ blank s -> supplied (PStr s) = Ok (Some s).
Proof.
  intros H. refine (eq_trans (supplied_filter_arg (Some s)) _).
  destruct (String.eqb (strip s) EmptyString) eqn:E; [|done].
  by apply strip_eqb_blank in E.
Qed.

(** X15.  [get_filtered_tasks] takes strings on trust.  With a name filter given,
    a task whose name is not a string makes it raise [AttributeError], and
    so does, with a priority filter given (and no name filter), a task
    whose priority is not a string.  A filter argument that is true but no
    string raises too.  The due-date filter compares with [==] and never
    raises.  Such tasks are what a load leaves for a file whose records
    hold numbers or nulls. *)
Theorem get_filtered_tasks_non_strings (st : state) (s : string) (pf df : pyval) :
  ~ blank s ->
  (Exists (fun t => ~ is_str (name t)) (tasks (self st)) ->
     get_filtered_tasks (PStr s) pf df st = (Raise AttributeError, st)) /\
  (lower s <> "all"%string ->
   Exists (fun t => ~ is_str (priority t)) (tasks (self st)) ->
     get_filtered_tasks PNone (PStr s) df st = (Raise AttributeError, st)) /\
  (forall v, truthy v = true -> ~ is_str v ->
     get_filtered_tasks v pf df st = (Raise AttributeError, st)) /\
  get_filtered_tasks PNone PNone (PStr s) st
  = (Ok (List.filter (fun t => py_eq_str (due_date t) s) (tasks (self st))), st).
Proof.
  intros Hs. unfold get_filtered_tasks. split_and!.
  - intros Hex. f_equal. rewrite (supplied_given s Hs). cbn [rbind].
    rewrite (comprehension_if_raises _ _ AttributeError); [done| |].
    + intros t e. destruct (py_lower (name t)) eqn:E; simpl; [done|].
      intros [= <-]. by apply py_lower_raises in E as [-> _].
    + eapply Exists_impl; [exact Hex|]. intros t Ht. simpl.
      apply py_lower_raises_iff in Ht as [e ->]. by exists e.
  - intros Hall Hex. f_equal.
    change (supplied PNone) with (@Ok (option string) None). cbn [rbind].
    rewrite (supplied_given s Hs). cbn [rbind].
    apply String.eqb_neq in Hall. rewrite Hall. simpl negb. cbv iota.
    rewrite (comprehension_if_raises _ _ AttributeError); [done| |].
    + intros t e. destruct (py_lower (priority t)) eqn:E; simpl; [done|].
      intros [= <-]. by apply py_lower_raises in E as [-> _].
    + eapply Exists_impl; [exact Hex|]. intros t Ht. simpl.
      apply py_lower_raises_iff in Ht as [e ->]. by exists e.
  - intros v Hv Hnot. f_equal. unfold supplied at 1. rewrite Hv.
    by destruct v.
  - f_equal. change (supplied PNone) with (@Ok (option string) None). cbn [rbind].
    by rewrite (supplied_given s Hs).
Qed.

(** X15 at a concrete input. *)
Lemma get_filtered_tasks_non_strings_witness :
  let st := mkState (mkTaskManager "tasks.json"
                       [example_task; mkTask (PInt 7) (PStr "") (PStr "low") (PStr "2025-01-01")])
                    ∅ [] in
  get_filtered_tasks (PStr "rep") PNone PNone st = (Raise AttributeError, st) /\
  get_filtered_tasks (PInt 3) PNone PNone st = (Raise AttributeError, st).
Proof.
  intros st.
  assert (~ blank "rep") as Hb by (intros [H _]; vm_compute in H; discriminate H).
  pose proof (get_filtered_tasks_non_strings st "rep" PNone PNone Hb) as (H1 & _ & H3 & _).
  split.
  - apply H1. apply Exists_cons_tl, Exists_cons_hd. simpl. tauto.
  - apply H3; [done|simpl; tauto].
Defined.

(** ** Filtering: the case of the filter text *)

Lemma isspace_lower_char (c : ascii) : isspace (lower_char c) = isspace c.
Proof. by destruct c as [[] [] [] [] [] [] [] []]; vm_compute. Qed.

Lemma blank_lower (s : string) : blank (lower s) <-> blank s.
Proof.
  induction s as [|c r IH]; simpl; [done|]. by rewrite isspace_lower_char, IH.
Qed.

Lemma strip_eqb_lower (s1 s2 : string) :
  lower s1 = lower s2 ->
  String.eqb (strip s1) EmptyString = String.eqb (strip s2) EmptyString.
Proof.
  intros H. apply eq_true_iff_eq.
  by rewrite !strip_eqb_blank, <- (blank_lower s1), <- (blank_lower s2), H.
Qed.

(** X16.  The name filter and the priority filter are read without regard to
    case: two filter texts with the same lower case give the same result
    on every store, whatever the other arguments are. *)
Theorem get_filtered_tasks_ignores_case (s1 s2 : string) (nf pf df : pyval) (st : state) :
  lower s1 = lower s2 ->
  get_filtered_tasks (PStr s1) pf df st = get_filtered_tasks (PStr s2) pf df st /\
  get_filtered_tasks nf (PStr s1) df st = get_filtered_tasks nf (PStr s2) df st.
Proof.
  intros H. unfold get_filtered_tasks.
  pose proof (supplied_filter_arg (Some s1)) as E1.
  pose proof (supplied_filter_arg (Some s2)) as E2.
  change (filter_arg (Some s1)) with (PStr s1) in E1.
  change (filter_arg (Some s2)) with (PStr s2) in E2.
  rewrite E1, E2, (strip_eqb_lower s1 s2 H).
  destruct (String.eqb (strip s2) EmptyString); [done|].
  cbn [rbind]. by rewrite H.
Qed.

(** X16 at a concrete input. *)
Lemma get_filtered_tasks_ignores_case_witness :
  get_filtered_tasks (PStr "REPORT") PNone PNone example_state
  = get_filtered_tasks (PStr "report") PNone PNone example_state.
Proof.
  apply (get_filtered_tasks_ignores_case "REPORT" "report" PNone PNone PNone example_state).
  by vm_compute.
Defined.

(** ** The validator on dates written with digits *)

Lemma int_digits_digit (c : ascii) (r : string) (acc : Z) (prev : bool) :
  is_digit c = true -> int_digits (String c r) acc prev = int_digits r (acc * 10 + digit_val c) true.
Proof. intros H. simpl. by rewrite H. Qed.

Lemma digit_head (c : ascii) (r : string) :
  is_digit c = true ->
  skip_int_space (String c r) = String c r /\
  match String c r with
  | String "+" r' => (1, r')
  | String "-" r' => (-1, r')
  | _ => (1, String c r)
  end = (1, String c r).
Proof.
  intros H. apply is_digit_cases in H. simpl in H.
  repeat (destruct H as [<-|H]; [by vm_compute|]). done.
Qed.

Lemma py_int_digits2 (a b : ascii) :
  is_digit a = true -> is_digit b = true ->
  py_int (String a (String b EmptyString)) = Ok (digit_val a * 10 + digit_val b).
Proof.
  intros Ha Hb. unfold py_int.
  destruct (digit_head a (String b EmptyString) Ha) as [-> ->].
  rewrite !int_digits_digit by done. simpl. f_equal. lia.
Qed.

Lemma py_int_digits4 (a b c d : ascii) :
  is_digit a = true -> is_digit b = true -> is_digit c = true -> is_digit d = true ->
  py_int (String a (String b (String c (String d EmptyString))))
  = Ok (digit_val a * 1000 + digit_val b * 100 + digit_val c * 10 + digit_val d).
Proof.
  intros Ha Hb Hc Hd. unfold py_int.
  destruct (digit_head a (String b (String c (String d EmptyString))) Ha) as [-> ->].
  rewrite !int_digits_digit by done. simpl. f_equal. lia.
Qed.

Lemma month_length_days_in_month (y m : Z) :
  1 <= m <= 12 -> month_length y m = days_in_month y m.
Proof.
  intros Hm. unfold month_length, days_in_month, is_leap.
  rewrite <- leap_year_test.
  assert (m = 1 \/ m = 2 \/ m = 3 \/ m = 4 \/ m = 5 \/ m = 6 \/ m = 7 \/ m = 8 \/
          m = 9 \/ m = 10 \/ m = 11 \/ m = 12) as Hc by lia.
  repeat (destruct Hc as [->|Hc]; [try reflexivity|]); [|by subst].
  simpl.
  destruct (Z.eqb_spec (y mod 400) 0) as [E400|E400],
           (Z.eqb_spec (y mod 100) 0) as [E100|E100],
           (Z.eqb_spec (y mod 4) 0) as [E4|E4];
    simpl; try reflexivity; exfalso; Z.div_mod_to_equations; lia.
Qed.

(** X17.  On a text made of four digits, a dash, two digits, a dash and two
    digits, [validate_date] answers [True] exactly when the year is from
    1900 to 2100 and the month and the day name a day of the calendar the
    sort by due date uses; and a date the validator accepts is parsed by
    that sort, to the same year, month and day. *)
Theorem validate_date_on_digits (y1 y2 y3 y4 m1 m2 d1 d2 : ascii) :
  forallb is_digit [y1; y2; y3; y4; m1; m2; d1; d2] = true ->
  let s := String y1 (String y2 (String y3 (String y4 (String "-"
             (String m1 (String m2 (String "-" (String d1 (String d2 EmptyString))))))))) in
  let y := digit_val y1 * 1000 + digit_val y2 * 100 + digit_val y3 * 10 + digit_val y4 in
  let m := digit_val m1 * 10 + digit_val m2 in
  let d := digit_val d1 * 10 + digit_val d2 in
  (validate_date s = Ok true <->
   1900 <= y <= 2100 /\ 1 <= m <= 12 /\ 1 <= d <= days_in_month y m) /\
  (validate_date s = Ok true -> strptime s = Ok (y, m, d)).
Proof.
  intros Hd s y m d.
  assert (validate_date s = Ok true <->
          1900 <= y <= 2100 /\ 1 <= m <= 12 /\ 1 <= d <= days_in_month y m) as Hiff.
  { simpl in Hd. rewrite !andb_true_iff in Hd.
    destruct Hd as (Hy1 & Hy2 & Hy3 & Hy4 & Hm1 & Hm2 & Hd1 & Hd2 & _).
    rewrite validate_date_try_true. unfold validate_date_try.
    change (Z.of_nat (String.length s) =? 10) with true.
    change (str_index s 4) with (@Ok ascii "-"%char).
    change (str_index s 7) with (@Ok ascii "-"%char).
    change (slice s 0 4) with (String y1 (String y2 (String y3 (String y4 EmptyString)))).
    change (slice s 5 7) with (String m1 (String m2 EmptyString)).
    change (slice s 8 10) with (String d1 (String d2 EmptyString)).
    rewrite (py_int_digits4 _ _ _ _ Hy1 Hy2 Hy3 Hy4), (py_int_digits2 _ _ Hm1 Hm2),
            (py_int_digits2 _ _ Hd1 Hd2).
    cbn [rbind negb Ascii.eqb Bool.eqb andb]. fold y m d.
    destruct ((y <? 1900) || (y >? 2100)) eqn:Ey; [split; [done|lia]|].
    destruct ((m <? 1) || (m >? 12)) eqn:Em; [split; [done|lia]|].
    rewrite leap_year_test, table_lookup by lia. cbn [rbind].
    rewrite month_length_days_in_month by lia.
    destruct ((d <? 1) || (d >? days_in_month y m)) eqn:Ed; split; try done; lia. }
  split; [exact Hiff|].
  intros Hv. apply Hiff in Hv as (Hy & Hm & Hdd).
  simpl in Hd. rewrite !andb_true_iff in Hd.
  destruct Hd as (Hy1 & Hy2 & Hy3 & Hy4 & Hm1 & Hm2 & Hd1 & Hd2 & _).
  pose proof (days_in_month_le y m) as Hle.
  destruct (match_day d1 d2 Hd1 Hd2) as [tl Htl]; [fold d; lia|]. fold d in Htl.
  unfold strptime, match_ymd. subst s.
  rewrite (match_Y_digits _ _ _ _ _ Hy1 Hy2 Hy3 Hy4), bind_one. fold y.
  cbv beta iota. change (match_dash (String "-" ?r)) with [r]. rewrite bind_one.
  rewrite (match_month m1 m2 (String d1 (String d2 EmptyString))
             (fun m s4 => '(d, s5) ← match_d s4; [((y, m, d), s5)]) Hm1 Hm2);
    [|fold m; lia].
  fold m. rewrite Htl. cbn [mbind list_bind app].
  assert ((1 <=? y) && (d <=? days_in_month y m) = true) as ->; [|reflexivity].
  apply andb_true_iff. split; lia.
Qed.

(** X17 at a concrete input. *)
Lemma validate_date_on_digits_witness :
  validate_date "2024-02-29" = Ok true /\ strptime "2024-02-29" = Ok (2024, 2, 29).
Proof.
  pose proof (validate_date_on_digits "2" "0" "2" "4" "0" "2" "2" "9" eq_refl) as [Hiff Hp].
  cbv zeta in Hiff, Hp.
  assert (validate_date "2024-02-29" = Ok true) as Hv.
  { apply Hiff. vm_compute. repeat split; discriminate. }
  split; [exact Hv|exact (Hp Hv)].
Defined.

(** * Properties of the window *)

(** ** Finding the task of the selected row *)

Lemma py_eq_str_eq (v : pyval) (s : string) : py_eq_str v s = true <-> v = PStr s.
Proof.
  destruct v; simpl; try (split; [discriminate|discriminate]).
  rewrite String.eqb_eq. split; [by intros ->|by intros [= ->]].
Qed.

Lemma task_index_from_spec (i : Z) (item_name : string) (l : list Task) :
  0 <= i ->
  let r := GUI.task_index_from i item_name l in
  (r = -1 /\ Forall (fun t => name t <> PStr item_name) l) \/
  (i <= r < i + Z.of_nat (length l) /\
   (exists t, l !! Z.to_nat (r - i) = Some t /\ name t = PStr item_name) /\
   Forall (fun t => name t <> PStr item_name) (take (Z.to_nat (r - i)) l)).
Proof.
  revert i. induction l as [|t l IH]; intros i Hi; simpl.
  - left. by split.
  - destruct (py_eq_str (name t) item_name) eqn:E.
    + right. apply py_eq_str_eq in E. rewrite Z.sub_diag. simpl.
      split; [lia|]. split; [by exists t|constructor].
    + assert (name t <> PStr item_name) as Hne.
      { intros H. apply py_eq_str_eq in H. congruence. }
      destruct (IH (i + 1)) as [[Hr Hall]|(Hr & (t' & Ht' & Hn') & Hall)]; [lia|..].
      * left. split; [done|by constructor].
      * right. split; [lia|].
        replace (Z.to_nat (GUI.task_index_from (i + 1) item_name l - i))
          with (S (Z.to_nat (GUI.task_index_from (i + 1) item_name l - (i + 1)))) by lia.
        simpl. split; [by exists t'|by constructor].
Qed.

(** X18.  The loop that finds the task of the selected row returns [-1] exactly
    when no task has the name of the row; otherwise it returns an index
    inside the store, of a task with that name, and no task before that
    index has the name: of several tasks with one name the loop always
    finds the first. *)
Theorem task_index_of_first_match (item_name : string) (l : list Task) :
  let i := GUI.task_index_of item_name l in
  (i = -1 <-> Forall (fun t => name t <> PStr item_name) l) /\
  (i <> -1 ->
     0 <= i < Z.of_nat (length l) /\
     (exists t, l !! Z.to_nat i = Some t /\ name t = PStr item_name) /\
     Forall (fun t => name t <> PStr item_name) (take (Z.to_nat i) l)).
Proof.
  cbv zeta. unfold GUI.task_index_of.
  destruct (task_index_from_spec 0 item_name l) as [[Hr Hall]|(Hr & (t & Ht & Hn) & Hall)];
    [lia|..].
  - rewrite Hr. split; [done|]. by intros [].
  - rewrite Z.sub_0_r in Ht, Hall. split; [|intros _; split; [lia|by split; [exists t|]]].
    split; [lia|]. intros Hnone. exfalso.
    apply list_elem_of_lookup_2 in Ht. rewrite Forall_forall in Hnone. by apply (Hnone t).
Qed.

(** X18 at a concrete input. *)
Lemma task_index_of_first_match_witness :
  let l := [other_task; example_task; example_task] in
  let i := GUI.task_index_of "Report" l in
  0 <= i < Z.of_nat (length l) /\
  (exists t, l !! Z.to_nat i = Some t /\ name t = PStr "Report") /\
  Forall (fun t => name t <> PStr "Report") (take (Z.to_nat i) l).
Proof.
  apply (task_index_of_first_match "Report" [other_task; example_task; example_task]).
  vm_compute. discriminate.
Defined.

Lemma task_index_from_split (i : Z) (item_name : string) (l1 l2 : list Task) (t : Task) :
  Forall (fun t' => name t' <> PStr item_name) l1 ->
  name t = PStr item_name ->
  GUI.task_index_from i item_name (l1 ++ t :: l2) = i + Z.of_nat (length l1).
Proof.
  intros H1 Ht. revert i. induction H1 as [|t' l1 Hne _ IH]; intros i; simpl.
  - apply py_eq_str_eq in Ht. rewrite Ht. lia.
  - destruct (py_eq_str (name t') item_name) eqn:E; [by apply py_eq_str_eq in E|].
    rewrite IH. lia.
Qed.

(** ** What the window does to the store *)

Lemma populate_tree_store (g : GUI.t) :
  GUI.task_manager (GUI.populate_tree g).2 = GUI.task_manager g /\
  GUI.shown (GUI.populate_tree g).2 = GUI.shown g /\
  GUI.sort_column (GUI.populate_tree g).2 = GUI.sort_column g /\
  GUI.sort_reverse (GUI.populate_tree g).2 = GUI.sort_reverse g.
Proof.
  unfold GUI.populate_tree, get_filtered_tasks. simpl.
  by destruct (rbind _ _).
Qed.

Lemma delete_middle {A} (l1 l2 : list A) (x : A) :
  delete (length l1) (l1 ++ x :: l2) = l1 ++ l2.
Proof. induction l1 as [|y l1 IH]; simpl; [done|]. by rewrite IH. Qed.

(** X19.  Deleting through the window removes the first task, in the order of the
    store, whose name is the name in the selected row, and saves; when two
    tasks have that name and the row of the second is selected, it is the
    first that goes.  Without a selected row, with a name no task has, or
    with the answer No, the store is left as it was. *)
Theorem gui_delete_removes_first_match (g : GUI.t) (item_name : string)
    (l1 l2 : list Task) (t : Task) :
  tasks (self (GUI.task_manager g)) = l1 ++ t :: l2 ->
  name t = PStr item_name ->
  Forall (fun t' => name t' <> PStr item_name) l1 ->
  let tm' := GUI.task_manager (GUI.delete_task (Some item_name) true g).2 in
  tasks (self tm') = l1 ++ l2 /\ synced tm' /\
  GUI.task_manager (GUI.delete_task (Some item_name) false g).2 = GUI.task_manager g /\
  GUI.task_manager (GUI.delete_task None true g).2 = GUI.task_manager g.
Proof.
  intros Hl Ht H1. cbv zeta. split_and!; try done.
  - unfold GUI.delete_task. rewrite Hl.
    unfold GUI.task_index_of. rewrite (task_index_from_split 0 _ _ _ _ H1 Ht).
    destruct (Z.eqb_spec (0 + Z.of_nat (length l1)) (-1)) as [?|_]; [lia|].
    unfold delete_task, in_bounds. rewrite Hl.
    assert ((0 <=? 0 + Z.of_nat (length l1)) &&
            (0 + Z.of_nat (length l1) <? Z.of_nat (length (l1 ++ t :: l2))) = true) as ->.
    { rewrite length_app. simpl. apply andb_true_iff.
      split; [apply Z.leb_le|apply Z.ltb_lt]; lia. }
    cbn -[GUI.populate_tree]. rewrite (proj1 (populate_tree_store _)). simpl.
    replace (Z.to_nat (0 + Z.of_nat (length l1))) with (length l1) by lia.
    apply delete_middle.
  - unfold GUI.delete_task. rewrite Hl.
    unfold GUI.task_index_of. rewrite (task_index_from_split 0 _ _ _ _ H1 Ht).
    destruct (Z.eqb_spec (0 + Z.of_nat (length l1)) (-1)) as [?|_]; [lia|].
    unfold delete_task, in_bounds. rewrite Hl.
    assert ((0 <=? 0 + Z.of_nat (length l1)) &&
            (0 + Z.of_nat (length l1) <? Z.of_nat (length (l1 ++ t :: l2))) = true) as ->.
    { rewrite length_app. simpl. apply andb_true_iff.
      split; [apply Z.leb_le|apply Z.ltb_lt]; lia. }
    cbn -[GUI.populate_tree]. rewrite (proj1 (populate_tree_store _)).
    unfold synced. simpl. by rewrite lookup_insert_eq.
  - unfold GUI.delete_task. rewrite Hl.
    unfold GUI.task_index_of. rewrite (task_index_from_split 0 _ _ _ _ H1 Ht).
    by destruct (Z.eqb_spec (0 + Z.of_nat (length l1)) (-1)) as [?|_]; [lia|].
Qed.

(** X19 at a concrete input. *)
Lemma gui_delete_removes_first_match_witness :
  tasks (self (GUI.task_manager (GUI.delete_task (Some "Report"%string) true example_window).2))
  = [other_task; twin_task].
Proof.
  refine (proj1 (gui_delete_removes_first_match example_window "Report"
                   [other_task] [twin_task] example_task _ _ _)).
  - reflexivity.
  - reflexivity.
  - repeat constructor. discriminate.
Defined.

(** ** The dialogs check what they store *)

Lemma entered_new (n d p dd : string) :
  strip n <> EmptyString -> validate_date (strip dd) = Ok true ->
  entered (mkTask (PStr (strip n)) (PStr d) (PStr p) (PStr (strip dd))).
Proof. intros Hn Hd. by repeat split. Qed.

Lemma truthy_str (s : string) : truthy (PStr s) = false <-> s = EmptyString.
Proof.
  simpl. destruct (String.eqb_spec s EmptyString); simpl; split; done.
Qed.

(** X20.  The function behind the button Add Task adds a task exactly when the
    name, stripped of white space, is not empty and the validator accepts
    the stripped due date.  Then the store gets one more task at its end,
    with the stripped name, description and due date and the priority in
    lower case, and is saved; no message is shown.  Otherwise the store is
    left as it was and one error message is shown. *)
Theorem gui_add_task_validates (n d p dd : string) (g : GUI.t) :
  let r := GUI.add_task n d p dd g in
  let tm := GUI.task_manager g in
  let tm' := GUI.task_manager r.2 in
  (strip n <> EmptyString -> validate_date (strip dd) = Ok true ->
     tasks (self tm')
     = tasks (self tm) ++ [mkTask (PStr (strip n)) (PStr (strip d)) (PStr (lower p))
                                  (PStr (strip dd))] /\
     synced tm' /\ GUI.shown r.2 = GUI.shown g) /\
  (strip n = EmptyString \/ validate_date (strip dd) = Ok false ->
     tm' = tm /\ r.1 = Ok tt /\
     exists text, GUI.shown r.2 = GUI.shown g ++ [GUI.showerror "Error" text]).
Proof.
  cbv zeta. unfold GUI.add_task. split.
  - intros Hn Hd.
    destruct (truthy (PStr (strip n))) eqn:Et; [|by apply truthy_str in Et].
    cbn [negb]. cbv iota. rewrite Hd.
    cbn -[GUI.populate_tree]. rewrite !(proj1 (populate_tree_store _)).
    rewrite (proj1 (proj2 (populate_tree_store _))). simpl.
    split_and!; try done. unfold synced. simpl. by rewrite lookup_insert_eq.
  - intros H.
    destruct (truthy (PStr (strip n))) eqn:Et; cbn [negb]; cbv iota.
    + destruct H as [Hn|Hd]; [apply truthy_str in Hn; congruence|].
      rewrite Hd. simpl. split_and!; try done. by eexists.
    + simpl. split_and!; try done. by eexists.
Qed.

(** X20 at a concrete input. *)
Lemma gui_add_task_validates_witness :
  let r := GUI.add_task "  Plan " "" "High" "2025-06-01" example_window in
  tasks (self (GUI.task_manager r.2))
  = [other_task; example_task; twin_task;
     mkTask (PStr "Plan") (PStr "") (PStr "high") (PStr "2025-06-01")] /\
  GUI.task_manager (GUI.add_task "   " "" "High" "2025-06-01" example_window).2
  = GUI.task_manager example_window.
Proof.
  split.
  - refine (proj1 (proj1 (gui_add_task_validates "  Plan " "" "High" "2025-06-01"
                            example_window) _ _)); by vm_compute.
  - refine (proj1 (proj2 (gui_add_task_validates "   " "" "High" "2025-06-01"
                            example_window) _)). left. by vm_compute.
Defined.

(** X21.  The function behind the button Update Task checks its fields as the
    add dialog does, and only then calls the store: for an index inside the
    store it puts the new task in that place; for an index outside (the
    store may have shrunk since the dialog was opened) it changes nothing
    and shows "Failed to update task".  With a field that fails the check
    the store is left as it was. *)
Theorem gui_update_task_validates (index : Z) (n d p dd : string) (g : GUI.t) :
  let r := GUI.update_task index n d p dd g in
  let tm := GUI.task_manager g in
  let tm' := GUI.task_manager r.2 in
  let new := mkTask (PStr (strip n)) (PStr (strip d)) (PStr (lower p)) (PStr (strip dd)) in
  (strip n <> EmptyString -> validate_date (strip dd) = Ok true ->
     if in_bounds index tm
     then tasks (self tm') = <[Z.to_nat index := new]> (tasks (self tm)) /\ synced tm'
     else tm' = tm /\ r.1 = Ok tt /\
          GUI.shown r.2 = GUI.shown g ++ [GUI.showerror "Error" "Failed to update task"]) /\
  (strip n = EmptyString \/ validate_date (strip dd) = Ok false ->
     tm' = tm /\ r.1 = Ok tt /\
     exists text, GUI.shown r.2 = GUI.shown g ++ [GUI.showerror "Error" text]).
Proof.
  cbv zeta. unfold GUI.update_task. split.
  - intros Hn Hd.
    destruct (truthy (PStr (strip n))) eqn:Et; [|by apply truthy_str in Et].
    cbn [negb]. cbv iota. rewrite Hd. unfold update_task.
    destruct (in_bounds index (GUI.task_manager g)).
    + cbn -[GUI.populate_tree]. rewrite !(proj1 (populate_tree_store _)). simpl.
      split; [done|]. unfold synced. simpl. by rewrite lookup_insert_eq.
    + simpl. by destruct g.
  - intros H.
    destruct (truthy (PStr (strip n))) eqn:Et; cbn [negb]; cbv iota.
    + destruct H as [Hn|Hd]; [apply truthy_str in Hn; congruence|].
      rewrite Hd. simpl. split_and!; try done. by eexists.
    + simpl. split_and!; try done. by eexists.
Qed.

(** X21 at a concrete input. *)
Lemma gui_update_task_validates_witness :
  tasks (self (GUI.task_manager
                 (GUI.update_task 1 "Report" "Final" "Low" "2025-05-01" example_window).2))
  = [other_task;
     mkTask (PStr "Report") (PStr "Final") (PStr "low") (PStr "2025-05-01");
     twin_task].
Proof.
  pose proof (proj1 (gui_update_task_validates 1 "Report" "Final" "Low" "2025-05-01"
                       example_window)) as H.
  cbv zeta in H. change (in_bounds 1 (GUI.task_manager example_window)) with true in H.
  refine (proj1 (H _ _)); by vm_compute.
Defined.

(** ** What the window keeps true of the store *)

Lemma sort_tasks_perm_state (sort_key : string) (reverse : bool) (st : state) :
  tasks (self (sort_tasks sort_key reverse st).2) ≡ₚ tasks (self st).
Proof.
  unfold sort_tasks.
  destruct (if String.eqb sort_key "name" then _ else _) as [l1|e] eqn:E; [|done].
  simpl.
  destruct (String.eqb sort_key "name"); [by eapply list_sort_perm|].
  destruct (String.eqb sort_key "priority"); [by eapply list_sort_perm|].
  destruct (String.eqb sort_key "due_date"); [by eapply list_sort_perm|].
  by injection E as <-.
Qed.

Lemma gui_sort_tasks_store (sort_key : string) (g : GUI.t) :
  GUI.task_manager (GUI.sort_tasks sort_key g).2
  = (sort_tasks sort_key (GUI.sort_reverse g) (GUI.task_manager g)).2 /\
  GUI.sort_column (GUI.sort_tasks sort_key g).2 = sort_key /\
  GUI.sort_reverse (GUI.sort_tasks sort_key g).2 = GUI.sort_reverse g.
Proof.
  unfold GUI.sort_tasks. cbn -[sort_tasks GUI.populate_tree].
  destruct (sort_tasks sort_key (GUI.sort_reverse g) (GUI.task_manager g)) as [[l|e] tm];
    [|done].
  pose proof (populate_tree_store
                (GUI.set_task_manager tm (GUI.set_sort sort_key (GUI.sort_reverse g) g)))
    as (-> & _ & -> & ->).
  done.
Qed.

Lemma entered_wf (l : list Task) : Forall entered l -> Forall Task_wf l.
Proof. intros H. eapply Forall_impl; [exact H|]. by intros t [? _]. Qed.

(** X22.  The tasks that come in through the dialogs have a name that is not
    empty, a due date the validator accepts, and four string fields; and
    everything the window can do keeps a store of such tasks a store of
    such tasks: adding, updating, deleting, sorting by a button or by a
    heading, filtering and resetting the filters. *)
Theorem gui_keeps_entered (g : GUI.t) :
  Forall entered (tasks (self (GUI.task_manager g))) ->
  let kept (r : result unit * GUI.t) :=
    Forall entered (tasks (self (GUI.task_manager r.2))) in
  (forall n d p dd, kept (GUI.add_task n d p dd g)) /\
  (forall i n d p dd, kept (GUI.update_task i n d p dd g)) /\
  (forall selected confirm, kept (GUI.delete_task selected confirm g)) /\
  (forall sort_key, kept (GUI.sort_tasks sort_key g)) /\
  (forall column, kept (GUI.on_column_click column g)) /\
  kept (GUI.apply_filter g) /\
  kept (GUI.reset_filters g).
Proof.
  intros H kept. subst kept. cbv beta. split_and!.
  - intros n d p dd. unfold GUI.add_task.
    destruct (truthy (PStr (strip n))) eqn:Et; cbn [negb]; cbv iota; [|done].
    destruct (validate_date (strip dd)) as [[]|] eqn:Ed; [|done..].
    cbn -[GUI.populate_tree]. rewrite (proj1 (populate_tree_store _)). simpl.
    apply Forall_app. split; [done|]. constructor; [|constructor].
    apply entered_new; [|done]. intros Hn. apply truthy_str in Hn. congruence.
  - intros i n d p dd. unfold GUI.update_task.
    destruct (truthy (PStr (strip n))) eqn:Et; cbn [negb]; cbv iota; [|done].
    destruct (validate_date (strip dd)) as [[]|] eqn:Ed; [|done..].
    unfold update_task. destruct (in_bounds i (GUI.task_manager g)); [|done].
    cbn -[GUI.populate_tree]. rewrite (proj1 (populate_tree_store _)). simpl.
    apply Forall_insert; [done|].
    apply entered_new; [|done]. intros Hn. apply truthy_str in Hn. congruence.
  - intros [item_name|] confirm; unfold GUI.delete_task; [|done].
    destruct (_ =? -1); [done|]. destruct confirm; [|done].
    unfold delete_task. destruct (in_bounds _ _); [|done].
    cbn -[GUI.populate_tree]. rewrite (proj1 (populate_tree_store _)). simpl.
    by apply Forall_delete.
  - intros sort_key. rewrite (proj1 (gui_sort_tasks_store _ _)).
    by rewrite sort_tasks_perm_state.
  - intros column. unfold GUI.on_column_click.
    rewrite (proj1 (gui_sort_tasks_store _ _)). rewrite sort_tasks_perm_state.
    by destruct (String.eqb _ _).
  - unfold GUI.apply_filter. by rewrite (proj1 (populate_tree_store _)).
  - unfold GUI.reset_filters. by rewrite (proj1 (populate_tree_store _)).
Qed.

(** X22 at a concrete input. *)
Lemma gui_keeps_entered_witness :
  Forall entered
    (tasks (self (GUI.task_manager
                    (GUI.add_task "Plan" "" "High" "2025-06-01" example_window).2))).
Proof.
  refine (proj1 (gui_keeps_entered example_window _) "Plan"%string ""%string "High"%string
            "2025-06-01"%string).
  repeat constructor; try discriminate; by vm_compute.
Defined.

(** ** When the window raises *)

Lemma supplied_str (s : string) : exists o, supplied (PStr s) = Ok o.
Proof. eexists. exact (supplied_filter_arg (Some s)). Qed.

Lemma get_filtered_tasks_wf_ok (a b c : string) (st : state) :
  Forall Task_wf (tasks (self st)) ->
  exists l, get_filtered_tasks (PStr a) (PStr b) (PStr c) st = (Ok l, st).
Proof.
  intros Hwf. unfold get_filtered_tasks.
  destruct (supplied_str a) as [oa ->], (supplied_str b) as [ob ->],
           (supplied_str c) as [oc ->].
  cbn [rbind].
  assert (exists l1, match oa with
                     | Some f =>
                         comprehension_if
                           (fun task => let? n := py_lower (name task) in
                                        Ok (str_contains (lower f) n)) (tasks (self st))
                     | None => Ok (tasks (self st))
                     end = Ok l1 /\ Forall Task_wf l1) as (l1 & -> & Hwf1).
  { destruct oa as [f|]; [|by eexists].
    eexists. split; [|by apply Forall_filter].
    apply (comprehension_if_pure _
             (fun t => str_contains (lower f) (lower (str_of (name t))))).
    eapply Forall_impl; [exact Hwf|].
    intros t (Hn & _). simpl. by rewrite (py_lower_wf _ Hn). }
  cbn [rbind].
  assert (exists l2, match ob with
                     | Some f =>
                         if negb (String.eqb (lower f) "all") then
                           comprehension_if
                             (fun task => let? p := py_lower (priority task) in
                                          Ok (String.eqb p (lower f))) l1
                         else Ok l1
                     | None => Ok l1
                     end = Ok l2) as (l2 & ->).
  { destruct ob as [f|]; [|by eexists].
    destruct (negb _); [|by eexists].
    eexists.
    apply (comprehension_if_pure _
             (fun t => String.eqb (lower (str_of (priority t))) (lower f))).
    eapply Forall_impl; [exact Hwf1|].
    intros t (_ & _ & Hp & _). simpl. by rewrite (py_lower_wf _ Hp). }
  cbn [rbind]. destruct oc; by eexists.
Qed.

Lemma populate_tree_wf_ok (g : GUI.t) :
  Forall Task_wf (tasks (self (GUI.task_manager g))) ->
  (GUI.populate_tree g).1 = Ok tt.
Proof.
  intros Hwf. unfold GUI.populate_tree. cbn -[get_filtered_tasks].
  by destruct (get_filtered_tasks_wf_ok (GUI.name_filter g) (GUI.priority_filter g)
                 (GUI.date_filter g) _ Hwf) as [l ->].
Qed.

Lemma sort_tasks_wf_ok (sort_key : string) (reverse : bool) (st : state) :
  Forall Task_wf (tasks (self st)) -> sort_key <> "due_date"%string ->
  exists l, (sort_tasks sort_key reverse st).1 = Ok l.
Proof.
  intros Hwf Hk. unfold sort_tasks.
  destruct (String.eqb sort_key "name").
  { erewrite list_sort_decorated; [by eexists|].
    apply comprehension_pure. eapply Forall_impl; [exact Hwf|]. apply name_key_wf. }
  destruct (String.eqb sort_key "priority").
  { erewrite list_sort_decorated; [by eexists|].
    apply comprehension_pure. eapply Forall_impl; [exact Hwf|]. apply priority_key_wf. }
  apply String.eqb_neq in Hk. rewrite Hk. by eexists.
Qed.

(** X23.  On a store of tasks of the data model nothing the window does raises,
    but for a sort by due date: the dialogs, the deletion, the filters and
    the sorts by any other column all return normally. *)
Theorem gui_raises_only_on_due_date_sort (g : GUI.t) :
  Forall Task_wf (tasks (self (GUI.task_manager g))) ->
  (forall n d p dd, (GUI.add_task n d p dd g).1 = Ok tt) /\
  (forall i n d p dd, (GUI.update_task i n d p dd g).1 = Ok tt) /\
  (forall selected confirm, (GUI.delete_task selected confirm g).1 = Ok tt) /\
  (forall sort_key, sort_key <> "due_date"%string ->
     (GUI.sort_tasks sort_key g).1 = Ok tt /\ (GUI.on_column_click sort_key g).1 = Ok tt) /\
  (GUI.apply_filter g).1 = Ok tt /\
  (GUI.reset_filters g).1 = Ok tt.
Proof.
  intros Hwf. split_and!.
  - intros n d p dd. unfold GUI.add_task.
    destruct (truthy _); cbn [negb]; cbv iota; [|done].
    destruct (validate_date_total (strip dd)) as [[] ->]; [|done].
    cbn -[GUI.populate_tree]. apply populate_tree_wf_ok. simpl.
    apply Forall_app. split; [done|]. by repeat constructor.
  - intros i n d p dd. unfold GUI.update_task.
    destruct (truthy _); cbn [negb]; cbv iota; [|done].
    destruct (validate_date_total (strip dd)) as [[] ->]; [|done].
    unfold update_task. destruct (in_bounds _ _); [|done].
    cbn -[GUI.populate_tree]. apply populate_tree_wf_ok. simpl.
    apply Forall_insert; [done|]. by repeat constructor.
  - intros [item_name|] confirm; unfold GUI.delete_task; [|done].
    destruct (_ =? -1); [done|]. destruct confirm; [|done].
    unfold delete_task. destruct (in_bounds _ _); [|done].
    cbn -[GUI.populate_tree]. apply populate_tree_wf_ok. simpl.
    by apply Forall_delete.
  - intros sort_key Hk.
    assert (forall g', Forall Task_wf (tasks (self (GUI.task_manager g'))) ->
                       (GUI.sort_tasks sort_key g').1 = Ok tt) as Hsort.
    { intros g' Hwf'. unfold GUI.sort_tasks. cbn -[sort_tasks GUI.populate_tree].
      destruct (sort_tasks_wf_ok sort_key (GUI.sort_reverse g') _ Hwf' Hk) as [l Hl].
      pose proof (sort_tasks_perm_state sort_key (GUI.sort_reverse g')
                    (GUI.task_manager g')) as Hp.
      destruct (sort_tasks sort_key (GUI.sort_reverse g') (GUI.task_manager g'))
        as [[l'|e] tm]; [|done].
      apply populate_tree_wf_ok. simpl in *. by rewrite Hp. }
    split; [by apply Hsort|].
    unfold GUI.on_column_click. apply Hsort. by destruct (String.eqb _ _).
  - by apply populate_tree_wf_ok.
  - by apply populate_tree_wf_ok.
Qed.

(** X23 at a concrete input. *)
Lemma gui_raises_only_on_due_date_sort_witness :
  (GUI.on_column_click "priority" example_window).1 = Ok tt.
Proof.
  assert (Forall Task_wf (tasks (self (GUI.task_manager example_window)))) as Hwf
    by repeat constructor.
  pose proof (gui_raises_only_on_due_date_sort example_window Hwf) as (_ & _ & _ & H & _).
  apply H. discriminate.
Defined.

(** X24.  The validator does not protect the sort by due date.  Whatever the
    store holds, the add dialog accepts the due date 2024-+1-+1 ([int]
    reads a sign), shows no error and stores the task; from then on a
    click on the heading Due Date raises [ValueError] out of the sort, as
    long as the due dates before it parse. *)
Theorem gui_validated_date_breaks_sort (g : GUI.t) (n d p : string) :
  strip n <> EmptyString ->
  Forall (fun t => ~ rejected t) (tasks (self (GUI.task_manager g))) ->
  let g1 := (GUI.add_task n d p "2024-+1-+1" g).2 in
  GUI.shown g1 = GUI.shown g /\
  length (tasks (self (GUI.task_manager g1))) = S (length (tasks (self (GUI.task_manager g)))) /\
  (GUI.on_column_click "due_date" g1).1 = Raise ValueError /\
  (GUI.sort_tasks "due_date" g1).1 = Raise ValueError.
Proof.
  intros Hn Hok. cbv zeta.
  assert (truthy (PStr (strip n)) = true) as Et.
  { destruct (truthy (PStr (strip n))) eqn:E; [done|]. by apply truthy_str in E. }
  assert (GUI.task_manager (GUI.add_task n d p "2024-+1-+1" g).2
          = (add_task (PStr (strip n)) (PStr (strip d)) (PStr (lower p)) (PStr "2024-+1-+1")
               (GUI.task_manager g)).2 /\
          GUI.shown (GUI.add_task n d p "2024-+1-+1" g).2 = GUI.shown g) as [Htm Hshown].
  { unfold GUI.add_task. rewrite Et. cbn [negb]. cbv iota.
    change (validate_date (strip "2024-+1-+1")) with (@Ok bool true). cbv iota.
    cbn -[GUI.populate_tree].
    by rewrite !(proj1 (populate_tree_store _)), (proj1 (proj2 (populate_tree_store _))). }
  assert (forall reverse,
            (sort_tasks "due_date" reverse
               (GUI.task_manager (GUI.add_task n d p "2024-+1-+1" g).2)).1
            = Raise ValueError) as Hsort.
  { intros reverse. rewrite Htm. unfold sort_tasks. simpl String.eqb. cbv iota.
    cbn [add_task seq set_tasks save_tasks_to_json self tasks snd].
    set (l := tasks (self (GUI.task_manager g))) in *.
    set (new := mkTask _ _ _ _).
    assert (comprehension (fun task => py_strptime (due_date task)) (l ++ [new])
            = Raise ValueError) as Hk.
    { clear -Hok. induction Hok as [|t l Ht _ IH]; [done|].
      simpl. destruct (py_strptime (due_date t)) as [k|e] eqn:E;
        [|exfalso; apply Ht; by exists e].
      simpl. by rewrite IH. }
    by rewrite (list_sort_raises _ _ _ _ _ Hk). }
  split_and!.
  - exact Hshown.
  - rewrite Htm. simpl. rewrite length_app. simpl. lia.
  - unfold GUI.on_column_click.
    set (g2 := if String.eqb _ _ then _ else _).
    assert (GUI.task_manager g2 = GUI.task_manager (GUI.add_task n d p "2024-+1-+1" g).2)
      as Hg2 by (subst g2; by destruct (String.eqb _ _)).
    unfold GUI.sort_tasks. cbn -[sort_tasks GUI.populate_tree GUI.add_task].
    specialize (Hsort (GUI.sort_reverse g2)). rewrite <- Hg2 in Hsort.
    by destruct (sort_tasks "due_date" (GUI.sort_reverse g2) (GUI.task_manager g2))
      as [[l|e] tm]; simpl in Hsort; simplify_eq.
  - unfold GUI.sort_tasks. cbn -[sort_tasks GUI.populate_tree GUI.add_task].
    specialize (Hsort (GUI.sort_reverse (GUI.add_task n d p "2024-+1-+1" g).2)).
    by destruct (sort_tasks "due_date" _ _) as [[l|e] tm]; simpl in Hsort; simplify_eq.
Qed.

(** X24 at a concrete input. *)
Lemma gui_validated_date_breaks_sort_witness :
  (GUI.on_column_click "due_date"
     (GUI.add_task "Plan" "" "High" "2024-+1-+1" example_window).2).1
  = Raise ValueError.
Proof.
  refine (proj1 (proj2 (proj2 (gui_validated_date_breaks_sort example_window "Plan" "" "High"
                                 _ _)))).
  - by vm_compute.
  - repeat constructor; intros [e He]; vm_compute in He; discriminate He.
Defined.

(** ** Headings, buttons and the table *)

Lemma on_column_click_state (column : string) (g : GUI.t) :
  let reverse := if String.eqb (GUI.sort_column g) column
                 then negb (GUI.sort_reverse g) else false in
  GUI.sort_column (GUI.on_column_click column g).2 = column /\
  GUI.sort_reverse (GUI.on_column_click column g).2 = reverse /\
  GUI.task_manager (GUI.on_column_click column g).2
  = (sort_tasks column reverse (GUI.task_manager g)).2.
Proof.
  cbv zeta. unfold GUI.on_column_click.
  destruct (gui_sort_tasks_store column
              (if String.eqb (GUI.sort_column g) column
               then GUI.set_sort (GUI.sort_column g) (negb (GUI.sort_reverse g)) g
               else GUI.set_sort column false g)) as (-> & -> & ->).
  by destruct (String.eqb (GUI.sort_column g) column).
Qed.

Lemma gui_init_sort_state (d : gmap string content) (g0 : GUI.t) :
  GUI.__init__ d = Ok g0 -> GUI.sort_column g0 = "name"%string /\ GUI.sort_reverse g0 = false.
Proof.
  unfold GUI.__init__. destruct (__init__ "tasks.json" d) as [[[]|e] tm]; [|done].
  destruct (GUI.populate_tree _) as [[[]|e] g]; [|done]. by intros [= <-].
Qed.

(** X25.  How the headings of the table set the direction of a sort.  A click on
    the heading of the column the table is sorted by reverses the
    direction, so two clicks in a row on one heading sort in opposite
    directions; a click on another heading sorts ascending.  The window
    starts with the sort column "name" without having sorted, so the first
    click on the heading Name sorts by name descending.  The heading
    Description reorders nothing, and neither does any other column the
    store has no sort for. *)
Theorem heading_clicks (g : GUI.t) (column : string) :
  let g1 := (GUI.on_column_click column g).2 in
  let g2 := (GUI.on_column_click column g1).2 in
  GUI.sort_reverse g2 = negb (GUI.sort_reverse g1) /\
  GUI.task_manager g2 = (sort_tasks column (negb (GUI.sort_reverse g1)) (GUI.task_manager g1)).2 /\
  (GUI.sort_column g <> column ->
     GUI.task_manager g1 = (sort_tasks column false (GUI.task_manager g)).2) /\
  (forall d g0, GUI.__init__ d = Ok g0 ->
     GUI.task_manager (GUI.on_column_click "name" g0).2
     = (sort_tasks "name" true (GUI.task_manager g0)).2) /\
  (column <> "name"%string -> column <> "priority"%string -> column <> "due_date"%string ->
     GUI.task_manager g1 = GUI.task_manager g /\ (GUI.on_column_click column g).1 = (GUI.populate_tree g).1).
Proof.
  cbv zeta.
  destruct (on_column_click_state column g) as (Hc & Hr & Htm).
  destruct (on_column_click_state column (GUI.on_column_click column g).2) as (Hc2 & Hr2 & Htm2).
  rewrite Hc, String.eqb_refl in Hr2, Htm2.
  split_and!; try done.
  - intros Hne. apply String.eqb_neq in Hne. by rewrite Htm, Hne.
  - intros d g0 H0. destruct (gui_init_sort_state d g0 H0) as [H1 H2].
    destruct (on_column_click_state "name" g0) as (_ & _ & ->).
    by rewrite H1, H2.
  - intros H1 H2 H3. apply String.eqb_neq in H1, H2, H3.
    split.
    + rewrite Htm. unfold sort_tasks. rewrite H1, H2, H3. by destruct (GUI.task_manager g) as [[]].
    + unfold GUI.on_column_click, GUI.sort_tasks, sort_tasks. rewrite H1, H2, H3.
      cbn -[GUI.populate_tree]. unfold GUI.populate_tree.
      destruct (String.eqb (GUI.sort_column g) column); cbn -[get_filtered_tasks];
        destruct g as [nf pf df tr sc sr [[f l] dk w] sh]; cbn -[get_filtered_tasks];
        by destruct (get_filtered_tasks _ _ _ _) as [[]].
Qed.

(** X26.  The window at its start and after a reset of the filters.  On a
    backing file that holds tasks the window starts with one row for each
    task, in the order of the file, the filters empty and "All"; on no
    file, or on one that is not JSON, it starts with no row.  When the
    store cannot be built the window cannot be either: the exception
    leaves its constructor.  A reset of the filters leaves one row for
    each task of the store, in the order of the store, whatever the tasks
    hold, and never raises. *)
Theorem gui_start_and_reset (d : gmap string content) :
  (forall ts, d !! "tasks.json" = Some (Document (PList (map to_dict ts))) ->
     GUI.__init__ d
     = Ok (GUI.mk "" "All" "" (map GUI.row_of ts) "name" false
             (mkState (mkTaskManager "tasks.json" ts) d []) [])) /\
  (d !! "tasks.json" = None \/ d !! "tasks.json" = Some Empty \/
   d !! "tasks.json" = Some Malformed ->
     GUI.__init__ d
     = Ok (GUI.mk "" "All" "" [] "name" false
             (mkState (mkTaskManager "tasks.json" []) d []) [])) /\
  (forall e, (__init__ "tasks.json" d).1 = Raise e -> GUI.__init__ d = Raise e) /\
  (forall g, GUI.reset_filters g
             = (Ok tt, GUI.mk "" "All" "" (map GUI.row_of (tasks (self (GUI.task_manager g))))
                         (GUI.sort_column g) (GUI.sort_reverse g) (GUI.task_manager g)
                         (GUI.shown g))).
Proof.
  split_and!.
  - intros ts H. unfold GUI.__init__. by rewrite (init_loads_in_order _ _ ts H).
  - intros H. unfold GUI.__init__. by rewrite (init_fails_open _ _ H).
  - intros e. unfold GUI.__init__. destruct (__init__ "tasks.json" d) as [[[]|e'] tm]; [done|].
    by intros [= ->].
  - done.
Qed.

(** X26 at a concrete input. *)
Lemma gui_start_and_reset_witness :
  GUI.__init__ (disk example_state)
  = Ok (GUI.mk "" "All" "" [GUI.row_of example_task] "name" false example_state []).
Proof.
  refine (proj1 (gui_start_and_reset (disk example_state)) [example_task] _).
  reflexivity.
Defined.

(** X25 at a concrete input. *)
Lemma heading_clicks_witness :
  let d : gmap string content :=
    {["tasks.json" := Document (PList [to_dict other_task; to_dict example_task])]} in
  let g0 := GUI.mk "" "All" "" [GUI.row_of other_task; GUI.row_of example_task] "name" false
              (mkState (mkTaskManager "tasks.json" [other_task; example_task]) d []) [] in
  tasks (self (GUI.task_manager (GUI.on_column_click "name" g0).2))
  = [example_task; other_task].
Proof.
  intros d g0.
  pose proof (heading_clicks g0 "name") as (_ & _ & _ & H & _).
  rewrite (H d g0); by vm_compute.
Defined.
